(** * visa_checker: the session driver and its in-page interception hook

    A shallow embedding of [src/visa_checker.py].  The file has two halves,
    as the program has: the JavaScript hook that [inject_fetch_hook] sends
    into the page (a pure function of the intercepted JSON, plus the
    wrapping of [fetch] and [XMLHttpRequest]), and the Python driver, which
    talks to a browser, a vision service, the console and the disk.  The
    driver is embedded in a state-and-exception monad over an environment
    that answers every call the driver makes to the outside world. *)

From Stdlib Require Import ZArith String Ascii List Bool Lia.
From stdpp Require Import gmap strings list pretty.

Set Warnings "-register-all".

Open Scope string_scope.
Open Scope list_scope.
Open Scope Z_scope.

(* ===================================================================== *)
(** * Strings                                                             *)
(* ===================================================================== *)

(** Python [needle in hay], JavaScript [hay.includes(needle)]. *)
Fixpoint includes (needle hay : string) : bool :=
  String.prefix needle hay
  || match hay with
     | EmptyString => false
     | String _ rest => includes needle rest
     end.

(** Python [s.startswith(p)]. *)
Definition startswith (p s : string) : bool := String.prefix p s.

(** Text is held in UTF-8: a [string] is the sequence of bytes that
    encodes a Python [str] or a JavaScript string.  A substring test on
    the bytes is the substring test on the characters.  [utf8_head] reads
    the character at the head of a text: its code point and the text
    after it, [None] where the bytes encode no character. *)
Definition code_unit (c : ascii) : Z := Z.of_nat (nat_of_ascii c).

Definition continuation (c : ascii) : option Z :=
  let n := code_unit c in
  if (128 <=? n) && (n <=? 191) then Some (n - 128) else None.

Definition utf8_head (l : list ascii) : option (Z * list ascii) :=
  match l with
  | [] => None
  | b0 :: rest =>
      let n := code_unit b0 in
      if n <? 128 then Some (n, rest)
      else if (194 <=? n) && (n <=? 223) then
        match rest with
        | b1 :: rest1 =>
            match continuation b1 with
            | Some c1 => Some ((n - 192) * 64 + c1, rest1)
            | None => None
            end
        | _ => None
        end
      else if (224 <=? n) && (n <=? 239) then
        match rest with
        | b1 :: b2 :: rest2 =>
            match continuation b1, continuation b2 with
            | Some c1, Some c2 =>
                let cp := ((n - 224) * 64 + c1) * 64 + c2 in
                if (2048 <=? cp) && negb ((55296 <=? cp) && (cp <=? 57343))
                then Some (cp, rest2) else None
            | _, _ => None
            end
        | _ => None
        end
      else if (240 <=? n) && (n <=? 244) then
        match rest with
        | b1 :: b2 :: b3 :: rest3 =>
            match continuation b1, continuation b2, continuation b3 with
            | Some c1, Some c2, Some c3 =>
                let cp := (((n - 240) * 64 + c1) * 64 + c2) * 64 + c3 in
                if (65536 <=? cp) && (cp <=? 1114111)
                then Some (cp, rest3) else None
            | _, _, _ => None
            end
        | _ => None
        end
      else None
  end.

(** The characters of a text, each as its code point and the bytes that
    encode it; a byte that begins no character stands alone, without a
    code point. *)
Fixpoint characters (fuel : nat) (l : list ascii) : list (option Z * list ascii) :=
  match fuel, l with
  | S fuel', b :: rest =>
      match utf8_head l with
      | Some (cp, rest') =>
          (Some cp, firstn (length l - length rest') l) :: characters fuel' rest'
      | None => (None, [b]) :: characters fuel' rest
      end
  | _, _ => []
  end.

(** The characters [str.strip()] removes, those for which [str.isspace]
    holds: tab to carriage return, the four separators 0x1c-0x1f, the
    space, and beyond ASCII U+0085, U+00A0, U+1680, U+2000-U+200A, U+2028,
    U+2029, U+202F, U+205F and U+3000. *)
Definition is_space (cp : Z) : bool :=
  ((9 <=? cp) && (cp <=? 13)) || ((28 <=? cp) && (cp <=? 32))
  || (cp =? 133) || (cp =? 160) || (cp =? 5760)
  || ((8192 <=? cp) && (cp <=? 8202))
  || (cp =? 8232) || (cp =? 8233) || (cp =? 8239) || (cp =? 8287)
  || (cp =? 12288).

Fixpoint lstrip (cs : list (option Z * list ascii)) : list (option Z * list ascii) :=
  match cs with
  | (Some cp, bytes) :: rest => if is_space cp then lstrip rest else cs
  | _ => cs
  end.

Definition rstrip (cs : list (option Z * list ascii)) : list (option Z * list ascii) :=
  rev (lstrip (rev cs)).

Definition strip (s : string) : string :=
  let cs := characters (String.length s) (list_ascii_of_string s) in
  string_of_list_ascii (concat (List.map snd (rstrip (lstrip cs)))).

(** Truthiness of a string, the same in Python and JavaScript. *)
Definition str_truthy (s : string) : bool :=
  match s with EmptyString => false | _ => true end.

(** Decimal digits. *)
Definition digit_val (c : ascii) : option Z :=
  let n := nat_of_ascii c in
  if ((48 <=? n) && (n <=? 57))%nat then Some (Z.of_nat n - 48) else None.

Definition num2 (a b : ascii) : option Z :=
  match digit_val a, digit_val b with
  | Some x, Some y => Some (10 * x + y)
  | _, _ => None
  end.

Definition num4 (a b c d : ascii) : option Z :=
  match num2 a b, num2 c d with
  | Some x, Some y => Some (100 * x + y)
  | _, _ => None
  end.

(* ===================================================================== *)
(** * Calendar                                                            *)
(* ===================================================================== *)

Definition is_leap (y : Z) : bool :=
  ((y mod 4 =? 0) && negb (y mod 100 =? 0)) || (y mod 400 =? 0).

Definition days_in_month (y m : Z) : Z :=
  match m with
  | 1 | 3 | 5 | 7 | 8 | 10 | 12 => 31
  | 4 | 6 | 9 | 11 => 30
  | 2 => if is_leap y then 29 else 28
  | _ => 0
  end.

(** Days of the year that lie before the first of month [m]. *)
Definition days_before_month (y m : Z) : Z :=
  let l := if is_leap y then 1 else 0 in
  match m with
  | 1 => 0
  | 2 => 31
  | 3 => 59 + l
  | 4 => 90 + l
  | 5 => 120 + l
  | 6 => 151 + l
  | 7 => 181 + l
  | 8 => 212 + l
  | 9 => 243 + l
  | 10 => 273 + l
  | 11 => 304 + l
  | _ => 334 + l
  end.

(** A calendar date: year, month (1-12), day of the month. *)
Record civil := Civil { c_year : Z; c_month : Z; c_day : Z }.

Definition valid_civil (c : civil) : bool :=
  (1 <=? c_month c) && (c_month c <=? 12)
  && (1 <=? c_day c) && (c_day c <=? days_in_month (c_year c) (c_month c)).

(** Order of the calendar: by year, then month, then day. *)
Definition civil_le (a b : civil) : bool :=
  (c_year a <? c_year b)
  || (c_year a =? c_year b)
     && ((c_month a <? c_month b)
         || (c_month a =? c_month b) && (c_day a <=? c_day b)).

(** A date written [YYYY-MM-DD]: four digits, two digits, two digits, and
    a day that exists in that month. *)
Definition civil_of_string (s : string) : option civil :=
  match list_ascii_of_string s with
  | [y1; y2; y3; y4; h1; m1; m2; h2; d1; d2] =>
      if Ascii.eqb h1 "-" && Ascii.eqb h2 "-" then
        match num4 y1 y2 y3 y4, num2 m1 m2, num2 d1 d2 with
        | Some y, Some m, Some d =>
            if valid_civil (Civil y m d) then Some (Civil y m d) else None
        | _, _, _ => None
        end
      else None
  | _ => None
  end.

(* ===================================================================== *)
(** * The in-page hook: JSON values and JavaScript dates                  *)
(* ===================================================================== *)

(** A parsed JSON document, as [res.json()] and [JSON.parse] produce it and
    as Python's [json.load] does.  Numbers are kept as integers. *)
Inductive JSON :=
  | JNull
  | JBool (b : bool)
  | JNum (n : Z)
  | JStr (s : string)
  | JArr (xs : list JSON)
  | JObj (fields : list (string * JSON)).

(** A JavaScript value read out of a JSON document: [None] is [undefined]. *)
Definition JSValue := option JSON.

Fixpoint assoc (k : string) (fields : list (string * JSON)) : option JSON :=
  match fields with
  | [] => None
  | (k', v) :: rest => if String.eqb k k' then Some v else assoc k rest
  end.

(** [j?.k] for the two property names the hook reads, [ScheduleDays] and
    [Date]: neither is a property of a primitive or of an array, and the
    optional chain turns [null] into [undefined]. *)
Definition get_member (k : string) (j : JSON) : JSValue :=
  match j with
  | JObj fields => assoc k fields
  | _ => None
  end.

(** [ToString], which [v + 'T00:00:00'] applies to its left operand. *)
Fixpoint js_to_string (j : JSON) : string :=
  match j with
  | JNull => "null"
  | JBool true => "true"
  | JBool false => "false"
  | JNum n => pretty n
  | JStr s => s
  | JArr xs =>
      (fix join (l : list JSON) : string :=
         match l with
         | [] => ""
         | x :: rest =>
             let e := match x with JNull => "" | _ => js_to_string x end in
             match rest with
             | [] => e
             | _ => e +:+ "," +:+ join rest
             end
         end) xs
  | JObj _ => "[object Object]"
  end.

Definition js_concat (v : JSValue) (suffix : string) : string :=
  match v with
  | None => "undefined" +:+ suffix
  | Some j => js_to_string j +:+ suffix
  end.

(** Time values, after ECMA-262: days since the epoch and milliseconds. *)
Definition DayFromYear (y : Z) : Z :=
  365 * (y - 1970) + (y - 1969) / 4 - (y - 1901) / 100 + (y - 1601) / 400.

Definition MakeDay (y m d : Z) : Z :=
  DayFromYear y + days_before_month y m + (d - 1).

Definition MakeTime (h mi s : Z) : Z := h * 3600000 + mi * 60000 + s * 1000.

Definition MakeDate (day time : Z) : Z := day * 86400000 + time.

(** A time value outside 8.64e15 milliseconds around the epoch is no
    time value. *)
Definition TimeClip (t : Z) : option Z :=
  if Z.abs t <=? 8640000000000000 then Some t else None.

(** The parts of a date-time string, as V8 reads them.  The year is four
    digits, or a sign and six digits, year zero never with a minus. *)
Definition iso_year (l : list ascii) : option (Z * list ascii) :=
  match l with
  | [] => None
  | s :: signed =>
      if Ascii.eqb s "+" || Ascii.eqb s "-" then
        match signed with
        | y1 :: y2 :: y3 :: y4 :: y5 :: y6 :: rest =>
            match num4 y1 y2 y3 y4, num2 y5 y6 with
            | Some hi, Some lo =>
                let y := 100 * hi + lo in
                if Ascii.eqb s "-" then (if y =? 0 then None else Some (- y, rest))
                else Some (y, rest)
            | _, _ => None
            end
        | _ => None
        end
      else
        match l with
        | y1 :: y2 :: y3 :: y4 :: rest =>
            match num4 y1 y2 y3 y4 with
            | Some y => Some (y, rest)
            | None => None
            end
        | _ => None
        end
  end.

(** After the year: [-MM] and [-DD], each of which may be missing and
    then counts as 1, up to the [T] that begins the time. *)
Definition iso_month_day (l : list ascii) : option (Z * Z * list ascii) :=
  match l with
  | t1 :: rest1 =>
      if Ascii.eqb t1 "T" then Some (1, 1, rest1)
      else if Ascii.eqb t1 "-" then
        match rest1 with
        | m1 :: m2 :: t2 :: rest2 =>
            match num2 m1 m2 with
            | Some m =>
                if Ascii.eqb t2 "T" then Some (m, 1, rest2)
                else if Ascii.eqb t2 "-" then
                  match rest2 with
                  | d1 :: d2 :: t3 :: rest3 =>
                      match num2 d1 d2 with
                      | Some d => if Ascii.eqb t3 "T" then Some (m, d, rest3) else None
                      | None => None
                      end
                  | _ => None
                  end
                else None
            | None => None
            end
        | _ => None
        end
      else None
  | [] => None
  end.

(** The time [HH:mm:ss]. *)
Definition iso_time (l : list ascii) : option (Z * Z * Z) :=
  match l with
  | [H1; H2; c1; M1; M2; c2; S1; S2] =>
      if Ascii.eqb c1 ":" && Ascii.eqb c2 ":" then
        match num2 H1 H2, num2 M1 M2, num2 S1 S2 with
        | Some h, Some mi, Some sec => Some (h, mi, sec)
        | _, _, _ => None
        end
      else None
  | _ => None
  end.

(** [new Date(s)] for the strings the hook builds, a text followed by
    [T00:00:00] or [T23:59:59].  Such a string is a date-time of
    ECMAScript's format when the text is one of its date forms: a year, a
    year and a month, or a year, a month and a day, the year written with
    four digits or with a sign and six.  It then denotes local time, so
    the time value is shifted by the zone offset [tza] (milliseconds).
    [None] is the Invalid Date, whose time value is NaN.  As in V8, the
    engine of the browser the driver launches, the day may run up to 31
    in any month and overflows into the next one, and the hour 24 stands
    only with [00:00].  A text of any other form goes to V8's parser of
    legacy dates, which gives up where a [T] follows a number, as it does
    after every text [strptime] accepts, and where a number follows an
    unknown word, as in [undefinedT00:00:00] and [nullT00:00:00].  The
    legacy forms that V8 does read, a month by name and the like, are
    left out: such a text is taken as an Invalid Date here, and the
    statements below that need a date to be invalid need it for texts of
    the two kinds named only. *)
Definition Date_parse (tza : Z) (s : string) : option Z :=
  match iso_year (list_ascii_of_string s) with
  | Some (y, rest) =>
      match iso_month_day rest with
      | Some (m, d, time) =>
          match iso_time time with
          | Some (h, mi, sec) =>
              if (1 <=? m) && (m <=? 12) && (1 <=? d) && (d <=? 31)
                 && (mi <=? 59) && (sec <=? 59)
                 && ((h <=? 23) || ((h =? 24) && (mi =? 0) && (sec =? 0)))
              then TimeClip (MakeDate (MakeDay y m d) (MakeTime h mi sec) - tza)
              else None
          | None => None
          end
      | None => None
      end
  | None => None
  end.

(** [a >= b] and [a <= b] on two Dates: a comparison with NaN is false. *)
Definition date_ge (a b : option Z) : bool :=
  match a, b with Some x, Some y => y <=? x | _, _ => false end.

Definition date_le (a b : option Z) : bool :=
  match a, b with Some x, Some y => x <=? y | _, _ => false end.

(* ===================================================================== *)
(** * The in-page hook: analyseAvailability                               *)
(* ===================================================================== *)

Definition TARGET_SUBSTR : string :=
  "/custom-actions/?route=/api/v1/schedule-group/get-family-consular-schedule-days".

(** The four constants [inject_fetch_hook] formats into the script.  They
    are the values the JavaScript literals denote, which are the Python
    strings whenever those hold no quote, backslash or line break. *)
Record HookConfig := {
  js_NOTIFY_URL : string;
  js_REFRESH_URL : string;
  START_DATE : string;
  END_DATE : string
}.

(** What the hook does that the outside can see. *)
Inductive Effect :=
  | ConsoleLog (msg : string)
  | ConsoleError (msg : string)
  | Notify (url : string)
  | ScheduleRefresh (delay_ms : Z) (url : string).

(** [Array.isArray(json?.ScheduleDays)], with the array when it is one. *)
Definition ScheduleDays (json : JSON) : option (list JSON) :=
  match get_member "ScheduleDays" json with
  | Some (JArr days) => Some days
  | _ => None
  end.

(** The callback of [json.ScheduleDays.filter]: reading [d.Date] of [null]
    throws, and the callback catches that and answers [false]. *)
Definition in_range (tza : Z) (s e : option Z) (d : JSON) : bool :=
  match d with
  | JNull => false
  | _ =>
      let dt := Date_parse tza (js_concat (get_member "Date" d) "T00:00:00") in
      date_ge dt s && date_le dt e
  end.

Definition matches (tza : Z) (cfg : HookConfig) (days : list JSON) : list JSON :=
  let s := Date_parse tza (START_DATE cfg +:+ "T00:00:00") in
  let e := Date_parse tza (END_DATE cfg +:+ "T23:59:59") in
  List.filter (in_range tza s e) days.

(** The test that selects the filtering branch:
    [START_DATE && END_DATE && Array.isArray(json?.ScheduleDays)]. *)
Definition filtering (cfg : HookConfig) (json : JSON) : bool :=
  str_truthy (START_DATE cfg) && str_truthy (END_DATE cfg)
  && match ScheduleDays json with Some _ => true | None => false end.

(** The value of [hasSlots] when the [try] block of [analyseAvailability]
    is left. *)
Definition hasSlots (tza : Z) (cfg : HookConfig) (json : JSON) : bool :=
  if str_truthy (START_DATE cfg) && str_truthy (END_DATE cfg) then
    match ScheduleDays json with
    | Some days => (0 <? length (matches tza cfg days))%nat
    | None => false
    end
  else
    match ScheduleDays json with
    | Some days => (0 <? length days)%nat
    | None => false
    end.

(** The notification goes out through the page's [fetch]; its URL is the
    notification URL, which does not contain [TARGET_SUBSTR], so no hook
    acts on its response. *)
Definition analyseAvailability (tza : Z) (cfg : HookConfig) (json : JSON)
  : list Effect :=
  [ConsoleLog "[HOOK] ScheduleDays payload:"]
  ++ (if filtering cfg json
      then [ConsoleLog "[HOOK] Matching dates in range:"] else [])
  ++ (if hasSlots tza cfg json
      then [ConsoleLog "[HOOK] Appointment slots AVAILABLE! Notifying";
            Notify (js_NOTIFY_URL cfg)]
      else [ConsoleLog "[HOOK] No appointment slots at this time."])
  ++ [ScheduleRefresh 300000 (js_REFRESH_URL cfg)].

(* ===================================================================== *)
(** * The in-page hook: wrapping fetch and XMLHttpRequest                 *)
(* ===================================================================== *)

(** The function stored in [window.fetch]: the browser's own, or a wrapper
    that closes over the constants of its script and over the function it
    replaced. *)
Inductive fetch_fn :=
  | native_fetch
  | hooked_fetch (cfg : HookConfig) (origFetch : fetch_fn).

(** [XMLHttpRequest.prototype.open] and [.send], likewise. *)
Inductive open_fn :=
  | native_open
  | hooked_open (origOpen : open_fn).

Inductive send_fn :=
  | native_send
  | hooked_send (cfg : HookConfig) (origSend : send_fn).

(** The global object of one page context. *)
Record Window := {
  APPT_HOOK_INSTALLED : bool;
  w_fetch : fetch_fn;
  w_open : open_fn;
  w_send : send_fn
}.

(** The context a navigation creates: the flag is undefined. *)
Definition fresh_window : Window :=
  {| APPT_HOOK_INSTALLED := false;
     w_fetch := native_fetch;
     w_open := native_open;
     w_send := native_send |}.

(** Evaluating [hook_js] in a page context. *)
Definition hook_js (cfg : HookConfig) (w : Window) : Window :=
  if APPT_HOOK_INSTALLED w then w
  else {| APPT_HOOK_INSTALLED := true;
          w_fetch := hooked_fetch cfg (w_fetch w);
          w_open := hooked_open (w_open w);
          w_send := hooked_send cfg (w_send w) |}.

(** A call of [fetch(url)] that is answered; [body] is what [res.json()]
    settles to, [None] when the body is not JSON and the promise rejects.
    The wrapper awaits the wrapped function first. *)
Fixpoint run_fetch (tza : Z) (f : fetch_fn) (url : string) (body : option JSON)
  : list Effect :=
  match f with
  | native_fetch => []
  | hooked_fetch cfg origFetch =>
      run_fetch tza origFetch url body
      ++ (if includes TARGET_SUBSTR url then
            ConsoleLog "[HOOK] Captured fetch" ::
            match body with
            | Some json => analyseAvailability tza cfg json
            | None => []
            end
          else [])
  end.

(** One request object: the URL the [open] wrapper noted, and the [load]
    listeners the [send] wrappers added, each with its script's constants. *)
Record XHR := {
  hooked_url : option string;
  load_listeners : list HookConfig
}.

Definition new_XHR : XHR := {| hooked_url := None; load_listeners := [] |}.

Fixpoint run_open (f : open_fn) (url : string) (x : XHR) : XHR :=
  match f with
  | native_open => x
  | hooked_open origOpen =>
      run_open origOpen url
        {| hooked_url := Some url; load_listeners := load_listeners x |}
  end.

Fixpoint run_send (f : send_fn) (x : XHR) : XHR :=
  match f with
  | native_send => x
  | hooked_send cfg origSend =>
      run_send origSend
        {| hooked_url := hooked_url x;
           load_listeners := load_listeners x ++ [cfg] |}
  end.

(** One [load] listener; [body] is [JSON.parse(this.responseText)], [None]
    when it throws. *)
Definition on_load (tza : Z) (x : XHR) (body : option JSON) (cfg : HookConfig)
  : list Effect :=
  let url := match hooked_url x with Some u => u | None => "" end in
  if includes TARGET_SUBSTR url then
    ConsoleLog "[HOOK] Captured XHR" ::
    match body with
    | Some json => analyseAvailability tza cfg json
    | None => [ConsoleError "[HOOK] Could not parse XHR JSON"]
    end
  else [].

(** The [load] event of a request: the listeners run in the order they
    were added. *)
Definition fire_load (tza : Z) (x : XHR) (body : option JSON) : list Effect :=
  concat (List.map (on_load tza x body) (load_listeners x)).

(** One request made on the request object [x], through the page's
    current [open] and [send].  A request object may serve several
    requests, one after the other; the listeners it has collected stay on
    it. *)
Definition xhr_request (w : Window) (url : string) (x : XHR) : XHR :=
  run_send (w_send w) (run_open (w_open w) url x).

(** A request object after the requests for [urls], made on it in this
    order. *)
Definition reuse (w : Window) (urls : list string) (x : XHR) : XHR :=
  fold_left (fun x url => xhr_request w url x) urls x.

(** A whole request on a new request object, up to its [load] event. *)
Definition run_xhr (tza : Z) (w : Window) (url : string) (body : option JSON)
  : list Effect :=
  fire_load tza (xhr_request w url new_XHR) body.

(** The hook instances a context holds, counted on [fetch]. *)
Fixpoint fetch_hooks (f : fetch_fn) : nat :=
  match f with
  | native_fetch => 0
  | hooked_fetch _ origFetch => S (fetch_hooks origFetch)
  end.

Fixpoint send_hooks (f : send_fn) : nat :=
  match f with
  | native_send => 0
  | hooked_send _ origSend => S (send_hooks origSend)
  end.

(** The notification requests among some effects. *)
Definition notifications (es : list Effect) : nat :=
  length (List.filter (fun e => match e with Notify _ => true | _ => false end) es).

(* ===================================================================== *)
(** * The driver: exceptions, the outside world, the monad                *)
(* ===================================================================== *)

(** Python exceptions, as far as the handlers of the program tell them
    apart: [except AttributeError], [except Exception], and what only a
    bare [except:] catches. *)
Inductive exn :=
  | AttributeError
  | OtherException (name : string)
  | KeyboardInterrupt.

Definition is_Exception (e : exn) : bool :=
  match e with KeyboardInterrupt => false | _ => true end.

Definition is_AttributeError (e : exn) : bool :=
  match e with AttributeError => true | _ => false end.

Inductive Res (A : Type) :=
  | Ok (a : A)
  | Raise (e : exn).
Arguments Ok {A} a.
Arguments Raise {A} e.

(** An element handle, named by the selector that found it. *)
Definition Element := string.

(** [slot_prefs.json]: absent, present but not loadable, or holding an
    object with string fields, which is what [save_slot_prefs] writes. *)
Inductive PrefsFile :=
  | NoFile
  | Unreadable
  | Stored (prefs : gmap string string).

(** Calls to the outside, in the order the driver makes them.  [SolveCall]
    is no call to the outside: it marks the entry into
    [_solve_captcha_with_openai], so that calls of the solver can be
    counted apart from the requests each of them sends. *)
Inductive Event :=
  | Print (msg : string)
  | Input (prompt : string)
  | Sleep (seconds : Z)
  | StartBrowser
  | BrowserGet (url : string)
  | AwaitPage
  | BringToFront
  | ReadUrl
  | PageSelect (selector : string)
  | PageEvaluate (script : string)
  | InjectHook (cfg : HookConfig)
  | ElementApply (el : Element) (js : string)
  | SendKeys (el : Element) (text : string)
  | Click (el : Element)
  | SaveScreenshot (el : Element)
  | ReadFile
  | Unlink
  | WriteDebugImage
  | WritePrefs
  | SolveCall (data_url : string)
  | OpenAIRequest (data_url : string)
  | CreateTask.

(** The outside world.  Every answer may depend on the moment it is asked
    for, the number of calls made before it. *)
Record Env := {
  (* credential.json and the process environment, read at import *)
  USERNAME : option string;
  PASSWORD : option string;
  SECURITY_ANSWERS : gmap string string;
  NOTIFY_URL : string;
  OPENAI_API_KEY : option string;
  (* the interpreter's Unicode database: the value of a character beyond
     ASCII that is a decimal digit, by its code point *)
  unicode_decimal : Z -> option Z;
  (* the console *)
  console_input : nat -> Res string;
  (* the browser driver *)
  uc_start : nat -> Res unit;
  browser_get : nat -> string -> Res unit;
  await_page : nat -> Res unit;
  page_bring_to_front : nat -> Res unit;
  page_url : nat -> Res (option string);
  page_select : nat -> string -> Res (option Element);
  page_evaluate : nat -> string -> Res (option string);
  page_evaluate_hook : nat -> Res unit;
  element_apply : nat -> Element -> string -> Res (option string);
  element_send_keys : nat -> Element -> string -> Res unit;
  element_click : nat -> Element -> Res unit;
  element_save_screenshot : nat -> Element -> Res unit;
  (* the disk: the screenshot read back, base64-encoded *)
  read_screenshot : nat -> Res string;
  os_unlink : nat -> Res unit;
  write_debug_image : nat -> Res unit;
  write_prefs : nat -> Res unit;
  (* the vision service: the stripped text of the first choice *)
  openai_create : nat -> string -> Res string
}.

(** What the process holds between calls: the count of calls made, the
    function attribute [attempt_captcha_solve._attempt_registry] (absent
    until first used), the preference file, and the page's script context. *)
Record State := {
  clock : nat;
  attempt_registry : option (gmap string nat);
  slot_prefs_file : PrefsFile;
  window : Window
}.

Definition initial_state (file : PrefsFile) : State :=
  {| clock := 0%nat;
     attempt_registry := None;
     slot_prefs_file := file;
     window := fresh_window |}.

Record Run (A : Type) := MkRun {
  result : Res A;
  final : State;
  events : list Event
}.
Arguments MkRun {A} result final events.
Arguments result {A} r.
Arguments final {A} r.
Arguments events {A} r.

Definition M (A : Type) := State -> Run A.

Definition ret {A} (a : A) : M A := fun st => MkRun (Ok a) st [].

Definition raise {A} (e : exn) : M A := fun st => MkRun (Raise e) st [].

Definition bind {A B} (m : M A) (k : A -> M B) : M B :=
  fun st =>
    match m st with
    | MkRun (Ok a) st1 evs1 =>
        match k a st1 with
        | MkRun r st2 evs2 => MkRun r st2 (evs1 ++ evs2)
        end
    | MkRun (Raise e) st1 evs1 => MkRun (Raise e) st1 evs1
    end.

Notation "x <- m ;; k" := (bind m (fun x => k))
  (at level 100, m at next level, right associativity).
Notation "m ;;; k" := (bind m (fun _ => k))
  (at level 100, right associativity).

(** [try: m  except <class>: handler]. *)
Definition try_except {A} (m : M A) (caught : exn -> bool) (handler : M A) : M A :=
  fun st =>
    match m st with
    | MkRun (Ok a) st1 evs1 => MkRun (Ok a) st1 evs1
    | MkRun (Raise e) st1 evs1 =>
        if caught e then
          match handler st1 with
          | MkRun r st2 evs2 => MkRun r st2 (evs1 ++ evs2)
          end
        else MkRun (Raise e) st1 evs1
    end.

(** A call that only leaves a mark. *)
Definition emit (ev : Event) : M unit := fun st => MkRun (Ok tt) st [ev].

(** A call the outside answers. *)
Definition ask {A} (ev : Event) (answer : nat -> Res A) : M A :=
  fun st =>
    MkRun (answer (clock st))
      {| clock := S (clock st);
         attempt_registry := attempt_registry st;
         slot_prefs_file := slot_prefs_file st;
         window := window st |}
      [ev].

Definition get_state : M State := fun st => MkRun (Ok st) st [].

Definition set_registry (r : gmap string nat) : M unit :=
  fun st =>
    MkRun (Ok tt)
      {| clock := clock st;
         attempt_registry := Some r;
         slot_prefs_file := slot_prefs_file st;
         window := window st |} [].

Definition set_prefs_file (f : PrefsFile) : M unit :=
  fun st =>
    MkRun (Ok tt)
      {| clock := clock st;
         attempt_registry := attempt_registry st;
         slot_prefs_file := f;
         window := window st |} [].

Definition set_window (w : Window) : M unit :=
  fun st =>
    MkRun (Ok tt)
      {| clock := clock st;
         attempt_registry := attempt_registry st;
         slot_prefs_file := slot_prefs_file st;
         window := w |} [].

Definition print (msg : string) : M unit := emit (Print msg).
Definition sleep (seconds : Z) : M unit := emit (Sleep seconds).

(** [for i in range(start, start + count)] whose body may [return] from
    the enclosing function: [Some a] is that return, [None] goes on to the
    next round.  The loop yields [None] when the range is used up. *)
Fixpoint for_range {A} (count start : nat) (body : nat -> M (option A))
  : M (option A) :=
  match count with
  | O => ret None
  | S count' =>
      r <- body start ;;
      match r with
      | Some a => ret (Some a)
      | None => for_range count' (S start) body
      end
  end.

(** Truthiness of an optional string: [None] and [''] are false. *)
Definition truthy (v : option string) : bool :=
  match v with Some s => str_truthy s | None => false end.

Definition is_some {A} (v : option A) : bool :=
  match v with Some _ => true | None => false end.

(* ===================================================================== *)
(** * The driver: constants, preferences, page inspection                 *)
(* ===================================================================== *)

Definition APPOINTMENT_URL : string :=
  "https://www.usvisascheduling.com/schedule/?reschedule=true".

Definition MAX_RETRIES : nat := 5.
Definition RETRY_DELAY_SECONDS : Z := 2.

(** [\d] of Python's [re] on a [str]: an ASCII digit, or a character that
    the interpreter's Unicode database [decimal] counts among the decimal
    digits (category Nd), with the value [int] gives it; the digit read
    and the text after it. *)
Definition py_digit (decimal : Z -> option Z) (l : list ascii)
  : option (Z * list ascii) :=
  match l with
  | [] => None
  | c :: rest =>
      match digit_val c with
      | Some x => Some (x, rest)
      | None =>
          match utf8_head l with
          | Some (cp, rest') =>
              if cp <? 128 then None
              else
                match decimal cp with
                | Some x => if (0 <=? x) && (x <=? 9) then Some (x, rest') else None
                | None => None
                end
          | None => None
          end
      end
  end.

(** [datetime.datetime.strptime(s, "%Y-%m-%d")].  The directives match
    [\d\d\d\d], then [1[0-2]|0[1-9]|[1-9]], then
    [3[01]|[12]\d|0[1-9]|[1-9]| [1-9]]; the whole string must be used up,
    the year must be at least 1 and the day must exist.  [None] is the
    [ValueError]. *)
Definition strptime_year (decimal : Z -> option Z) (l : list ascii)
  : option (Z * list ascii) :=
  match py_digit decimal l with
  | Some (a, l1) =>
      match py_digit decimal l1 with
      | Some (b, l2) =>
          match py_digit decimal l2 with
          | Some (c, l3) =>
              match py_digit decimal l3 with
              | Some (d, l4) => Some (1000 * a + 100 * b + 10 * c + d, l4)
              | None => None
              end
          | None => None
          end
      | None => None
      end
  | None => None
  end.

Definition strptime_month (a b : option ascii) : option Z :=
  match a, b with
  | Some a, None =>
      match digit_val a with
      | Some x => if 1 <=? x then Some x else None
      | None => None
      end
  | Some a, Some b =>
      match digit_val a, digit_val b with
      | Some 1, Some y => if y <=? 2 then Some (10 + y) else None
      | Some 0, Some y => if 1 <=? y then Some y else None
      | _, _ => None
      end
  | None, _ => None
  end.

Definition strptime_day (decimal : Z -> option Z) (l : list ascii) : option Z :=
  match l with
  | [] => None
  | [a] =>
      match digit_val a with
      | Some x => if 1 <=? x then Some x else None
      | None => None
      end
  | a :: rest =>
      match digit_val a with
      | Some 3 =>
          match rest with
          | [b] =>
              match digit_val b with
              | Some y => if y <=? 1 then Some (30 + y) else None
              | None => None
              end
          | _ => None
          end
      | Some 1 =>
          match py_digit decimal rest with
          | Some (y, []) => Some (10 + y)
          | _ => None
          end
      | Some 2 =>
          match py_digit decimal rest with
          | Some (y, []) => Some (20 + y)
          | _ => None
          end
      | Some 0 =>
          match rest with
          | [b] =>
              match digit_val b with
              | Some y => if 1 <=? y then Some y else None
              | None => None
              end
          | _ => None
          end
      | Some _ => None
      | None =>
          match rest with
          | [b] =>
              match digit_val b with
              | Some y => if Ascii.eqb a " " && (1 <=? y) then Some y else None
              | None => None
              end
          | _ => None
          end
      end
  end.

Definition strptime_Ymd (decimal : Z -> option Z) (s : string) : option civil :=
  match strptime_year decimal (list_ascii_of_string s) with
  | Some (y, h1 :: rest) =>
      if Ascii.eqb h1 "-" then
        let finish (m : option Z) (tail : list ascii) :=
          match m, strptime_day decimal tail with
          | Some m, Some d =>
              if (1 <=? y) && valid_civil (Civil y m d)
              then Some (Civil y m d) else None
          | _, _ => None
          end in
        match rest with
        | a :: h2 :: tail1 =>
            if Ascii.eqb h2 "-" then finish (strptime_month (Some a) None) tail1
            else
              match tail1 with
              | h3 :: tail2 =>
                  if Ascii.eqb h3 "-"
                  then finish (strptime_month (Some a) (Some h2)) tail2
                  else None
              | [] => None
              end
        | _ => None
        end
      else None
  | _ => None
  end.

(** The inner function [valid_date] of [main]. *)
Definition valid_date (decimal : Z -> option Z) (s : string) : bool :=
  if negb (str_truthy s) then true
  else match strptime_Ymd decimal s with Some _ => true | None => false end.

Section Driver.

Variable env : Env.

Definition load_slot_prefs : M (option (gmap string string)) :=
  st <- get_state ;;
  match slot_prefs_file st with
  | NoFile => ret None
  | Unreadable => print "[WARN] Could not read slot prefs file" ;;; ret None
  | Stored data => ret (Some data)
  end.

Definition save_slot_prefs (prefs : gmap string string) : M unit :=
  try_except
    (ask WritePrefs (write_prefs env) ;;;
     set_prefs_file (Stored prefs) ;;;
     print "[INFO] Saved slot preferences")
    is_Exception
    (print "[WARN] Could not save slot prefs").

Definition start_browser : M unit :=
  ask StartBrowser (uc_start env).

Definition is_login_required : M bool :=
  current_url <-
    try_except (ask ReadUrl (page_url env)) is_AttributeError
      (ask (PageEvaluate "location.href") (fun t => page_evaluate env t "location.href")) ;;
  if truthy current_url
     && match current_url with Some u => includes "b2clogin.com" u | None => false end
  then ret true
  else
    pwd_field <- ask (PageSelect "input[type=password]")
                   (fun t => page_select env t "input[type=password]") ;;
    if is_some pwd_field then ret true else ret false.

Definition body_style_script : string :=
  "document.body && document.body.getAttribute('style')".

Definition is_waiting_room : M bool :=
  try_except
    (style_attr <- ask (PageEvaluate body_style_script)
                     (fun t => page_evaluate env t body_style_script) ;;
     if truthy style_attr
        && match style_attr with
           | Some s => includes "waiting_room_background_en-US.png" s
           | None => false
           end
     then ret true else ret false)
    is_Exception
    (ret false).

(** The constants the Python side formats into the script. *)
Definition hook_config (prefs : option (gmap string string)) : HookConfig :=
  let prefs := match prefs with Some p => p | None => ∅ end in
  {| js_NOTIFY_URL := NOTIFY_URL env;
     js_REFRESH_URL := APPOINTMENT_URL;
     START_DATE := default "" (prefs !! "start_date");
     END_DATE := default "" (prefs !! "end_date") |}.

(** When [page.evaluate(hook_js)] succeeds the script has run in the
    page's current context. *)
Definition inject_fetch_hook : M unit :=
  prefs <- load_slot_prefs ;;
  let cfg := hook_config prefs in
  ask (InjectHook cfg) (page_evaluate_hook env) ;;;
  st <- get_state ;;
  set_window (hook_js cfg (window st)).

(** [_ensure_fetch_hook], cut after [rounds] turns of its endless loop. *)
Fixpoint _ensure_fetch_hook (rounds : nat) (interval : Z) : M unit :=
  match rounds with
  | O => ret tt
  | S rounds' =>
      try_except inject_fetch_hook is_Exception
        (print "[WARN] Fetch-hook injection attempt failed") ;;;
      sleep interval ;;;
      _ensure_fetch_hook rounds' interval
  end.

(* ===================================================================== *)
(** * The driver: captcha extraction and solving                          *)
(* ===================================================================== *)

(** The script that reads the image's [src] attribute. *)
Definition get_src_js : string := "(el) => el.getAttribute('src')".

(** How the [try] block of one round of [_extract_captcha_data_url] ends:
    by [continue], by [return data_url], or in the [except] clause, after
    which the round goes on below the [try].  The second test of
    [captcha_img], before the screenshot, cannot fail where it stands and
    is left out; saving the screenshot, reading it back and encoding it
    are three calls, the last two taken together. *)
Inductive TryEnd :=
  | Continue
  | Return (data_url : string)
  | Handled.

Definition extract_try (attempt : nat) : M TryEnd :=
  captcha_img <- ask (PageSelect "#captchaImage")
                   (fun t => page_select env t "#captchaImage") ;;
  match captcha_img with
  | None =>
      print "[INFO] Captcha image not found on attempt" ;;;
      sleep RETRY_DELAY_SECONDS ;;;
      ret Continue
  | Some img =>
      src <- ask (ElementApply img get_src_js)
               (fun t => element_apply env t img get_src_js) ;;
      if negb (truthy src)
         || match src with
            | Some s => startswith "data:image/gif" s
            | None => false
            end
      then
        print "[INFO] Captcha image not fully loaded on attempt" ;;;
        sleep RETRY_DELAY_SECONDS ;;;
        ret Continue
      else
        ask (SaveScreenshot img) (fun t => element_save_screenshot env t img) ;;;
        b64_data <- ask ReadFile (read_screenshot env) ;;
        try_except (ask Unlink (os_unlink env)) (fun _ => true) (ret tt) ;;;
        print "[INFO] Successfully extracted captcha image." ;;;
        ret (Return ("data:image/png;base64," +:+ b64_data))
  end.

Definition extract_round (attempt : nat) : M (option string) :=
  r <- try_except (extract_try attempt) is_Exception
         (print "[WARN] Could not retrieve captcha image on attempt" ;;;
          ret Handled) ;;
  match r with
  | Return data_url => ret (Some data_url)
  | Continue => ret None
  | Handled =>
      (if (attempt <? MAX_RETRIES - 1)%nat
       then sleep RETRY_DELAY_SECONDS else ret tt) ;;;
      ret None
  end.

Definition _extract_captcha_data_url : M (option string) :=
  r <- for_range MAX_RETRIES 0 extract_round ;;
  match r with
  | Some data_url => ret (Some data_url)
  | None =>
      print "[ERROR] Failed to retrieve captcha image after multiple retries." ;;;
      ret None
  end.

(** One round of the loop of [_solve_captcha_with_openai]; the function
    returns [captcha_text] or [None], so a round that returns yields
    [Some] of such a value. *)
Definition solve_round (data_url : string) (attempt : nat)
  : M (option (option string)) :=
  try_except
    (captcha_text <- ask (OpenAIRequest data_url)
                       (fun t => openai_create env t data_url) ;;
     print "[INFO] Captcha solved" ;;;
     ret (Some (Some captcha_text)))
    is_Exception
    (print "[WARN] OpenAI captcha solve attempt failed" ;;;
     if (attempt <? MAX_RETRIES - 1)%nat then
       sleep (RETRY_DELAY_SECONDS * (Z.of_nat attempt + 1)) ;;;
       ret None
     else
       print "[ERROR] Reached maximum retries for captcha solve." ;;;
       ret (Some None)).

Definition _solve_captcha_with_openai (data_url : string) : M (option string) :=
  emit (SolveCall data_url) ;;;
  if negb (truthy (OPENAI_API_KEY env)) then
    print "[ERROR] OPENAI_API_KEY not set in environment; cannot solve captcha." ;;;
    ret None
  else
    r <- for_range MAX_RETRIES 0 (solve_round data_url) ;;
    match r with
    | Some answer => ret answer
    | None => ret None
    end.

Definition attempt_captcha_solve : M bool :=
  data_url <- _extract_captcha_data_url ;;
  if negb (truthy data_url) then ret false
  else
    let data_url := default "" data_url in
    debug_saved <-
      try_except
        (ask WriteDebugImage (write_debug_image env) ;;;
         print "[DEBUG] Captcha image saved" ;;;
         ret true)
        is_Exception
        (print "[WARN] Could not save captcha debug image" ;;; ret false) ;;
    st <- get_state ;;
    (match attempt_registry st with
     | Some _ => ret tt
     | None => set_registry ∅
     end) ;;;
    st <- get_state ;;
    let registry := default ∅ (attempt_registry st) in
    let attempts := default 0%nat (registry !! data_url) in
    if (MAX_RETRIES <=? attempts)%nat then
      print "[INFO] Max attempts reached for this captcha image, skipping further solves." ;;;
      ret false
    else
      set_registry (<[data_url := S attempts]> registry) ;;;
      captcha_text <- _solve_captcha_with_openai data_url ;;
      if negb (truthy captcha_text) then ret false
      else
        let captcha_text := default "" captcha_text in
        resp_input <- ask (PageSelect "#extension_atlasCaptchaResponse")
                        (fun t => page_select env t "#extension_atlasCaptchaResponse") ;;
        match resp_input with
        | None => print "[WARN] Captcha response input not found." ;;; ret false
        | Some resp =>
            ask (SendKeys resp captcha_text)
              (fun t => element_send_keys env t resp captcha_text) ;;;
            print "[INFO] Captcha response filled." ;;;
            try_except
              (if debug_saved : bool then
                 ask Unlink (os_unlink env) ;;;
                 print "[DEBUG] Removed captcha debug image"
               else ret tt)
              is_Exception (ret tt) ;;;
            ret true
        end.

(* ===================================================================== *)
(** * The driver: login and the top-level flow                            *)
(* ===================================================================== *)

Definition _wait_for_element (selector : string) (max_attempts : nat) (delay : Z)
  : M (option Element) :=
  for_range max_attempts 0
    (fun _ =>
       el <- ask (PageSelect selector) (fun t => page_select env t selector) ;;
       match el with
       | Some e => ret (Some e)
       | None => sleep delay ;;; ret None
       end).

Definition clear_js : string := "(el) => { el.value = ''; }".

(** [try: await el.apply(...)  except Exception: pass]. *)
Definition clear_value (el : Element) : M unit :=
  try_except
    (ask (ElementApply el clear_js) (fun t => element_apply env t el clear_js) ;;;
     ret tt)
    is_Exception (ret tt).

(** One pass over the three selectors, collecting those that are shown. *)
Fixpoint collect_kba (selectors : list string) : M (list (string * Element)) :=
  match selectors with
  | [] => ret []
  | selector :: rest =>
      el <- ask (PageSelect selector) (fun t => page_select env t selector) ;;
      found <- collect_kba rest ;;
      match el with
      | Some e => ret ((selector, e) :: found)
      | None => ret found
      end
  end.

Fixpoint fill_answers (kba_inputs : list (string * Element)) : M unit :=
  match kba_inputs with
  | [] => ret tt
  | (selector, el) :: rest =>
      (match SECURITY_ANSWERS env !! selector with
       | Some answer =>
           if str_truthy answer then
             clear_value el ;;;
             ask (SendKeys el answer) (fun t => element_send_keys env t el answer)
           else print "[WARN] No configured answer; leaving blank."
       | None => print "[WARN] No configured answer; leaving blank."
       end) ;;;
      fill_answers rest
  end.

Definition perform_login : M bool :=
  if negb (truthy (USERNAME env)) || negb (truthy (PASSWORD env)) then
    print "[ERROR] Username or password not configured; cannot perform automated login." ;;;
    ret false
  else
    print "[INFO] Filling username & password on first login screen" ;;;
    username_input <- _wait_for_element "#signInName" 10 1 ;;
    password_input <- _wait_for_element "#password" 10 1 ;;
    continue_btn <- _wait_for_element "#continue" 10 1 ;;
    match username_input, password_input, continue_btn with
    | Some username_input, Some password_input, Some continue_btn =>
        clear_value username_input ;;;
        clear_value password_input ;;;
        ask (SendKeys username_input (default "" (USERNAME env)))
          (fun t => element_send_keys env t username_input (default "" (USERNAME env))) ;;;
        ask (SendKeys password_input (default "" (PASSWORD env)))
          (fun t => element_send_keys env t password_input (default "" (PASSWORD env))) ;;;
        attempt_captcha_solve ;;;
        ask (Click continue_btn) (fun t => element_click env t continue_btn) ;;;
        print "[INFO] Waiting for security question screen" ;;;
        kba <- for_range 30 0
                 (fun _ =>
                    kba_inputs <- collect_kba
                      ["#kba1_response"; "#kba2_response"; "#kba3_response"] ;;
                    if (2 <=? length kba_inputs)%nat then ret (Some kba_inputs)
                    else sleep 1 ;;; ret None) ;;
        match kba with
        | None =>
            print "[ERROR] Timed out waiting for the two security question inputs to appear." ;;;
            ret false
        | Some kba_inputs =>
            print "[INFO] Filling security question answers" ;;;
            fill_answers kba_inputs ;;;
            continue_btn2 <- _wait_for_element "#continue" 10 1 ;;
            match continue_btn2 with
            | None =>
                print "[WARN] Could not locate continue button on security question screen." ;;;
                ret false
            | Some continue_btn2 =>
                ask (Click continue_btn2) (fun t => element_click env t continue_btn2) ;;;
                print "[INFO] Waiting for navigation back to scheduling site" ;;;
                done <- for_range 30 0
                          (fun _ =>
                             current_url <-
                               try_except
                                 (ask (PageEvaluate "location.href")
                                    (fun t => page_evaluate env t "location.href"))
                                 is_AttributeError
                                 (ask ReadUrl (page_url env)) ;;
                             if truthy current_url
                                && includes "usvisascheduling.com" (default "" current_url)
                                && negb (includes "b2clogin.com" (default "" current_url))
                             then
                               print "[INFO] Automated login appears successful." ;;;
                               ret (Some true)
                             else sleep 1 ;;; ret None) ;;
                match done with
                | Some b => ret b
                | None =>
                    print "[ERROR] Automated login did not complete within expected time." ;;;
                    ret false
                end
            end
        end
    | _, _, _ =>
        print "[WARN] Could not locate essential elements on the first login screen." ;;;
        ret false
    end.

(** The start of [main]: make sure preferences are on disk, asking once. *)
Definition main_slot_prefs : M unit :=
  prefs <- load_slot_prefs ;;
  if match prefs with
     | Some p => bool_decide (p = ∅)
     | None => true
     end
  then
    print "Please enter desired slot date range for notifications." ;;;
    print "Use YYYY-MM-DD format. Leave blank to notify for any available slot." ;;;
    start_raw <- ask (Input "Start date (YYYY-MM-DD): ") (console_input env) ;;
    end_raw <- ask (Input "End date   (YYYY-MM-DD): ") (console_input env) ;;
    let start := strip start_raw in
    let end_ := strip end_raw in
    if negb (valid_date (unicode_decimal env) start
             && valid_date (unicode_decimal env) end_) then
      print "[WARN] Invalid date format entered; saving empty date preferences (no filtering)." ;;;
      save_slot_prefs {[ "start_date" := ""; "end_date" := "" ]}
    else
      save_slot_prefs {[ "start_date" := start; "end_date" := end_ ]}
  else ret tt.

(** [while await is_waiting_room(page): print(...); time.sleep(5)], cut
    after [fuel] inspections: [true] when the loop was left, [false] when
    the page was still a waiting room at the cut. *)
Fixpoint wait_out_waiting_room (fuel : nat) (msg : string) : M bool :=
  match fuel with
  | O => ret false
  | S fuel' =>
      waiting <- is_waiting_room ;;
      if waiting then print msg ;;; sleep 5 ;;; wait_out_waiting_room fuel' msg
      else ret true
  end.

(** Where [main] stands when it is cut: in its final idle loop, or still
    polling a waiting room.  [main] never returns; leaving it takes an
    exception. *)
Inductive MainStatus :=
  | Idle
  | StillInWaitingRoom.

Definition assign_script : string :=
  "window.location.assign('https://www.usvisascheduling.com/schedule/?reschedule=true')".

Definition main (fuel : nat) : M MainStatus :=
  main_slot_prefs ;;;
  start_browser ;;;
  ask (BrowserGet APPOINTMENT_URL) (fun t => browser_get env t APPOINTMENT_URL) ;;;
  ask AwaitPage (await_page env) ;;;
  released <- wait_out_waiting_room fuel
    "[INFO] Waiting room detected - site is congested. Retrying in 5 seconds..." ;;
  if negb released then ret StillInWaitingRoom
  else
    login_required <- is_login_required ;;
    released <-
      (if login_required then
         print "[INFO] Login required - attempting automated login flow" ;;;
         ask BringToFront (page_bring_to_front env) ;;;
         login_success <- perform_login ;;
         if negb login_success then
           print "[ERROR] Automated login failed; falling back to manual intervention." ;;;
           ret true
         else
           wait_out_waiting_room fuel
             "[INFO] Waiting room detected after login - site is congested. Retrying in 5 seconds..."
       else ret true) ;;
    if negb released then ret StillInWaitingRoom
    else
      try_except
        (ask (PageEvaluate assign_script) (fun t => page_evaluate env t assign_script) ;;;
         set_window fresh_window ;;;
         ask AwaitPage (await_page env) ;;;
         emit CreateTask)
        is_Exception
        (print "[WARN] Could not navigate to appointment page automatically") ;;;
      print "[INFO] Navigated to appointment page. Waiting for user action (Press Ctrl+C to exit)" ;;;
      ret Idle.


End Driver.

(* ===================================================================== *)
(** * Notions the statements use                                          *)
(* ===================================================================== *)

(** The date a schedule day carries: its [Date] field, written
    [YYYY-MM-DD]. *)
Definition day_date (d : JSON) : option civil :=
  match get_member "Date" d with
  | Some (JStr s) => civil_of_string s
  | _ => None
  end.

(** The filter in the words of the specification: the days [d] of [D] with
    [s <= d <= e] in the calendar, both boundary dates included. *)
Definition days_within (s e : civil) (D : list JSON) : list JSON :=
  List.filter
    (fun d => match day_date d with
              | Some c => civil_le s c && civil_le c e
              | None => false
              end) D.

(** The day number of a calendar date. *)
Definition MakeDay_of (c : civil) : Z := MakeDay (c_year c) (c_month c) (c_day c).

(** Installing the hook once per configuration of a list, in order. *)
Definition install_all (cfgs : list HookConfig) (w : Window) : Window :=
  fold_left (fun w cfg => hook_js cfg w) cfgs w.

(** The kinds of page of the specification. *)
Inductive PageState :=
  | WaitingRoom
  | LoginChallenge
  | SchedulingPage.

(** What an inspection can see of a page. *)
Record PageView := {
  view_url : option string;
  view_password_input : bool;
  view_body_style : option string
}.

Definition on_identity_provider (p : PageView) : bool :=
  match view_url p with Some u => includes "b2clogin.com" u | None => false end.

Definition shows_waiting_room (p : PageView) : bool :=
  match view_body_style p with
  | Some s => includes "waiting_room_background_en-US.png" s
  | None => false
  end.

(** The decision list in the words of the specification: identity
    provider, then password input, then waiting-room asset. *)
Definition classify_spec (p : PageView) : PageState :=
  if on_identity_provider p then LoginChallenge
  else if view_password_input p then LoginChallenge
  else if shows_waiting_room p then WaitingRoom
  else SchedulingPage.

(** The decision list [main] implements: waiting-room asset first. *)
Definition classify_waiting_room_first (p : PageView) : PageState :=
  if shows_waiting_room p then WaitingRoom
  else if on_identity_provider p then LoginChallenge
  else if view_password_input p then LoginChallenge
  else SchedulingPage.

(** One inspection as [main] makes it: the test of its waiting-room loop,
    and when that fails the test of its login branch. *)
Definition classify (env : Env) : M PageState :=
  waiting <- is_waiting_room env ;;
  if waiting then ret WaitingRoom
  else
    login_required <- is_login_required env ;;
    if login_required then ret LoginChallenge else ret SchedulingPage.

(** The decimal digits beyond ASCII in Unicode 14.0, the database of
    Python 3.11: each run of ten begins at one of these code points, its
    zero. *)
Definition unicode_14_zeros : list Z :=
  [
    1632; 1776; 1984; 2406; 2534; 2662; 2790; 2918; 3046; 3174; 3302; 3430;
    3558; 3664; 3792; 3872; 4160; 4240; 6112; 6160; 6470; 6608; 6784; 6800;
    6992; 7088; 7232; 7248; 42528; 43216; 43264; 43472; 43504; 43600;
    44016; 65296; 66720; 68912; 69734; 69872; 69942; 70096; 70384; 70736;
    70864; 71248; 71360; 71472; 71904; 72016; 72784; 73040; 73120; 92768;
    92864; 93008; 120782; 120792; 120802; 120812; 120822; 123200; 123632;
    125264; 130032 ].

Definition unicode_14_decimal (cp : Z) : option Z :=
  match List.find (fun zero => (zero <=? cp) && (cp <=? zero + 9)) unicode_14_zeros with
  | Some zero => Some (cp - zero)
  | None => None
  end.

(** An environment given by what the console, the page, the image element
    and the vision service answer; no credentials are configured, the
    interpreter is a Python 3.11, and every other call succeeds. *)
Definition make_env
    (api_key : option string)
    (input : nat -> Res string)
    (url : nat -> Res (option string))
    (select : nat -> string -> Res (option Element))
    (evaluate : nat -> string -> Res (option string))
    (apply : nat -> Element -> string -> Res (option string))
    (screenshot : nat -> Res string)
    (vision : nat -> string -> Res string) : Env :=
  {| USERNAME := None;
     PASSWORD := None;
     SECURITY_ANSWERS := ∅;
     NOTIFY_URL := "https://api.telegram.org/bot<TELEGRAM_API_KEY>/sendMessage?chat_id=<CHAT_ID>&text=hasSlot";
     OPENAI_API_KEY := api_key;
     unicode_decimal := unicode_14_decimal;
     console_input := input;
     uc_start := fun _ => Ok tt;
     browser_get := fun _ _ => Ok tt;
     await_page := fun _ => Ok tt;
     page_bring_to_front := fun _ => Ok tt;
     page_url := url;
     page_select := select;
     page_evaluate := evaluate;
     page_evaluate_hook := fun _ => Ok tt;
     element_apply := apply;
     element_send_keys := fun _ _ _ => Ok tt;
     element_click := fun _ _ => Ok tt;
     element_save_screenshot := fun _ _ => Ok tt;
     read_screenshot := screenshot;
     os_unlink := fun _ => Ok tt;
     write_debug_image := fun _ => Ok tt;
     write_prefs := fun _ => Ok tt;
     openai_create := vision |}.

(** An environment in which nothing fails and nothing is found. *)
Definition quiet_env : Env :=
  make_env None (fun _ => Ok "") (fun _ => Ok None) (fun _ _ => Ok None)
    (fun _ _ => Ok None) (fun _ _ _ => Ok None) (fun _ => Ok "") (fun _ _ => Ok "").

(** An environment shows the view [p] when every inspection sees it. *)
Definition shows (env : Env) (p : PageView) : Prop :=
  (forall t, page_url env t = Ok (view_url p))
  /\ (forall t, page_select env t "input[type=password]"
                = Ok (if view_password_input p
                      then Some "input[type=password]" else None))
  /\ (forall t, page_evaluate env t body_style_script = Ok (view_body_style p)).

(** The quiet environment, showing [p]. *)
Definition env_showing (p : PageView) : Env :=
  make_env None (fun _ => Ok "")
    (fun _ => Ok (view_url p))
    (fun _ selector =>
       if String.eqb selector "input[type=password]" && view_password_input p
       then Ok (Some selector) else Ok None)
    (fun _ script =>
       if String.eqb script body_style_script then Ok (view_body_style p)
       else Ok None)
    (fun _ _ _ => Ok None) (fun _ => Ok "") (fun _ _ => Ok "").

(** A page on the identity provider, with a password input, that also
    carries the waiting-room background. *)
Definition login_page_in_waiting_room : PageView :=
  {| view_url := Some "https://atlasauth.b2clogin.com/oauth2/authorize";
     view_password_input := true;
     view_body_style :=
       Some "background-image: url('/img/waiting_room_background_en-US.png')" |}.

(** The quiet environment, with every script evaluation failing as it
    does while a frame navigates. *)
Definition env_dom_failure : Env :=
  make_env None (fun _ => Ok "") (fun _ => Ok None) (fun _ _ => Ok None)
    (fun _ _ => Raise (OtherException "ProtocolException"))
    (fun _ _ _ => Ok None) (fun _ => Ok "") (fun _ _ => Ok "").


(** The quiet environment, with a user who types [first] and then
    [second] at the console. *)
Definition env_typing (first second : string) : Env :=
  make_env None
    (fun t => match t with O => Ok first | _ => Ok second end)
    (fun _ => Ok None) (fun _ _ => Ok None)
    (fun _ _ => Ok None) (fun _ _ _ => Ok None) (fun _ => Ok "") (fun _ _ => Ok "").

(** Text beyond ASCII, as its UTF-8 bytes: the no-break space U+00A0 and
    the full-width digit [d], U+FF10 and the nine after it. *)
Definition no_break_space : string :=
  String (ascii_of_nat 194) (String (ascii_of_nat 160) "").

Definition fullwidth_digit (d : nat) : string :=
  String (ascii_of_nat 239)
    (String (ascii_of_nat 188) (String (ascii_of_nat (144 + d)) "")).

(** A login page that shows a loaded captcha image whose screenshot reads
    back as [b64]; an API key is set and the service answers [text]. *)
Definition env_captcha (b64 text : string) : Env :=
  make_env (Some "sk-test") (fun _ => Ok "") (fun _ => Ok None)
    (fun _ selector => Ok (Some selector))
    (fun _ _ => Ok None)
    (fun _ _ _ => Ok (Some "/captcha/image.png"))
    (fun _ => Ok b64) (fun _ _ => Ok text).

(** A state of the process, by its registry. *)
Definition state_with_registry (registry : gmap string nat) : State :=
  {| clock := 0%nat;
     attempt_registry := Some registry;
     slot_prefs_file := NoFile;
     window := fresh_window |}.

(** Counting and pacing of events. *)
Definition is_sleep (ev : Event) : bool :=
  match ev with Sleep _ => true | _ => false end.

Definition is_captcha_poll (ev : Event) : bool :=
  match ev with PageSelect s => String.eqb s "#captchaImage" | _ => false end.

Definition is_request (ev : Event) : bool :=
  match ev with OpenAIRequest _ => true | _ => false end.

Definition is_solve_call (data_url : string) (ev : Event) : bool :=
  match ev with SolveCall u => String.eqb u data_url | _ => false end.

Definition is_input (ev : Event) : bool :=
  match ev with Input _ => true | _ => false end.

Definition count (p : Event -> bool) (evs : list Event) : nat :=
  length (List.filter p evs).

(** The attempts and the delays of a run, in order, all else left out. *)
Definition pacing (is_attempt : Event -> bool) (evs : list Event) : list Event :=
  List.filter (fun ev => is_attempt ev || is_sleep ev) evs.

(** [n] polls of the captcha image, each followed by the retry delay. *)
Fixpoint poll_schedule (n : nat) : list Event :=
  match n with
  | O => []
  | S n' => PageSelect "#captchaImage" :: Sleep RETRY_DELAY_SECONDS :: poll_schedule n'
  end.

(** [n] requests to the vision service, with the delay
    [RETRY_DELAY_SECONDS * k] after the [k]-th when another follows;
    [first] numbers the first request. *)
Fixpoint backoff_schedule (data_url : string) (n first : nat) : list Event :=
  match n with
  | O => []
  | S n' =>
      OpenAIRequest data_url ::
      match n' with
      | O => []
      | S _ =>
          Sleep (RETRY_DELAY_SECONDS * Z.of_nat first) ::
          backoff_schedule data_url n' (S first)
      end
  end.

(** [attempt_captcha_solve] called [n] times in a row, as successive login
    rounds of one process would. *)
Fixpoint captcha_rounds (env : Env) (n : nat) : M unit :=
  match n with
  | O => ret tt
  | S n' => attempt_captcha_solve env ;;; captcha_rounds env n'
  end.

(** The attempts the registry holds for an image. *)
Definition recorded_attempts (st : State) (data_url : string) : nat :=
  default 0%nat (default ∅ (attempt_registry st) !! data_url).

(** The shape [YYYY-MM-DD]: four digits, two digits, two digits. *)
Definition YYYY_MM_DD_format (s : string) : bool :=
  match list_ascii_of_string s with
  | [y1; y2; y3; y4; h1; m1; m2; h2; d1; d2] =>
      Ascii.eqb h1 "-" && Ascii.eqb h2 "-"
      && is_some (num4 y1 y2 y3 y4) && is_some (num2 m1 m2) && is_some (num2 d1 d2)
  | _ => false
  end.

(** A program is quiet for a kind of event when no run of it emits such
    an event or touches the attempt registry. *)
Definition quiet (p : Event -> bool) {A} (m : M A) : Prop :=
  forall st,
    attempt_registry (final (m st)) = attempt_registry st
    /\ count p (events (m st)) = 0%nat.


(** The calls by which [main] looks for a login page and starts the login. *)
Definition is_login_probe (ev : Event) : bool :=
  match ev with
  | ReadUrl | BringToFront => true
  | PageSelect s => String.eqb s "input[type=password]"
  | _ => false
  end.

(** The preferences that mean: no filtering. *)
Definition empty_prefs : gmap string string :=
  {[ "start_date" := ""; "end_date" := "" ]}.

(** A response body the hook cannot use: not JSON at all, or JSON with no
    [ScheduleDays] array. *)
Definition unusable (body : option JSON) : Prop :=
  match body with
  | None => True
  | Some json => ScheduleDays json = None
  end.

(** A page context holds no hook and no flag, or the flag and one hook. *)
Definition well_hooked (w : Window) : Prop :=
  (APPT_HOOK_INSTALLED w = false
   /\ fetch_hooks (w_fetch w) = 0%nat /\ send_hooks (w_send w) = 0%nat)
  \/ (APPT_HOOK_INSTALLED w = true
      /\ fetch_hooks (w_fetch w) = 1%nat /\ send_hooks (w_send w) = 1%nat).

(** What one intercepted response with a matching URL makes a single hook
    instance do. *)
Definition one_fetch_hook (tza : Z) (cfg : HookConfig) (body : option JSON)
  : list Effect :=
  ConsoleLog "[HOOK] Captured fetch" ::
  match body with
  | Some json => analyseAvailability tza cfg json
  | None => []
  end.

Definition one_xhr_hook (tza : Z) (cfg : HookConfig) (body : option JSON)
  : list Effect :=
  ConsoleLog "[HOOK] Captured XHR" ::
  match body with
  | Some json => analyseAvailability tza cfg json
  | None => [ConsoleError "[HOOK] Could not parse XHR JSON"]
  end.






(* ===================================================================== *)
(** * Notions the further properties use                                  *)
(* ===================================================================== *)

(** The page reloads a run of the hook has scheduled, each with its delay
    in milliseconds and its target. *)
Definition refreshes (es : list Effect) : list (Z * string) :=
  flat_map (fun e => match e with ScheduleRefresh d u => [(d, u)] | _ => [] end) es.

(** An entry of [ScheduleDays] that carries no date: [null], a value
    without a [Date] property, or one whose [Date] is [null]. *)
Definition undated (d : JSON) : Prop :=
  d = JNull \/ get_member "Date" d = None \/ get_member "Date" d = Some JNull.

(** The seconds a run asks to sleep, all its delays added up. *)
Fixpoint sleep_total (evs : list Event) : Z :=
  match evs with
  | [] => 0
  | Sleep seconds :: rest => seconds + sleep_total rest
  | _ :: rest => sleep_total rest
  end.

(** A run that sleeps at most [total] seconds, and at most [on_return]
    seconds when it yields a value. *)
Definition sleeps_within (total on_return : Z) {A} (r : Run (option A)) : Prop :=
  sleep_total (events r) <= total
  /\ (forall a, result r = Ok (Some a) -> sleep_total (events r) <= on_return).

(** Kinds of events. *)
Definition is_select (selector : string) (ev : Event) : bool :=
  match ev with PageSelect s => String.eqb s selector | _ => false end.


Definition is_inspection (ev : Event) : bool :=
  match ev with PageEvaluate s => String.eqb s body_style_script | _ => false end.



(** The state [n] calls to the outside later, nothing else changed. *)
Definition advance (n : nat) (st : State) : State :=
  {| clock := n + clock st;
     attempt_registry := attempt_registry st;
     slot_prefs_file := slot_prefs_file st;
     window := window st |}.

(** The address [perform_login] reads at the moment [t]: [location.href],
    or [page.url] when reading that ended in an AttributeError. *)
Definition address_read (env : Env) (t : nat) (url : string) : Prop :=
  page_evaluate env t "location.href" = Ok (Some url)
  \/ (exists e, page_evaluate env t "location.href" = Raise e
                /\ is_AttributeError e = true
                /\ page_url env (S t) = Ok (Some url)).

(** The texts a run types, with the elements they are typed into, in
    order. *)
Definition typed (evs : list Event) : list (Element * string) :=
  flat_map (fun ev => match ev with SendKeys el text => [(el, text)] | _ => [] end) evs.

(** The answers [SECURITY_ANSWERS] holds for the inputs shown, the inputs
    without an answer and those with an empty one left out. *)
Definition configured_answers (env : Env) (kba_inputs : list (string * Element))
  : list (Element * string) :=
  flat_map (fun input : string * Element =>
              match SECURITY_ANSWERS env !! fst input with
              | Some answer => if str_truthy answer then [(snd input, answer)] else []
              | None => []
              end) kba_inputs.

(** The quiet environment, with a page that is a waiting room for the
    first [rounds] calls and an ordinary page from then on. *)
Definition env_waiting_room (rounds : nat) : Env :=
  make_env None (fun _ => Ok "") (fun _ => Ok None) (fun _ _ => Ok None)
    (fun t script =>
       if String.eqb script body_style_script && (t <? rounds)%nat
       then Ok (Some "background-image: url('/img/waiting_room_background_en-US.png')")
       else Ok None)
    (fun _ _ _ => Ok None) (fun _ => Ok "") (fun _ _ => Ok "").

(** The quiet environment, with an API key and a vision service that fails
    for the first [failures] calls and answers [text] from then on. *)
Definition env_vision_after (failures : nat) (text : string) : Env :=
  make_env (Some "sk-test") (fun _ => Ok "") (fun _ => Ok None) (fun _ _ => Ok None)
    (fun _ _ => Ok None) (fun _ _ _ => Ok None) (fun _ => Ok "")
    (fun t _ => if (t <? failures)%nat then Raise (OtherException "RateLimitError")
                else Ok text).

(** An environment with credentials configured, all else as in [env]. *)
Definition with_credentials (username password : string)
    (answers : gmap string string) (env : Env) : Env :=
  {| USERNAME := Some username;
     PASSWORD := Some password;
     SECURITY_ANSWERS := answers;
     NOTIFY_URL := NOTIFY_URL env;
     OPENAI_API_KEY := OPENAI_API_KEY env;
     unicode_decimal := unicode_decimal env;
     console_input := console_input env;
     uc_start := uc_start env;
     browser_get := browser_get env;
     await_page := await_page env;
     page_bring_to_front := page_bring_to_front env;
     page_url := page_url env;
     page_select := page_select env;
     page_evaluate := page_evaluate env;
     page_evaluate_hook := page_evaluate_hook env;
     element_apply := element_apply env;
     element_send_keys := element_send_keys env;
     element_click := element_click env;
     element_save_screenshot := element_save_screenshot env;
     read_screenshot := read_screenshot env;
     os_unlink := os_unlink env;
     write_debug_image := write_debug_image env;
     write_prefs := write_prefs env;
     openai_create := openai_create env |}.

(** A login that goes through: every element is found, the captcha is
    read as [ABCDE], two of the three questions have an answer, and the
    page is back on the scheduling site when its address is read. *)
Definition env_login : Env :=
  with_credentials "user@example.com" "secret"
    {[ "#kba1_response" := "blue"; "#kba2_response" := "rex" ]}
    (make_env (Some "sk-test") (fun _ => Ok "") (fun _ => Ok None)
       (fun _ selector => Ok (Some selector))
       (fun _ script =>
          if String.eqb script "location.href"
          then Ok (Some "https://www.usvisascheduling.com/schedule/")
          else Ok None)
       (fun _ _ _ => Ok (Some "/captcha/image.png"))
       (fun _ => Ok "QUJD") (fun _ _ => Ok "ABCDE")).

(* ===================================================================== *)
(** * Proofs: the calendar and JavaScript dates                           *)
(* ===================================================================== *)

Lemma step4 y :
  (y + 1 - 1969) / 4 = (y - 1969) / 4 + (if y mod 4 =? 0 then 1 else 0).
Proof. destruct (Z.eqb_spec (y mod 4) 0); Z.div_mod_to_equations; lia. Qed.

Lemma step100 y :
  (y + 1 - 1901) / 100 = (y - 1901) / 100 + (if y mod 100 =? 0 then 1 else 0).
Proof. destruct (Z.eqb_spec (y mod 100) 0); Z.div_mod_to_equations; lia. Qed.

Lemma step400 y :
  (y + 1 - 1601) / 400 = (y - 1601) / 400 + (if y mod 400 =? 0 then 1 else 0).
Proof. destruct (Z.eqb_spec (y mod 400) 0); Z.div_mod_to_equations; lia. Qed.

Lemma mod_400_100 y : y mod 400 = 0 -> y mod 100 = 0.
Proof. intros; Z.div_mod_to_equations; lia. Qed.

Lemma mod_100_4 y : y mod 100 = 0 -> y mod 4 = 0.
Proof. intros; Z.div_mod_to_equations; lia. Qed.

(** A year has 365 days, and one more when it is a leap year. *)
Lemma DayFromYear_succ y :
  DayFromYear y + 365 + (if is_leap y then 1 else 0) = DayFromYear (y + 1).
Proof.
  unfold DayFromYear, is_leap. rewrite step4, step100, step400.
  pose proof (mod_400_100 y). pose proof (mod_100_4 y).
  destruct (Z.eqb_spec (y mod 4) 0); destruct (Z.eqb_spec (y mod 100) 0);
  destruct (Z.eqb_spec (y mod 400) 0); simpl; lia.
Qed.

Lemma DayFromYear_mono a b : a <= b -> DayFromYear a <= DayFromYear b.
Proof. unfold DayFromYear. intros. Z.div_mod_to_equations. lia. Qed.

Lemma DayFromYear_lt a b :
  a < b -> DayFromYear a + 365 + (if is_leap a then 1 else 0) <= DayFromYear b.
Proof. intros. rewrite DayFromYear_succ. apply DayFromYear_mono. lia. Qed.

Ltac month_cases m :=
  let H := fresh "Hm" in
  assert (H : m = 1 \/ m = 2 \/ m = 3 \/ m = 4 \/ m = 5 \/ m = 6 \/ m = 7
              \/ m = 8 \/ m = 9 \/ m = 10 \/ m = 11 \/ m = 12) by lia;
  repeat (destruct H as [-> | H]); try subst m.

Ltac split_bounds H :=
  repeat (apply andb_prop in H; destruct H as [H ?]).

Lemma day_of_year_bounds c :
  valid_civil c = true ->
  0 <= days_before_month (c_year c) (c_month c) + (c_day c - 1)
    < 365 + (if is_leap (c_year c) then 1 else 0).
Proof.
  destruct c as [y m d]. unfold valid_civil, days_before_month, days_in_month.
  simpl. intros H. split_bounds H.
  destruct (is_leap y); month_cases m; simpl in *; lia.
Qed.

Lemma day_of_year_mono y m1 d1 m2 d2 :
  valid_civil (Civil y m1 d1) = true -> valid_civil (Civil y m2 d2) = true ->
  (m1 < m2 \/ m1 = m2 /\ d1 < d2) ->
  days_before_month y m1 + (d1 - 1) < days_before_month y m2 + (d2 - 1).
Proof.
  unfold valid_civil, days_before_month, days_in_month. simpl.
  intros H1 H2 Hlt. split_bounds H1. split_bounds H2.
  destruct (is_leap y); month_cases m1; month_cases m2; simpl in *; lia.
Qed.

Lemma valid_civil_day_le_31 c :
  valid_civil c = true -> 1 <= c_month c <= 12 /\ 1 <= c_day c <= 31.
Proof.
  destruct c as [y m d]. unfold valid_civil, days_in_month. simpl. intros H.
  split_bounds H.
  destruct (is_leap y); month_cases m; simpl in *; lia.
Qed.

(** Earlier in the calendar means a smaller day number. *)
Lemma MakeDay_lt a b :
  valid_civil a = true -> valid_civil b = true ->
  (c_year a < c_year b
   \/ c_year a = c_year b
      /\ (c_month a < c_month b \/ c_month a = c_month b /\ c_day a < c_day b)) ->
  MakeDay_of a < MakeDay_of b.
Proof.
  intros Ha Hb Hlt. unfold MakeDay_of, MakeDay.
  pose proof (day_of_year_bounds a Ha) as Ba.
  pose proof (day_of_year_bounds b Hb) as Bb.
  destruct Hlt as [Hy | [Hy Hmd]].
  - pose proof (DayFromYear_lt _ _ Hy). lia.
  - destruct a as [ya ma da], b as [yb mb db]. simpl in *. subst yb.
    pose proof (day_of_year_mono ya ma da mb db Ha Hb Hmd). lia.
Qed.

Lemma civil_le_MakeDay a b :
  valid_civil a = true -> valid_civil b = true ->
  civil_le a b = (MakeDay_of a <=? MakeDay_of b).
Proof.
  intros Ha Hb.
  destruct (civil_le a b) eqn:E; symmetry.
  - apply Z.leb_le. unfold civil_le in E.
    destruct (Z.ltb_spec (c_year a) (c_year b)) as [Hy|Hy].
    { apply Z.lt_le_incl, MakeDay_lt; auto. }
    simpl in E. apply andb_prop in E as [Ey E]. apply Z.eqb_eq in Ey.
    destruct (Z.ltb_spec (c_month a) (c_month b)) as [Hm|Hm].
    { apply Z.lt_le_incl, MakeDay_lt; auto. }
    simpl in E. apply andb_prop in E as [Em Ed].
    apply Z.eqb_eq in Em. apply Z.leb_le in Ed.
    destruct (Z.eq_dec (c_day a) (c_day b)) as [Hd|Hd].
    + destruct a, b; simpl in *; subst. lia.
    + apply Z.lt_le_incl, MakeDay_lt; auto.
      right. split; auto. right. split; auto. lia.
  - apply Z.leb_gt. apply MakeDay_lt; auto. unfold civil_le in E.
    apply orb_false_elim in E as [Ey E]. apply Z.ltb_ge in Ey.
    destruct (Z.eqb_spec (c_year a) (c_year b)) as [Hy|Hy]; [| left; lia].
    simpl in E. apply orb_false_elim in E as [Em E]. apply Z.ltb_ge in Em.
    right. split; [lia|].
    destruct (Z.eqb_spec (c_month a) (c_month b)) as [Hm|Hm]; [| left; lia].
    simpl in E. apply Z.leb_gt in E. right. split; lia.
Qed.

Lemma civil_le_refl c : civil_le c c = true.
Proof.
  unfold civil_le. rewrite !Z.eqb_refl, Z.leb_refl. simpl.
  now rewrite !orb_true_r.
Qed.

Lemma list_ascii_of_string_app s t :
  list_ascii_of_string (s +:+ t) = list_ascii_of_string s ++ list_ascii_of_string t.
Proof. induction s as [| c s IH]; simpl; [reflexivity | now rewrite IH]. Qed.

(** What a string that reads as a date is made of. *)
Lemma civil_of_string_inv s c :
  civil_of_string s = Some c ->
  exists y1 y2 y3 y4 m1 m2 d1 d2,
    list_ascii_of_string s = [y1; y2; y3; y4; "-"%char; m1; m2; "-"%char; d1; d2]
    /\ num4 y1 y2 y3 y4 = Some (c_year c)
    /\ num2 m1 m2 = Some (c_month c)
    /\ num2 d1 d2 = Some (c_day c)
    /\ valid_civil c = true.
Proof.
  unfold civil_of_string. intros H.
  destruct (list_ascii_of_string s)
    as [|y1 [|y2 [|y3 [|y4 [|h1 [|m1 [|m2 [|h2 [|d1 [|d2 [|? ?]]]]]]]]]]];
    try discriminate.
  destruct (Ascii.eqb_spec h1 "-"); [| discriminate].
  destruct (Ascii.eqb_spec h2 "-"); [| discriminate].
  simpl in H. subst h1 h2.
  destruct (num4 y1 y2 y3 y4) as [y|] eqn:Ey; [| discriminate].
  destruct (num2 m1 m2) as [m|] eqn:Em; [| discriminate].
  destruct (num2 d1 d2) as [d|] eqn:Ed; [| discriminate].
  destruct (valid_civil (Civil y m d)) eqn:Ev; [| discriminate].
  inversion H; subst c. simpl.
  exists y1, y2, y3, y4, m1, m2, d1, d2. repeat split; auto.
Qed.

Lemma civil_of_string_valid s c : civil_of_string s = Some c -> valid_civil c = true.
Proof.
  intros H. apply civil_of_string_inv in H.
  destruct H as (? & ? & ? & ? & ? & ? & ? & ? & _ & _ & _ & _ & H). exact H.
Qed.

Lemma civil_of_string_truthy s c : civil_of_string s = Some c -> str_truthy s = true.
Proof. destruct s; [discriminate | reflexivity]. Qed.

Ltac in_bounds :=
  repeat match goal with
         | |- context [?a <=? ?b] =>
             replace (a <=? b) with true by (symmetry; apply Z.leb_le; lia)
         end.

Lemma digit_val_range c x : digit_val c = Some x -> 0 <= x <= 9.
Proof.
  unfold digit_val.
  destruct ((48 <=? nat_of_ascii c)%nat && (nat_of_ascii c <=? 57)%nat) eqn:E;
    [| discriminate].
  apply andb_prop in E as [E1 E2]. apply Nat.leb_le in E1, E2.
  intros H. inversion H. lia.
Qed.

Lemma digit_not_dash c x : digit_val c = Some x -> Ascii.eqb c "-" = false.
Proof.
  intros H. destruct (Ascii.eqb_spec c "-") as [-> |]; [discriminate | reflexivity].
Qed.

Lemma num2_inv a b n :
  num2 a b = Some n ->
  exists x y, digit_val a = Some x /\ digit_val b = Some y /\ n = 10 * x + y
              /\ 0 <= x <= 9 /\ 0 <= y <= 9.
Proof.
  unfold num2. destruct (digit_val a) as [x |] eqn:Ea; [| discriminate].
  destruct (digit_val b) as [y |] eqn:Eb; [| discriminate].
  intros H. inversion H. exists x, y.
  repeat split; eauto using digit_val_range; apply (digit_val_range _ _ Ea) || apply (digit_val_range _ _ Eb).
Qed.

Lemma digit_not_sign c x :
  digit_val c = Some x -> Ascii.eqb c "+" || Ascii.eqb c "-" = false.
Proof.
  intros H. destruct (Ascii.eqb_spec c "+") as [-> |]; [discriminate |].
  destruct (Ascii.eqb_spec c "-") as [-> |]; [discriminate | reflexivity].
Qed.

Lemma num4_inv a b c d n :
  num4 a b c d = Some n ->
  0 <= n <= 9999 /\ exists x, digit_val a = Some x.
Proof.
  unfold num4. destruct (num2 a b) as [hi |] eqn:Ehi; [| discriminate].
  destruct (num2 c d) as [lo |] eqn:Elo; [| discriminate].
  intros H. inversion H; subst n.
  apply num2_inv in Ehi as (x & y & Ex & _ & -> & Hx & Hy).
  apply num2_inv in Elo as (x' & y' & _ & _ & -> & Hx' & Hy').
  split; [lia | eauto].
Qed.

(** A moment of a year written with four digits is a time value, in any
    zone. *)
Lemma TimeClip_four_digit_year tza y m d time :
  0 <= y <= 9999 -> 1 <= m <= 12 -> 1 <= d <= 31 -> 0 <= time <= 86400000 ->
  Z.abs tza <= 86400000 ->
  TimeClip (MakeDate (MakeDay y m d) time - tza)
  = Some (MakeDate (MakeDay y m d) time - tza).
Proof.
  intros Hy Hm Hd Ht Hz. unfold TimeClip.
  replace (_ <=? _) with true; [reflexivity |].
  symmetry. apply Z.leb_le.
  assert (Hb : 0 <= days_before_month y m <= 335)
    by (unfold days_before_month; destruct (is_leap y); month_cases m; lia).
  unfold MakeDate, MakeDay, DayFromYear.
  Z.div_mod_to_equations. lia.
Qed.

(** A day written [YYYY-MM-DD], at the time [time] the hook appends. *)
Lemma Date_parse_dated tza s c (time : string) h mi sec :
  civil_of_string s = Some c ->
  Z.abs tza <= 86400000 ->
  iso_time (list_ascii_of_string time) = Some (h, mi, sec) ->
  0 <= h <= 23 -> 0 <= mi <= 59 -> 0 <= sec <= 59 ->
  Date_parse tza (s +:+ "T" +:+ time)
  = Some (MakeDate (MakeDay_of c) (MakeTime h mi sec) - tza).
Proof.
  intros Hc Hz Htime Hh Hmi Hsec.
  pose proof (civil_of_string_valid _ _ Hc) as Hv.
  pose proof (valid_civil_day_le_31 _ Hv) as [Bmo Bd].
  apply civil_of_string_inv in Hc.
  destruct Hc as (y1 & y2 & y3 & y4 & m1 & m2 & d1 & d2 & Hs & Hy & Hm & Hd & _).
  destruct (num4_inv _ _ _ _ _ Hy) as (Byear & x & Hx).
  unfold Date_parse. rewrite !list_ascii_of_string_app, Hs.
  cbn [list_ascii_of_string app iso_year]. rewrite (digit_not_sign _ _ Hx), Hy.
  cbn [iso_month_day Ascii.eqb Bool.eqb andb]. rewrite Hm, Hd.
  cbn [Ascii.eqb Bool.eqb andb]. rewrite Htime.
  replace ((1 <=? c_month c) && (c_month c <=? 12) && (1 <=? c_day c)
           && (c_day c <=? 31) && (mi <=? 59) && (sec <=? 59)
           && ((h <=? 23) || (h =? 24) && (mi =? 0) && (sec =? 0))) with true.
  - apply TimeClip_four_digit_year; try lia. unfold MakeTime. lia.
  - symmetry. rewrite !andb_true_iff, orb_true_iff, !Z.leb_le. repeat split; lia.
Qed.

(** [new Date(s + 'T00:00:00')] is local midnight of the day [s] names. *)
Lemma Date_parse_midnight tza s c :
  civil_of_string s = Some c ->
  Z.abs tza <= 86400000 ->
  Date_parse tza (s +:+ "T00:00:00") = Some (MakeDate (MakeDay_of c) 0 - tza).
Proof.
  intros Hc Hz.
  exact (Date_parse_dated tza s c "00:00:00" 0 0 0 Hc Hz eq_refl
           ltac:(lia) ltac:(lia) ltac:(lia)).
Qed.

(** [new Date(s + 'T23:59:59')] is the last second of that day. *)
Lemma Date_parse_end_of_day tza s c :
  civil_of_string s = Some c ->
  Z.abs tza <= 86400000 ->
  Date_parse tza (s +:+ "T23:59:59") = Some (MakeDate (MakeDay_of c) 86399000 - tza).
Proof.
  intros Hc Hz.
  exact (Date_parse_dated tza s c "23:59:59" 23 59 59 Hc Hz eq_refl
           ltac:(lia) ltac:(lia) ltac:(lia)).
Qed.

(* ===================================================================== *)
(** * Proofs: the availability check                                      *)
(* ===================================================================== *)

(** On a dated day the callback compares calendar dates. *)
Lemma in_range_dated tza sd ed s e d c :
  Z.abs tza <= 86400000 ->
  civil_of_string sd = Some s -> civil_of_string ed = Some e ->
  day_date d = Some c ->
  in_range tza (Date_parse tza (sd +:+ "T00:00:00"))
    (Date_parse tza (ed +:+ "T23:59:59")) d
  = civil_le s c && civil_le c e.
Proof.
  intros Hz Hs He Hd. unfold day_date in Hd.
  destruct (get_member "Date" d) as [[| | |ds| |]|] eqn:Eg; try discriminate.
  unfold in_range. destruct d; try discriminate; rewrite Eg; simpl js_concat;
  rewrite (Date_parse_midnight _ _ _ Hs Hz), (Date_parse_end_of_day _ _ _ He Hz),
    (Date_parse_midnight _ _ _ Hd Hz);
  rewrite (civil_le_MakeDay s c), (civil_le_MakeDay c e)
    by eauto using civil_of_string_valid;
  unfold date_ge, date_le, MakeDate;
  f_equal; apply eq_true_iff_eq; rewrite !Z.leb_le; lia.
Qed.

Lemma matches_days_within tza cfg D s e :
  Z.abs tza <= 86400000 ->
  civil_of_string (START_DATE cfg) = Some s ->
  civil_of_string (END_DATE cfg) = Some e ->
  Forall (fun d => day_date d <> None) D ->
  matches tza cfg D = days_within s e D.
Proof.
  intros Hz Hs He HD. unfold matches, days_within.
  apply List.filter_ext_in. intros d Hin.
  rewrite Forall_forall in HD. specialize (HD d).
  destruct (day_date d) as [c|] eqn:Ed.
  - apply (in_range_dated tza _ _ s e d c Hz Hs He Ed).
  - exfalso. apply HD; [ now apply list_elem_of_In | reflexivity ].
Qed.

Lemma notifications_app a b :
  notifications (a ++ b) = (notifications a + notifications b)%nat.
Proof. unfold notifications. now rewrite List.filter_app, length_app. Qed.

(** The notification request is sent exactly when [hasSlots] holds. *)
Lemma notifications_analyse tza cfg json :
  notifications (analyseAvailability tza cfg json)
  = if hasSlots tza cfg json then 1%nat else 0%nat.
Proof.
  unfold analyseAvailability, notifications.
  destruct (filtering cfg json), (hasSlots tza cfg json); reflexivity.
Qed.

Lemma hasSlots_unfiltered tza cfg json :
  str_truthy (START_DATE cfg) && str_truthy (END_DATE cfg) = false ->
  hasSlots tza cfg json
  = match ScheduleDays json with
    | Some days => (0 <? length days)%nat
    | None => false
    end.
Proof. intros H. unfold hasSlots. now rewrite H. Qed.

Lemma filter_nonempty_iff {A} (p : A -> bool) (l : list A) :
  (0 <? length (List.filter p l))%nat = true <-> exists x, In x l /\ p x = true.
Proof.
  rewrite Nat.ltb_lt. split.
  - destruct (List.filter p l) as [| x rest] eqn:E; [cbn; lia |].
    intros _. exists x. apply List.filter_In. rewrite E. now left.
  - intros (x & Hin & Hp).
    assert (Hx : In x (List.filter p l)) by (apply List.filter_In; auto).
    destruct (List.filter p l); [destruct Hx | cbn; lia].
Qed.

(** X19.  In any zone, with a start date and an end date of the form
    [YYYY-MM-DD] configured and a list of days that each carry a date of
    that form, the hook keeps exactly the days [d] with
    [start <= d <= end] in the calendar; a day on either boundary date is
    kept; [hasSlots] is true iff a day is kept. *)
Theorem date_range_filter (tza : Z) (cfg : HookConfig) (json : JSON)
    (D : list JSON) (s e : civil) :
  Z.abs tza <= 86400000 ->
  civil_of_string (START_DATE cfg) = Some s ->
  civil_of_string (END_DATE cfg) = Some e ->
  ScheduleDays json = Some D ->
  Forall (fun d => day_date d <> None) D ->
  matches tza cfg D = days_within s e D
  /\ hasSlots tza cfg json = (0 <? length (days_within s e D))%nat
  /\ (hasSlots tza cfg json = true <->
      exists d c, In d D /\ day_date d = Some c
                  /\ civil_le s c = true /\ civil_le c e = true)
  /\ (forall d, In d D -> civil_le s e = true ->
        day_date d = Some s \/ day_date d = Some e -> In d (matches tza cfg D)).
Proof.
  intros Hz Hs He HD Hdated.
  pose proof (matches_days_within tza cfg D s e Hz Hs He Hdated) as Hm.
  assert (Hhas : hasSlots tza cfg json = (0 <? length (days_within s e D))%nat).
  { unfold hasSlots.
    rewrite (civil_of_string_truthy _ _ Hs), (civil_of_string_truthy _ _ He), HD.
    cbn [andb]. now rewrite Hm. }
  split; [exact Hm |]. split; [exact Hhas |]. split.
  - rewrite Hhas. unfold days_within. rewrite filter_nonempty_iff. split.
    + intros (d & Hin & Hp). destruct (day_date d) as [c |] eqn:Ed; [| discriminate].
      apply andb_prop in Hp as [H1 H2]. exists d, c. auto.
    + intros (d & c & Hin & Ed & H1 & H2). exists d. split; [exact Hin |].
      now rewrite Ed, H1, H2.
  - intros d Hin Hse Hd. rewrite Hm. unfold days_within.
    apply List.filter_In. split; [exact Hin |].
    destruct Hd as [-> | ->]; rewrite civil_le_refl, Hse; reflexivity.
Qed.

(** The range of March 2025 against a day inside it and a day after it:
    one day is kept and slots are reported. *)
Lemma date_range_filter_witness :
  let cfg := {| js_NOTIFY_URL := "https://notify.example/ping";
                js_REFRESH_URL := APPOINTMENT_URL;
                START_DATE := "2025-03-01";
                END_DATE := "2025-03-31" |} in
  let D := [JObj [("Date", JStr "2025-03-10")]; JObj [("Date", JStr "2025-04-02")]] in
  matches 0 cfg D = days_within (Civil 2025 3 1) (Civil 2025 3 31) D
  /\ hasSlots 0 cfg (JObj [("ScheduleDays", JArr D)]) = true.
Proof.
  cbv zeta.
  assert (Hz : Z.abs 0 <= 86400000) by (vm_compute; discriminate).
  pose proof (date_range_filter 0
                {| js_NOTIFY_URL := "https://notify.example/ping";
                   js_REFRESH_URL := APPOINTMENT_URL;
                   START_DATE := "2025-03-01";
                   END_DATE := "2025-03-31" |}
                (JObj [("ScheduleDays",
                        JArr [JObj [("Date", JStr "2025-03-10")];
                              JObj [("Date", JStr "2025-04-02")]])])
                [JObj [("Date", JStr "2025-03-10")]; JObj [("Date", JStr "2025-04-02")]]
                (Civil 2025 3 1) (Civil 2025 3 31)
                Hz eq_refl eq_refl eq_refl
                ltac:(repeat constructor; discriminate)) as (H1 & H2 & _).
  split; [exact H1 | rewrite H2; reflexivity].
Defined.

(** C1, where the code departs from it.  A start date typed without
    padding, [2025-3-1], passes the validation of the prompt and is stored
    as typed; the hook gets it as [START_DATE] and cannot read it as a
    date, so with this range no day is ever kept: the 10th of March 2025
    lies between the two dates typed and is not reported, in any zone. *)
Theorem unpadded_start_date_finds_no_day (tza : Z) :
  let env := env_typing "2025-3-1" "2025-03-31" in
  let later := final (main_slot_prefs env (initial_state NoFile)) in
  let cfg := {| js_NOTIFY_URL := NOTIFY_URL env;
                js_REFRESH_URL := APPOINTMENT_URL;
                START_DATE := "2025-3-1";
                END_DATE := "2025-03-31" |} in
  let day := JObj [("Date", JStr "2025-03-10")] in
  let json := JObj [("ScheduleDays", JArr [day])] in
  events (inject_fetch_hook env later) = [InjectHook cfg]
  /\ strptime_Ymd (unicode_decimal env) "2025-3-1" = Some (Civil 2025 3 1)
  /\ strptime_Ymd (unicode_decimal env) "2025-03-31" = Some (Civil 2025 3 31)
  /\ day_date day = Some (Civil 2025 3 10)
  /\ civil_le (Civil 2025 3 1) (Civil 2025 3 10) = true
  /\ civil_le (Civil 2025 3 10) (Civil 2025 3 31) = true
  /\ Date_parse tza "2025-3-1T00:00:00" = None
  /\ matches tza cfg [day] = []
  /\ hasSlots tza cfg json = false
  /\ notifications (analyseAvailability tza cfg json) = 0%nat.
Proof.
  cbv zeta.
  assert (Hstart : Date_parse tza "2025-3-1T00:00:00" = None) by reflexivity.
  assert (Hmatches : forall cfg,
             START_DATE cfg = "2025-3-1" ->
             matches tza cfg [JObj [("Date", JStr "2025-03-10")]] = []).
  { intros cfg Hcfg. unfold matches. rewrite Hcfg.
    change ("2025-3-1" +:+ "T00:00:00") with "2025-3-1T00:00:00". rewrite Hstart.
    assert (Hge : forall a, date_ge a None = false) by (intros [a |]; reflexivity).
    cbn [List.filter in_range]. now rewrite Hge. }
  assert (Hhas : forall cfg,
             START_DATE cfg = "2025-3-1" -> END_DATE cfg = "2025-03-31" ->
             hasSlots tza cfg
               (JObj [("ScheduleDays", JArr [JObj [("Date", JStr "2025-03-10")]])])
             = false).
  { intros cfg H1 H2. unfold hasSlots. rewrite H1, H2.
    cbn [str_truthy andb].
    assert (HS : ScheduleDays
                   (JObj [("ScheduleDays", JArr [JObj [("Date", JStr "2025-03-10")]])])
                 = Some [JObj [("Date", JStr "2025-03-10")]]) by reflexivity.
    now rewrite HS, (Hmatches cfg H1). }
  split; [vm_compute; reflexivity |].
  split; [vm_compute; reflexivity |].
  split; [vm_compute; reflexivity |].
  split; [reflexivity |]. split; [reflexivity |]. split; [reflexivity |].
  split; [exact Hstart |].
  split; [apply Hmatches; reflexivity |].
  split; [apply Hhas; reflexivity |].
  rewrite notifications_analyse, Hhas; reflexivity.
Qed.

(** X22.  With both dates unset the hook does not look at the days:
    [hasSlots] is true iff [ScheduleDays] is a non-empty array, whatever
    its entries are, and a notification is sent exactly then. *)
Theorem unset_dates_keep_every_day (tza : Z) (cfg : HookConfig) (json : JSON) :
  START_DATE cfg = "" ->
  END_DATE cfg = "" ->
  hasSlots tza cfg json
  = match ScheduleDays json with
    | Some days => (0 <? length days)%nat
    | None => false
    end
  /\ notifications (analyseAvailability tza cfg json)
     = match ScheduleDays json with
       | Some (_ :: _) => 1%nat
       | _ => 0%nat
       end.
Proof.
  intros Hs He.
  assert (H : hasSlots tza cfg json
              = match ScheduleDays json with
                | Some days => (0 <? length days)%nat
                | None => false
                end).
  { apply hasSlots_unfiltered. now rewrite Hs. }
  split; [exact H |]. rewrite notifications_analyse, H.
  destruct (ScheduleDays json) as [[| d days] |]; reflexivity.
Qed.

(** No range, and a list whose one entry carries no date. *)
Lemma unset_dates_keep_every_day_witness :
  let cfg := {| js_NOTIFY_URL := "N"; js_REFRESH_URL := "R";
                START_DATE := ""; END_DATE := "" |} in
  let json := JObj [("ScheduleDays", JArr [JObj [("Slots", JStr "3")]])] in
  hasSlots 0 cfg json = true
  /\ notifications (analyseAvailability 0 cfg json) = 1%nat.
Proof.
  cbv zeta.
  exact (unset_dates_keep_every_day 0
           {| js_NOTIFY_URL := "N"; js_REFRESH_URL := "R";
              START_DATE := ""; END_DATE := "" |}
           (JObj [("ScheduleDays", JArr [JObj [("Slots", JStr "3")]])])
           eq_refl eq_refl).
Defined.

(** The end-to-end scenarios A, B and C of the specification. *)
Example scenario_A :
  let cfg := {| js_NOTIFY_URL := "N"; js_REFRESH_URL := "R";
                START_DATE := "2025-03-01"; END_DATE := "2025-03-31" |} in
  let json := JObj [("ScheduleDays", JArr [JObj [("Date", JStr "2025-03-10")]])] in
  hasSlots 0 cfg json = true
  /\ notifications (analyseAvailability 0 cfg json) = 1%nat.
Proof. split; reflexivity. Qed.

Example scenario_B :
  let cfg := {| js_NOTIFY_URL := "N"; js_REFRESH_URL := "R";
                START_DATE := "2025-04-01"; END_DATE := "2025-04-30" |} in
  let json := JObj [("ScheduleDays", JArr [JObj [("Date", JStr "2025-03-10")]])] in
  hasSlots 0 cfg json = false
  /\ notifications (analyseAvailability 0 cfg json) = 0%nat.
Proof. split; reflexivity. Qed.

Example scenario_C :
  let cfg := {| js_NOTIFY_URL := "N"; js_REFRESH_URL := "R";
                START_DATE := ""; END_DATE := "" |} in
  hasSlots 0 cfg (JObj [("ScheduleDays", JArr [])]) = false.
Proof. reflexivity. Qed.

(** Without a [ScheduleDays] array there are no slots and no request. *)
Lemma analyse_no_days tza cfg json :
  ScheduleDays json = None ->
  hasSlots tza cfg json = false
  /\ notifications (analyseAvailability tza cfg json) = 0%nat.
Proof.
  intros H. assert (Hh : hasSlots tza cfg json = false).
  { unfold hasSlots. rewrite H. now destruct (_ && _). }
  now rewrite notifications_analyse, Hh.
Qed.

Lemma run_fetch_unusable tza f url body :
  unusable body -> notifications (run_fetch tza f url body) = 0%nat.
Proof.
  intros Hb. induction f as [| cfg f IH]; [reflexivity |].
  cbn [run_fetch]. rewrite notifications_app, IH.
  destruct (includes TARGET_SUBSTR url); [| reflexivity].
  destruct body as [json |]; [| reflexivity].
  change (notifications (ConsoleLog "[HOOK] Captured fetch" :: analyseAvailability tza cfg json))
    with (notifications (analyseAvailability tza cfg json)).
  destruct (analyse_no_days tza cfg json Hb) as [_ ->]. reflexivity.
Qed.

Lemma fire_load_unusable tza x body :
  unusable body -> notifications (fire_load tza x body) = 0%nat.
Proof.
  intros Hb. unfold fire_load.
  induction (load_listeners x) as [| cfg l IH]; [reflexivity |].
  cbn [List.map concat]. rewrite notifications_app, IH.
  unfold on_load. destruct (includes TARGET_SUBSTR _); [| reflexivity].
  destruct body as [json |]; [| reflexivity].
  change (notifications (ConsoleLog "[HOOK] Captured XHR" :: analyseAvailability tza cfg json))
    with (notifications (analyseAvailability tza cfg json)).
  destruct (analyse_no_days tza cfg json Hb) as [_ ->]. reflexivity.
Qed.

(** C7.  A response whose body is not JSON, or is JSON without a
    [ScheduleDays] array, never makes the hook send the notification
    request, through [fetch] or through [XMLHttpRequest], whatever the
    page context holds; and [hasSlots] is false on such JSON. *)
Theorem unusable_body_never_notifies (tza : Z) (w : Window) (url : string)
    (body : option JSON) :
  unusable body ->
  notifications (run_fetch tza (w_fetch w) url body) = 0%nat
  /\ notifications (run_xhr tza w url body) = 0%nat
  /\ (forall cfg json, body = Some json -> hasSlots tza cfg json = false).
Proof.
  intros Hb. split; [| split].
  - now apply run_fetch_unusable.
  - unfold run_xhr. now apply fire_load_unusable.
  - intros cfg json ->. now destruct (analyse_no_days tza cfg json Hb).
Qed.

(** A matching response without a [ScheduleDays] field, in a context that
    holds the hook. *)
Lemma unusable_body_never_notifies_witness :
  let cfg := {| js_NOTIFY_URL := "N"; js_REFRESH_URL := "R";
                START_DATE := ""; END_DATE := "" |} in
  notifications
    (run_fetch 0 (w_fetch (hook_js cfg fresh_window)) TARGET_SUBSTR
       (Some (JObj [("error", JStr "busy")]))) = 0%nat.
Proof.
  exact (proj1 (unusable_body_never_notifies 0
                  (hook_js {| js_NOTIFY_URL := "N"; js_REFRESH_URL := "R";
                              START_DATE := ""; END_DATE := "" |} fresh_window)
                  TARGET_SUBSTR (Some (JObj [("error", JStr "busy")])) eq_refl)).
Defined.

(** C9.  When one of [start_date], [end_date] is a non-empty string and
    the other is empty or absent, the hook does not filter: [hasSlots] is
    true iff [ScheduleDays] is a non-empty array, as with both unset. *)
Theorem one_sided_range_is_unfiltered (env : Env) (prefs : gmap string string)
    (tza : Z) (json : JSON) (date : string) :
  date <> "" ->
  (prefs !! "start_date" = Some date /\ default "" (prefs !! "end_date") = "")
  \/ (prefs !! "end_date" = Some date /\ default "" (prefs !! "start_date") = "") ->
  hasSlots tza (hook_config env (Some prefs)) json
  = match ScheduleDays json with
    | Some days => (0 <? length days)%nat
    | None => false
    end
  /\ hasSlots tza (hook_config env (Some prefs)) json
     = hasSlots tza (hook_config env None) json.
Proof.
  intros Hdate Hone.
  assert (Hoff : str_truthy (START_DATE (hook_config env (Some prefs)))
                 && str_truthy (END_DATE (hook_config env (Some prefs))) = false).
  { unfold hook_config. cbn [START_DATE END_DATE].
    destruct Hone as [[_ ->] | [_ ->]]; [apply andb_false_r | reflexivity]. }
  rewrite (hasSlots_unfiltered _ _ _ Hoff). split; [reflexivity |].
  now rewrite hasSlots_unfiltered by reflexivity.
Qed.

(** Only a start date on disk: a day outside any plausible range still
    counts. *)
Lemma one_sided_range_is_unfiltered_witness :
  hasSlots 0 (hook_config quiet_env (Some {[ "start_date" := "2025-03-01" ]}))
    (JObj [("ScheduleDays", JArr [JObj [("Date", JStr "1999-01-01")]])])
  = true.
Proof.
  rewrite (proj1 (one_sided_range_is_unfiltered quiet_env
                    {[ "start_date" := "2025-03-01" ]} 0
                    (JObj [("ScheduleDays", JArr [JObj [("Date", JStr "1999-01-01")]])])
                    "2025-03-01"
                    ltac:(discriminate)
                    ltac:(left; split; reflexivity))).
  reflexivity.
Defined.

(* ===================================================================== *)
(** * Proofs: installing the hook                                         *)
(* ===================================================================== *)

Lemma hook_js_installed cfg w : APPT_HOOK_INSTALLED w = true -> hook_js cfg w = w.
Proof. intros H. unfold hook_js. now rewrite H. Qed.

Lemma hook_js_sets_flag cfg w : APPT_HOOK_INSTALLED (hook_js cfg w) = true.
Proof. unfold hook_js. destruct (APPT_HOOK_INSTALLED w) eqn:E; [exact E | reflexivity]. Qed.

Lemma install_all_installed cfgs w :
  APPT_HOOK_INSTALLED w = true -> install_all cfgs w = w.
Proof.
  intros H. unfold install_all. induction cfgs as [| cfg cfgs IH]; [reflexivity |].
  cbn [fold_left]. now rewrite hook_js_installed.
Qed.

Lemma hook_js_well_hooked cfg w : well_hooked w -> well_hooked (hook_js cfg w).
Proof.
  intros [(Hf & H1 & H2) | (Hf & H1 & H2)]; unfold hook_js; rewrite Hf.
  - right. cbn. rewrite H1, H2. auto.
  - right. auto.
Qed.

Lemma fresh_window_well_hooked : well_hooked fresh_window.
Proof. left. repeat split. Qed.

(** A round of the supervisor keeps the page context well hooked. *)
Lemma inject_fetch_hook_well_hooked env st :
  well_hooked (window st) ->
  well_hooked (window (final (inject_fetch_hook env st))).
Proof.
  intros Hw. unfold inject_fetch_hook, load_slot_prefs, bind, get_state, ask,
    set_window, ret, print, emit.
  destruct (slot_prefs_file st); cbv beta iota;
    match goal with
    | |- context [page_evaluate_hook env ?t] => destruct (page_evaluate_hook env t)
    end; cbn [final window]; auto using hook_js_well_hooked.
Qed.

Lemma ensure_fetch_hook_well_hooked env rounds interval st :
  well_hooked (window st) ->
  well_hooked (window (final (_ensure_fetch_hook env rounds interval st))).
Proof.
  revert st. induction rounds as [| rounds IH]; intros st Hw; [exact Hw |].
  cbn [_ensure_fetch_hook]. unfold bind at 1, try_except.
  pose proof (inject_fetch_hook_well_hooked env st Hw) as Hi.
  destruct (inject_fetch_hook env st) as [[[] | e] st1 evs1]; cbn [final] in Hi.
  - unfold bind, sleep, emit. cbv beta iota.
    specialize (IH st1 Hi).
    destruct (_ensure_fetch_hook env rounds interval st1) as [r st2 evs2].
    exact IH.
  - destruct (is_Exception e); [| exact Hi].
    unfold bind, sleep, print, emit. cbv beta iota.
    specialize (IH st1 Hi).
    destruct (_ensure_fetch_hook env rounds interval st1) as [r st2 evs2].
    exact IH.
Qed.

(** X20.  Evaluating the hook script in a context that already holds the
    hook changes nothing.  So however often it is evaluated in a fresh
    context, the context holds one hook, installed by the first
    evaluation; a response to [fetch], or to a request made on a new
    request object, makes that one instance act once when its URL
    matches, and the notification request is sent at most once; and the
    supervisor keeps at most one hook in the context, round after round. *)
Theorem hook_install_idempotent (tza : Z) (first again : HookConfig)
    (more : list HookConfig) (w : Window) (url : string) (body : option JSON)
    (env : Env) (rounds : nat) (file : PrefsFile) :
  hook_js again (hook_js first w) = hook_js first w
  /\ install_all (first :: more) fresh_window = hook_js first fresh_window
  /\ fetch_hooks (w_fetch (install_all (first :: more) fresh_window)) = 1%nat
  /\ send_hooks (w_send (install_all (first :: more) fresh_window)) = 1%nat
  /\ run_fetch tza (w_fetch (install_all (first :: more) fresh_window)) url body
     = (if includes TARGET_SUBSTR url then one_fetch_hook tza first body else [])
  /\ run_xhr tza (install_all (first :: more) fresh_window) url body
     = (if includes TARGET_SUBSTR url then one_xhr_hook tza first body else [])
  /\ (notifications
        (run_fetch tza (w_fetch (install_all (first :: more) fresh_window)) url body)
      <= 1)%nat
  /\ (notifications
        (run_xhr tza (install_all (first :: more) fresh_window) url body) <= 1)%nat
  /\ well_hooked
       (window (final (_ensure_fetch_hook env rounds 3 (initial_state file)))).
Proof.
  assert (Hall : install_all (first :: more) fresh_window = hook_js first fresh_window).
  { unfold install_all. cbn [fold_left].
    apply (install_all_installed more), hook_js_sets_flag. }
  rewrite Hall.
  assert (Hf : run_fetch tza (w_fetch (hook_js first fresh_window)) url body
               = (if includes TARGET_SUBSTR url then one_fetch_hook tza first body else [])).
  { reflexivity. }
  assert (Hx : run_xhr tza (hook_js first fresh_window) url body
               = (if includes TARGET_SUBSTR url then one_xhr_hook tza first body else [])).
  { unfold run_xhr, xhr_request, fire_load, on_load, one_xhr_hook.
    cbn [hook_js fresh_window APPT_HOOK_INSTALLED w_open w_send run_open run_send
         new_XHR hooked_url load_listeners app List.map concat].
    now rewrite app_nil_r. }
  split; [apply hook_js_installed, hook_js_sets_flag |].
  split; [reflexivity |]. split; [reflexivity |]. split; [reflexivity |].
  split; [exact Hf |]. split; [exact Hx |]. split; [| split].
  - rewrite Hf. destruct (includes TARGET_SUBSTR url); [| cbn; lia].
    unfold one_fetch_hook. destruct body as [json |]; [| cbn; lia].
    change (notifications (ConsoleLog "[HOOK] Captured fetch" :: analyseAvailability tza first json))
      with (notifications (analyseAvailability tza first json)).
    rewrite notifications_analyse. destruct (hasSlots tza first json); lia.
  - rewrite Hx. destruct (includes TARGET_SUBSTR url); [| cbn; lia].
    unfold one_xhr_hook. destruct body as [json |]; [| cbn; lia].
    change (notifications (ConsoleLog "[HOOK] Captured XHR" :: analyseAvailability tza first json))
      with (notifications (analyseAvailability tza first json)).
    rewrite notifications_analyse. destruct (hasSlots tza first json); lia.
  - apply ensure_fetch_hook_well_hooked, fresh_window_well_hooked.
Qed.

(** C2, where the code departs from it.  In a context that holds one hook,
    the script evaluated twice, a request object serves two requests for
    the schedule days, one after the other.  [send] adds a [load] listener
    each time, so the second response is analysed by two listeners: it
    sends two notifications and schedules two reloads. *)
Theorem reused_request_object_acts_twice :
  let cfg := {| js_NOTIFY_URL := "N"; js_REFRESH_URL := "R";
                START_DATE := ""; END_DATE := "" |} in
  let w := hook_js cfg (hook_js cfg fresh_window) in
  let body := Some (JObj [("ScheduleDays", JArr [JObj [("Date", JStr "2025-03-10")]])]) in
  let first := xhr_request w TARGET_SUBSTR new_XHR in
  let second := xhr_request w TARGET_SUBSTR first in
  fetch_hooks (w_fetch w) = 1%nat
  /\ send_hooks (w_send w) = 1%nat
  /\ notifications (fire_load 0 first body) = 1%nat
  /\ load_listeners second = [cfg; cfg]
  /\ notifications (fire_load 0 second body) = 2%nat
  /\ refreshes (fire_load 0 second body) = [(300000, "R"); (300000, "R")].
Proof.
  cbv zeta. split; [reflexivity |]. split; [reflexivity |].
  split; [vm_compute; reflexivity |]. split; [reflexivity |].
  split; vm_compute; reflexivity.
Qed.

(* ===================================================================== *)
(** * Proofs: runs of the driver                                          *)
(* ===================================================================== *)

Lemma pacing_app p a b : pacing p (a ++ b) = pacing p a ++ pacing p b.
Proof. unfold pacing. apply List.filter_app. Qed.

Lemma count_app p a b : count p (a ++ b) = (count p a + count p b)%nat.
Proof. unfold count. rewrite List.filter_app. apply length_app. Qed.

Section Solver.
Variable env : Env.
Variable data_url : string.

(** One round of the solver: a request alone when the round ends the
    function, a request and its backoff delay when another round follows. *)
Lemma solve_round_pacing attempt st :
  let r := solve_round env data_url attempt st in
  (pacing is_request (events r) = [OpenAIRequest data_url]
   /\ result r <> Ok None
   /\ (result r = Ok (Some None) -> (attempt <? MAX_RETRIES - 1)%nat = false))
  \/ (pacing is_request (events r)
        = [OpenAIRequest data_url; Sleep (RETRY_DELAY_SECONDS * Z.of_nat (S attempt))]
      /\ result r = Ok None
      /\ (attempt <? MAX_RETRIES - 1)%nat = true).
Proof.
  unfold solve_round.
  destruct (attempt <? MAX_RETRIES - 1)%nat eqn:E;
    unfold try_except, bind, ask, print, emit, ret, sleep; simpl;
    destruct (openai_create env (clock st) data_url) as [text | e]; simpl;
    try destruct (is_Exception e); simpl.
  all: try (left; repeat split; congruence).
  - right. repeat split.
    replace (Z.of_nat (S attempt)) with (Z.of_nat attempt + 1) by lia. reflexivity.
Qed.

(** The rounds from [start] on, when [count] rounds remain. *)
Lemma solve_loop_pacing count start st :
  (start + count = MAX_RETRIES)%nat ->
  let r := for_range count start (solve_round env data_url) st in
  exists n,
    (n <= count)%nat
    /\ (count <> 0%nat -> n <> 0%nat)
    /\ pacing is_request (events r) = backoff_schedule data_url n (S start)
    /\ (result r = Ok None -> count = 0%nat)
    /\ (result r = Ok (Some None) -> n = count).
Proof.
  revert start st. induction count as [| count IH]; intros start st Hsum;
    cbv zeta; cbn [for_range].
  - exists 0%nat. cbn. repeat split; try lia; try congruence.
  - unfold bind.
    pose proof (solve_round_pacing start st) as Hround. cbv zeta in Hround.
    destruct (solve_round env data_url start st) as [res st1 evs1].
    cbn [result events final] in Hround.
    destruct Hround as [(Hp & Hne & Hlast) | (Hp & Hres & Hlt)].
    + exists 1%nat.
      destruct res as [[answer |] | e]; cbn [ret result events]; try congruence.
      * rewrite app_nil_r, Hp. repeat split; try lia; try congruence.
        intros Hr. inversion Hr; subst.
        specialize (Hlast eq_refl). apply Nat.ltb_ge in Hlast.
        unfold MAX_RETRIES in *. lia.
      * rewrite Hp. repeat split; try lia; congruence.
    + subst res. apply Nat.ltb_lt in Hlt.
      assert (Hc : count <> 0%nat) by (unfold MAX_RETRIES in *; lia).
      destruct (IH (S start) st1 ltac:(lia)) as (n & Hn & Hnz & Hpn & Hr1 & Hr2).
      destruct (for_range count (S start) (solve_round env data_url) st1)
        as [res2 st2 evs2]. cbn [result events] in *.
      specialize (Hnz Hc).
      exists (S n). rewrite pacing_app, Hp, Hpn.
      repeat split; try lia.
      * simpl. destruct n; [congruence | reflexivity].
      * intros Hr. apply Hr1 in Hr. congruence.
      * intros Hr. f_equal. auto.
Qed.
End Solver.

(** Unfolding the monad, and case analysis on what the outside answers. *)
Ltac run_step :=
  unfold bind, try_except, ask, print, sleep, emit, ret, raise, get_state,
    set_registry, set_prefs_file, set_window;
  cbv beta iota;
  cbn [result final events clock attempt_registry slot_prefs_file window].

Ltac split_on_answers :=
  repeat (run_step;
          match goal with
          | |- context [match ?x with Ok _ => _ | Raise _ => _ end] =>
              lazymatch x with
              | context [match _ with _ => _ end] => fail
              | _ => destruct x eqn:?
              end
          | |- context [match ?x with Some _ => _ | None => _ end] =>
              lazymatch x with
              | context [match _ with _ => _ end] => fail
              | _ => destruct x eqn:?
              end
          | |- context [if ?c then _ else _] =>
              lazymatch c with
              | context [match _ with _ => _ end] => fail
              | _ => destruct c eqn:?
              end
          end).

(** Case analysis on a run, with the property kept folded meanwhile. *)
Ltac fold_property :=
  let r := fresh "r" in
  intros r; pattern r;
  lazymatch goal with |- ?P r => set (Property := P) end;
  subst r.

Ltac by_cases_on_run :=
  split_on_answers;
  lazymatch goal with Q := _ |- _ => subst Q end;
  cbv beta; cbn [result final events].

Section Extractor.
Variable env : Env.

(** One round of the extractor: a poll and the retry delay when the loop
    goes on, a poll alone when the round ends the function or, after a
    failure, the loop. *)
Lemma extract_round_pacing attempt st :
  let r := extract_round env attempt st in
  (pacing is_captcha_poll (events r) = [PageSelect "#captchaImage"; Sleep RETRY_DELAY_SECONDS]
   /\ result r = Ok None)
  \/ (pacing is_captcha_poll (events r) = [PageSelect "#captchaImage"]
      /\ (result r = Ok None -> (MAX_RETRIES <= S attempt)%nat)).
Proof.
  fold_property. unfold extract_round, extract_try.
  by_cases_on_run;
    try (left; split; reflexivity);
    right; (split; [reflexivity |]); try discriminate.
  all: intros _; match goal with H : (_ <? _)%nat = false |- _ => apply Nat.ltb_ge in H end;
    unfold MAX_RETRIES in *; lia.
Qed.

(** The rounds from [start] on, when [count] rounds remain. *)
Lemma extract_loop_pacing count start st :
  (start + count = MAX_RETRIES)%nat ->
  let r := for_range count start (extract_round env) st in
  exists n,
    (n <= count)%nat
    /\ (pacing is_captcha_poll (events r) = poll_schedule n
        \/ exists n', n = S n'
             /\ pacing is_captcha_poll (events r) = poll_schedule n' ++ [PageSelect "#captchaImage"])
    /\ (result r = Ok None -> n = count).
Proof.
  revert start st. induction count as [| count IH]; intros start st Hsum;
    cbv zeta; cbn [for_range].
  - exists 0%nat. cbn. repeat split; auto.
  - unfold bind.
    pose proof (extract_round_pacing start st) as Hround. cbv zeta in Hround.
    destruct (extract_round env start st) as [res st1 evs1].
    cbn [result events final] in Hround.
    destruct Hround as [(Hp & Hres) | (Hp & Hlast)].
    + subst res.
      destruct (IH (S start) st1 ltac:(lia)) as (n & Hn & Hpn & Hr).
      destruct (for_range count (S start) (extract_round env) st1)
        as [res2 st2 evs2]. cbn [result events] in *.
      exists (S n). rewrite pacing_app, Hp. repeat split; try lia.
      * destruct Hpn as [-> | (n' & -> & ->)]; [left; reflexivity |].
        right. exists (S n'). split; reflexivity.
      * intros Hr2. f_equal. auto.
    + exists 1%nat. split; [lia |].
      destruct res as [[data_url |] | e]; cbn [ret result events].
      * rewrite app_nil_r, Hp. split; [right; exists 0%nat; split; reflexivity |].
        discriminate.
      * specialize (Hlast eq_refl).
        assert (count = 0%nat) by (unfold MAX_RETRIES in *; lia). subst count.
        cbn [for_range ret result events]. rewrite app_nil_r, Hp.
        split; [right; exists 0%nat; split; reflexivity | reflexivity].
      * rewrite Hp. split; [right; exists 0%nat; split; reflexivity | discriminate].
Qed.
End Extractor.

Lemma count_pacing p evs : count p (pacing p evs) = count p evs.
Proof.
  unfold count, pacing. induction evs as [| ev evs IH]; [reflexivity |].
  cbn [List.filter]. destruct (p ev) eqn:E; cbn [orb].
  - cbn [List.filter]. rewrite E. cbn [length]. now rewrite IH.
  - destruct (is_sleep ev); [cbn [List.filter]; rewrite E |]; exact IH.
Qed.

Lemma count_poll_schedule n : count is_captcha_poll (poll_schedule n) = n.
Proof. induction n as [| n IH]; [reflexivity |]. unfold count in *. cbn. now rewrite IH. Qed.

Lemma count_backoff_schedule u n first : count is_request (backoff_schedule u n first) = n.
Proof.
  revert first. induction n as [| n IH]; intros first; [reflexivity |].
  destruct n as [| n]; [reflexivity |].
  specialize (IH (S first)). unfold count in *.
  cbn [backoff_schedule List.filter is_request is_sleep length] in *. now rewrite IH.
Qed.

(** C5.  The extractor polls for the captcha image at most [MAX_RETRIES]
    times, each poll but possibly the last followed by a delay of
    [RETRY_DELAY_SECONDS], and when it returns [None] it has polled
    exactly [MAX_RETRIES] times.  The solver sends at most [MAX_RETRIES]
    requests, with a delay of [RETRY_DELAY_SECONDS * k] between the [k]-th
    request and the next, and when it returns [None] with an API key set
    it has sent exactly [MAX_RETRIES] requests. *)
Theorem bounded_retries (env : Env) (st : State) (data_url : string) :
  (exists n,
      (n <= MAX_RETRIES)%nat
      /\ count is_captcha_poll (events (_extract_captcha_data_url env st)) = n
      /\ (pacing is_captcha_poll (events (_extract_captcha_data_url env st))
            = poll_schedule n
          \/ exists n', n = S n'
               /\ pacing is_captcha_poll (events (_extract_captcha_data_url env st))
                  = poll_schedule n' ++ [PageSelect "#captchaImage"])
      /\ (result (_extract_captcha_data_url env st) = Ok None -> n = MAX_RETRIES))
  /\ (exists n,
         (n <= MAX_RETRIES)%nat
         /\ count is_request (events (_solve_captcha_with_openai env data_url st)) = n
         /\ pacing is_request (events (_solve_captcha_with_openai env data_url st))
            = backoff_schedule data_url n 1
         /\ (result (_solve_captcha_with_openai env data_url st) = Ok None ->
             truthy (OPENAI_API_KEY env) = true -> n = MAX_RETRIES)).
Proof.
  split.
  - destruct (extract_loop_pacing env MAX_RETRIES 0 st eq_refl) as (n & Hn & Hp & Hr).
    unfold _extract_captcha_data_url, bind.
    destruct (for_range MAX_RETRIES 0 (extract_round env) st) as [res st1 evs1].
    cbn [result events] in *.
    assert (Hc : count is_captcha_poll evs1 = n).
    { rewrite <- count_pacing.
      destruct Hp as [-> | (n' & -> & ->)]; [apply count_poll_schedule |].
      rewrite count_app, count_poll_schedule. cbn. lia. }
    exists n.
    destruct res as [[u |] | e]; run_step; rewrite ?pacing_app, ?count_app, ?app_nil_r;
      cbn [pacing count List.filter is_captcha_poll is_sleep orb length];
      rewrite ?app_nil_r, ?Nat.add_0_r; repeat split; auto; discriminate.
  - unfold _solve_captcha_with_openai.
    destruct (truthy (OPENAI_API_KEY env)) eqn:Ekey; cbn [negb].
    + destruct (solve_loop_pacing env data_url MAX_RETRIES 0 st eq_refl)
        as (n & Hn & _ & Hp & Hr0 & Hr).
      run_step.
      destruct (for_range MAX_RETRIES 0 (solve_round env data_url) st) as [res st1 evs1].
      cbn [result events] in *.
      assert (Hc : count is_request evs1 = n).
      { rewrite <- count_pacing, Hp. apply count_backoff_schedule. }
      exists n.
      destruct res as [[answer |] | e]; run_step; rewrite ?app_nil_r;
        change (SolveCall data_url :: evs1) with ([SolveCall data_url] ++ evs1);
        rewrite ?pacing_app, ?count_app;
        cbn [pacing count List.filter is_request is_sleep orb length app];
        repeat split; auto.
      * intros Ha _. inversion Ha; subst. auto.
      * intros _ _. specialize (Hr0 eq_refl). discriminate.
      * discriminate.
    + exists 0%nat. run_step. cbn. repeat split; try lia; discriminate.
Qed.

(* ===================================================================== *)
(** * Proofs: the attempt registry                                        *)
(* ===================================================================== *)

Section Quiet.
Variable p : Event -> bool.

Lemma quiet_ret {A} (a : A) : quiet p (ret a).
Proof. intros st. split; reflexivity. Qed.

Lemma quiet_emit ev : p ev = false -> quiet p (emit ev).
Proof. intros H st. split; [reflexivity |]. unfold count. cbn. now rewrite H. Qed.

Lemma quiet_ask {A} ev (answer : nat -> Res A) : p ev = false -> quiet p (ask ev answer).
Proof. intros H st. split; [reflexivity |]. unfold count. cbn. now rewrite H. Qed.

Lemma quiet_get_state : quiet p get_state.
Proof. intros st. split; reflexivity. Qed.

Lemma quiet_bind {A B} (m : M A) (k : A -> M B) :
  quiet p m -> (forall a, quiet p (k a)) -> quiet p (bind m k).
Proof.
  intros Hm Hk st. unfold bind. destruct (Hm st) as [H1 H2].
  destruct (m st) as [[a | e] st1 evs1]; cbn [final events] in *; [| auto].
  destruct (Hk a st1) as [H3 H4].
  destruct (k a st1) as [r st2 evs2]; cbn [final events] in *.
  split; [congruence |]. rewrite count_app. lia.
Qed.

Lemma quiet_try_except {A} (m : M A) caught (handler : M A) :
  quiet p m -> quiet p handler -> quiet p (try_except m caught handler).
Proof.
  intros Hm Hh st. unfold try_except. destruct (Hm st) as [H1 H2].
  destruct (m st) as [[a | e] st1 evs1]; cbn [final events] in *; [auto |].
  destruct (caught e); [| auto].
  destruct (Hh st1) as [H3 H4].
  destruct (handler st1) as [r st2 evs2]; cbn [final events] in *.
  split; [congruence |]. rewrite count_app. lia.
Qed.

Lemma quiet_for_range {A} count start (body : nat -> M (option A)) :
  (forall i, quiet p (body i)) -> quiet p (for_range count start body).
Proof.
  intros Hb. revert start. induction count as [| count IH]; intros start.
  - apply quiet_ret.
  - cbn [for_range]. apply quiet_bind; [apply Hb |].
    intros [a |]; [apply quiet_ret | apply IH].
Qed.
End Quiet.

Ltac quiet_step :=
  first
    [ apply quiet_ret
    | apply quiet_get_state
    | apply quiet_emit; reflexivity
    | apply quiet_ask; reflexivity
    | apply quiet_for_range; intro
    | apply quiet_try_except
    | apply quiet_bind; [| intro]
    | match goal with
      | |- quiet _ (match ?x with _ => _ end) => destruct x
      end ].

Ltac quiet_tac := unfold print, sleep; repeat quiet_step.

(** The extractor neither calls the solver nor sends a request. *)
Lemma extract_quiet_solve_call env u : quiet (is_solve_call u) (_extract_captcha_data_url env).
Proof. unfold _extract_captcha_data_url, extract_round, extract_try. quiet_tac. Qed.

Lemma extract_quiet_request env : quiet is_request (_extract_captcha_data_url env).
Proof. unfold _extract_captcha_data_url, extract_round, extract_try. quiet_tac. Qed.

(** A call of the solver leaves the registry alone and is one solver call,
    for its own image. *)
Lemma solve_one_call env u data_url st :
  attempt_registry (final (_solve_captcha_with_openai env data_url st))
  = attempt_registry st
  /\ count (is_solve_call u) (events (_solve_captcha_with_openai env data_url st))
     = (if String.eqb data_url u then 1 else 0)%nat.
Proof.
  unfold _solve_captcha_with_openai.
  match goal with
  | |- context [bind (emit _) (fun _ => ?rest)] =>
      assert (Hq : quiet (is_solve_call u) rest)
        by (unfold solve_round; quiet_tac);
      set (program := rest) in *
  end.
  unfold bind, emit. destruct (Hq st) as [H1 H2].
  destruct (program st) as [r st1 evs1].
  cbn [final events] in *. split; [exact H1 |].
  rewrite count_app, H2. unfold count. cbn [List.filter is_solve_call].
  destruct (String.eqb data_url u); reflexivity.
Qed.

Lemma count_cons p ev evs :
  count p (ev :: evs) = ((if p ev then 1 else 0) + count p evs)%nat.
Proof. unfold count. cbn [List.filter]. destruct (p ev); reflexivity. Qed.

Lemma count_nil p : count p [] = 0%nat.
Proof. reflexivity. Qed.

(** One attempt: the registry count of an image grows by the solver calls
    made for it, at most one, and none once the count is [MAX_RETRIES]. *)
Lemma attempt_step env u st :
  let r := attempt_captcha_solve env st in
  recorded_attempts (final r) u
  = (recorded_attempts st u + count (is_solve_call u) (events r))%nat
  /\ ((MAX_RETRIES <= recorded_attempts st u)%nat ->
      count (is_solve_call u) (events r) = 0%nat)
  /\ (count (is_solve_call u) (events r) <= 1)%nat.
Proof.
  fold_property. unfold attempt_captcha_solve. unfold bind at 1.
  destruct (extract_quiet_solve_call env u st) as [Hreg Hcnt].
  destruct (_extract_captcha_data_url env st) as [[data_url | e] st1 evs1];
    cbn [final events] in Hreg, Hcnt.
  2: { subst Property. cbn [final events]. unfold recorded_attempts.
       rewrite Hreg, Hcnt. split; [lia | split; [auto | lia]]. }
  destruct (negb (truthy data_url)) eqn:Etruthy.
  { subst Property. unfold ret. cbn [final events]. unfold recorded_attempts.
    rewrite app_nil_r, Hreg, Hcnt. split; [lia | split; [auto | lia]]. }
  split_on_answers.
  all: try match goal with
       | |- context [_solve_captcha_with_openai ?env ?d ?s] =>
           let H1 := fresh "Hsreg" in
           let H2 := fresh "Hscnt" in
           destruct (solve_one_call env u d s) as [H1 H2];
           let r := fresh "sres" in let s' := fresh "sst" in let ev := fresh "sevs" in
           destruct (_solve_captcha_with_openai env d s) as [r s' ev];
           cbn [final events attempt_registry] in H1, H2
       end.
  all: split_on_answers.
  all: subst Property; cbv beta; cbn [result final events attempt_registry].
  all: unfold recorded_attempts; cbn [attempt_registry].
  all: rewrite ?Hsreg, <- ?Hreg.
  all: rewrite ?count_app, ?count_cons, ?count_nil; cbn [is_solve_call];
       rewrite ?Hcnt, ?Hscnt.
  all: cbn [from_option id] in *.
  all: repeat match goal with
       | H : (_ <=? _)%nat = true |- _ => apply Nat.leb_le in H
       | H : (_ <=? _)%nat = false |- _ => apply Nat.leb_gt in H
       end.
  all: rewrite ?lookup_empty in *; cbn [from_option id] in *.
  all: try (destruct (String.eqb_spec (default "" data_url) u) as [Heq | Hne];
            [ rewrite ?Heq in *; rewrite ?lookup_insert_eq
            | rewrite ?lookup_insert_ne by exact Hne ]).
  all: rewrite ?lookup_empty; cbn [from_option id]; unfold MAX_RETRIES in *.
  all: split; [lia | split; [intros; lia | lia]].
Qed.

(** Over any number of rounds the registry count keeps track of the solver
    calls and stays within [MAX_RETRIES]. *)
Lemma captcha_rounds_calls env u n st :
  let r := captcha_rounds env n st in
  recorded_attempts (final r) u
  = (recorded_attempts st u + count (is_solve_call u) (events r))%nat
  /\ ((recorded_attempts st u <= MAX_RETRIES)%nat ->
      (recorded_attempts (final r) u <= MAX_RETRIES)%nat).
Proof.
  revert st. induction n as [| n IH]; intros st; cbv zeta.
  - cbn. split; [lia | auto].
  - cbn [captcha_rounds]. unfold bind.
    destruct (attempt_step env u st) as (Hrec & Hcap & Hone).
    destruct (attempt_captcha_solve env st) as [[b | e] st1 evs1];
      cbn [final events] in *.
    + destruct (IH st1) as (Hrec' & Hcap').
      destruct (captcha_rounds env n st1) as [r st2 evs2]; cbn [final events] in *.
      rewrite count_app. split; [lia |].
      intros Hle. apply Hcap'. rewrite Hrec.
      destruct (Nat.le_gt_cases MAX_RETRIES (recorded_attempts st u)) as [Hfull | Hroom].
      * rewrite (Hcap Hfull). lia.
      * lia.
    + split; [exact Hrec |]. intros Hle. rewrite Hrec.
      destruct (Nat.le_gt_cases MAX_RETRIES (recorded_attempts st u)) as [Hfull | Hroom].
      * rewrite (Hcap Hfull). lia.
      * lia.
Qed.

(** With [MAX_RETRIES] attempts recorded for the extracted image, the
    attempt stops before the solver. *)
Lemma attempt_refused env u st :
  (MAX_RETRIES <= recorded_attempts st u)%nat ->
  result (_extract_captcha_data_url env st) = Ok (Some u) ->
  let r := attempt_captcha_solve env st in
  count is_request (events r) = 0%nat
  /\ count (is_solve_call u) (events r) = 0%nat
  /\ (forall b, result r = Ok b -> b = false)
  /\ attempt_registry (final r) = attempt_registry st.
Proof.
  intros Hfull Hres. fold_property.
  unfold attempt_captcha_solve. unfold bind at 1.
  destruct (extract_quiet_solve_call env u st) as [Hreg Hcnt].
  destruct (extract_quiet_request env st) as [_ Hreq].
  destruct (_extract_captcha_data_url env st) as [res st1 evs1].
  cbn [result final events] in *. subst res.
  unfold recorded_attempts in Hfull. rewrite <- Hreg in Hfull.
  split_on_answers.
  all: cbn [from_option id] in *.
  all: repeat match goal with
       | H : (_ <=? _)%nat = true |- _ => apply Nat.leb_le in H
       | H : (_ <=? _)%nat = false |- _ => apply Nat.leb_gt in H
       end.
  all: try match goal with
       | H : attempt_registry _ = Some _ |- _ => rewrite H in Hfull
       | H : attempt_registry _ = None |- _ => rewrite H in Hfull
       end.
  all: cbn [from_option id] in *; rewrite ?lookup_empty in *; cbn [from_option id] in *.
  all: try (unfold MAX_RETRIES in *; lia).
  all: subst Property; cbv beta; cbn [result final events attempt_registry].
  all: rewrite ?count_app, ?count_cons, ?count_nil; cbn [is_solve_call is_request];
       rewrite ?Hcnt, ?Hreq.
  all: repeat split; try reflexivity; try congruence.
Qed.

(** C6.  Over any number of login rounds of one process, the solver is
    called at most [MAX_RETRIES] times for one image, and the registry
    counts these calls.  Once the registry holds [MAX_RETRIES] attempts
    for the image the extractor returns, the attempt ends without a call
    to the solver and without a request to the vision service, does not
    report success, and leaves the registry as it is. *)
Theorem per_image_attempt_cap (env : Env) (rounds : nat) (file : PrefsFile)
    (data_url : string) (st : State) :
  (MAX_RETRIES <= recorded_attempts st data_url)%nat ->
  result (_extract_captcha_data_url env st) = Ok (Some data_url) ->
  (count (is_solve_call data_url)
     (events (captcha_rounds env rounds (initial_state file))) <= MAX_RETRIES)%nat
  /\ recorded_attempts (final (captcha_rounds env rounds (initial_state file))) data_url
     = count (is_solve_call data_url)
         (events (captcha_rounds env rounds (initial_state file)))
  /\ count is_request (events (attempt_captcha_solve env st)) = 0%nat
  /\ count (is_solve_call data_url) (events (attempt_captcha_solve env st)) = 0%nat
  /\ (forall b, result (attempt_captcha_solve env st) = Ok b -> b = false)
  /\ attempt_registry (final (attempt_captcha_solve env st)) = attempt_registry st.
Proof.
  intros Hfull Hres.
  destruct (captcha_rounds_calls env data_url rounds (initial_state file))
    as [Hrec Hcap].
  change (recorded_attempts (initial_state file) data_url) with 0%nat in Hrec, Hcap.
  cbn [Nat.add] in Hrec.
  split; [rewrite <- Hrec; apply Hcap; lia |].
  split; [exact Hrec |].
  exact (attempt_refused env data_url st Hfull Hres).
Qed.

(** An image already tried five times: the sixth attempt is refused. *)
Lemma per_image_attempt_cap_witness :
  let data_url := "data:image/png;base64,QUJD" in
  let st := state_with_registry {[ data_url := 5%nat ]} in
  count is_request (events (attempt_captcha_solve (env_captcha "QUJD" "ABCDE") st)) = 0%nat
  /\ result (attempt_captcha_solve (env_captcha "QUJD" "ABCDE") st) = Ok false.
Proof.
  cbv zeta.
  assert (Hfull : (MAX_RETRIES
                   <= recorded_attempts
                        (state_with_registry {[ "data:image/png;base64,QUJD" := 5%nat ]})
                        "data:image/png;base64,QUJD")%nat)
    by (vm_compute; lia).
  assert (Hres : result (_extract_captcha_data_url (env_captcha "QUJD" "ABCDE")
                           (state_with_registry {[ "data:image/png;base64,QUJD" := 5%nat ]}))
                 = Ok (Some "data:image/png;base64,QUJD"))
    by (vm_compute; reflexivity).
  destruct (per_image_attempt_cap (env_captcha "QUJD" "ABCDE") 7 NoFile
              "data:image/png;base64,QUJD"
              (state_with_registry {[ "data:image/png;base64,QUJD" := 5%nat ]})
              Hfull Hres) as (_ & _ & H & _).
  split; [exact H | vm_compute; reflexivity].
Defined.

(** Six rounds on one image from a fresh process: five solver calls, then
    a refusal. *)
Example six_rounds_five_calls :
  count (is_solve_call "data:image/png;base64,QUJD")
    (events (captcha_rounds (env_captcha "QUJD" "") 6 (initial_state NoFile)))
  = 5%nat.
Proof. vm_compute. reflexivity. Qed.

(* ===================================================================== *)
(** * Proofs: page inspection and the top-level flow                      *)
(* ===================================================================== *)

(** A failing inspection makes [is_waiting_room] answer [False]. *)
Lemma is_waiting_room_swallows env st e :
  page_evaluate env (clock st) body_style_script = Raise e ->
  is_Exception e = true ->
  result (is_waiting_room env st) = Ok false
  /\ events (is_waiting_room env st) = [PageEvaluate body_style_script].
Proof.
  intros Hraise He. unfold is_waiting_room. run_step. rewrite Hraise.
  cbv beta iota. rewrite He. split; reflexivity.
Qed.

(** C8, as the code has it.  When the inspection of the body style fails
    with an exception of class [Exception], [is_waiting_room] swallows it
    and answers [False]: not a waiting room.  The waiting loop of [main]
    is left at once, with no delay and no second inspection, and the page
    is not classified as a waiting room. *)
Theorem inspection_failure_means_not_waiting_room (env : Env) (st : State)
    (e : exn) (fuel : nat) (msg : string) :
  page_evaluate env (clock st) body_style_script = Raise e ->
  is_Exception e = true ->
  result (is_waiting_room env st) = Ok false
  /\ events (is_waiting_room env st) = [PageEvaluate body_style_script]
  /\ result (wait_out_waiting_room env (S fuel) msg st) = Ok true
  /\ events (wait_out_waiting_room env (S fuel) msg st)
     = [PageEvaluate body_style_script]
  /\ result (classify env st) <> Ok WaitingRoom.
Proof.
  intros Hraise He.
  destruct (is_waiting_room_swallows env st e Hraise He) as [Hres Hev].
  split; [exact Hres |]. split; [exact Hev |].
  cbn [wait_out_waiting_room]. unfold classify, bind.
  destruct (is_waiting_room env st) as [res st1 evs1]. cbn [result events] in *.
  subst res evs1. unfold ret. cbn [result events].
  split; [reflexivity |]. split; [reflexivity |].
  destruct (is_login_required env st1) as [[[] | ] ? ?]; cbn; discriminate.
Qed.

(** Script evaluation fails: the waiting loop is left. *)
Lemma inspection_failure_means_not_waiting_room_witness :
  result (wait_out_waiting_room env_dom_failure 4 "waiting" (initial_state NoFile))
  = Ok true.
Proof.
  exact (proj1 (proj2 (proj2 (inspection_failure_means_not_waiting_room
                                env_dom_failure (initial_state NoFile)
                                (OtherException "ProtocolException") 3 "waiting"
                                eq_refl eq_refl)))).
Defined.

(** C8, as stated, fails: with every inspection failing, the page is taken
    not to be a waiting room, the loop ends after one inspection without
    sleeping, and the page is classified as the scheduling page. *)
Lemma inspection_failure_is_not_retried :
  result (is_waiting_room env_dom_failure (initial_state NoFile)) = Ok false
  /\ result (wait_out_waiting_room env_dom_failure 10 "waiting" (initial_state NoFile))
     = Ok true
  /\ count is_sleep
       (events (wait_out_waiting_room env_dom_failure 10 "waiting" (initial_state NoFile)))
     = 0%nat
  /\ events (wait_out_waiting_room env_dom_failure 10 "waiting" (initial_state NoFile))
     = [PageEvaluate body_style_script]
  /\ result (classify env_dom_failure (initial_state NoFile)) = Ok SchedulingPage.
Proof. vm_compute. repeat split; reflexivity. Qed.

Lemma truthy_and_includes needle s :
  needle <> "" ->
  truthy (Some s) && includes needle s = includes needle s.
Proof.
  intros Hn. destruct s; [| reflexivity].
  destruct needle; [congruence | reflexivity].
Qed.

(** C4, as the code has it.  [main] tests for the waiting room first: a
    page that shows the waiting-room background is a waiting room, and
    [main] keeps polling it, whatever its URL and inputs; only then does
    the identity-provider domain, and then a password input, make it a
    login challenge; else it is the scheduling page. *)
Theorem classification_checks_waiting_room_first (env : Env) (p : PageView)
    (st : State) :
  shows env p ->
  result (classify env st) = Ok (classify_waiting_room_first p)
  /\ (shows_waiting_room p = true -> result (classify env st) = Ok WaitingRoom)
  /\ (forall fuel msg, shows_waiting_room p = true ->
        result (wait_out_waiting_room env fuel msg st) = Ok false).
Proof.
  intros (Hurl & Hpwd & Hstyle).
  assert (Hwr : forall st', is_waiting_room env st'
                = MkRun (Ok (shows_waiting_room p))
                    {| clock := S (clock st');
                       attempt_registry := attempt_registry st';
                       slot_prefs_file := slot_prefs_file st';
                       window := window st' |}
                    [PageEvaluate body_style_script]).
  { intros st'. unfold is_waiting_room. run_step. rewrite Hstyle. cbv beta iota.
    unfold shows_waiting_room.
    destruct (view_body_style p) as [s |]; [| reflexivity].
    rewrite truthy_and_includes by discriminate.
    destruct (includes _ s); reflexivity. }
  assert (Hmain : result (classify env st) = Ok (classify_waiting_room_first p)).
  { unfold classify, bind. rewrite Hwr. unfold classify_waiting_room_first.
    destruct (shows_waiting_room p); [reflexivity |].
    unfold is_login_required. run_step. rewrite Hurl. cbv beta iota.
    unfold on_identity_provider.
    destruct (view_url p) as [u |].
    - rewrite truthy_and_includes by discriminate.
      destruct (includes "b2clogin.com" u); [reflexivity |].
      cbn [result final events clock]. rewrite Hpwd.
      destruct (view_password_input p); reflexivity.
    - cbn [truthy andb result final events clock]. rewrite Hpwd.
      destruct (view_password_input p); reflexivity. }
  split; [exact Hmain |]. split.
  - intros Hw. rewrite Hmain. unfold classify_waiting_room_first. now rewrite Hw.
  - intros fuel msg Hw. clear Hmain. revert st.
    induction fuel as [| fuel IH]; intros st; [reflexivity |].
    cbn [wait_out_waiting_room]. unfold bind. rewrite Hwr, Hw.
    unfold print, sleep, emit. cbv beta iota.
    specialize (IH {| clock := S (clock st);
                      attempt_registry := attempt_registry st;
                      slot_prefs_file := slot_prefs_file st;
                      window := window st |}).
    destruct (wait_out_waiting_room env fuel msg _) as [r st2 evs2].
    exact IH.
Qed.

(** [env_showing p] shows [p]. *)
Lemma env_showing_shows p : shows (env_showing p) p.
Proof.
  repeat split; intros t; cbn.
  - now destruct (view_password_input p).
Qed.

(** The login page that carries the waiting-room background. *)
Lemma classification_checks_waiting_room_first_witness :
  result (classify (env_showing login_page_in_waiting_room) (initial_state NoFile))
  = Ok WaitingRoom.
Proof.
  exact (proj1 (classification_checks_waiting_room_first
                  (env_showing login_page_in_waiting_room)
                  login_page_in_waiting_room (initial_state NoFile)
                  (env_showing_shows login_page_in_waiting_room))).
Defined.

(** C4, as stated, fails: a page on the identity provider, with a password
    input and the waiting-room background, is a login challenge by the
    stated order, and a waiting room for [main], which keeps polling and
    never looks at the URL or the password input. *)
Lemma login_page_in_waiting_room_is_waiting_room :
  on_identity_provider login_page_in_waiting_room = true
  /\ view_password_input login_page_in_waiting_room = true
  /\ shows_waiting_room login_page_in_waiting_room = true
  /\ classify_spec login_page_in_waiting_room = LoginChallenge
  /\ result (classify (env_showing login_page_in_waiting_room) (initial_state NoFile))
     = Ok WaitingRoom
  /\ result (main (env_showing login_page_in_waiting_room) 20 (initial_state NoFile))
     = Ok StillInWaitingRoom
  /\ count is_login_probe
       (events (main (env_showing login_page_in_waiting_room) 20 (initial_state NoFile)))
     = 0%nat.
Proof. vm_compute. repeat split; reflexivity. Qed.

















(** With preferences on disk nothing is asked and nothing is written. *)
Lemma main_slot_prefs_stored env st prefs :
  slot_prefs_file st = Stored prefs -> prefs <> ∅ ->
  main_slot_prefs env st = MkRun (Ok tt) st [].
Proof.
  intros Hfile Hne. unfold main_slot_prefs, load_slot_prefs. run_step.
  rewrite Hfile. cbv beta iota.
  rewrite (bool_decide_eq_false_2 _ Hne). reflexivity.
Qed.

Lemma empty_prefs_not_empty : empty_prefs <> ∅.
Proof. unfold empty_prefs. apply insert_non_empty. Qed.

(** X21.  On a first run, when [valid_date] rejects one of the two
    answers and the file can be written, the program asks no second time
    and stores empty strings for both dates; a later run that finds this
    file asks nothing, and the hook it configures does not filter. *)
Theorem rejected_date_saves_empty_prefs (env : Env) (st : State)
    (start_raw end_raw : string) (later_env : Env) (later : State) :
  slot_prefs_file st = NoFile ->
  console_input env (clock st) = Ok start_raw ->
  console_input env (S (clock st)) = Ok end_raw ->
  valid_date (unicode_decimal env) (strip start_raw)
  && valid_date (unicode_decimal env) (strip end_raw) = false ->
  write_prefs env (S (S (clock st))) = Ok tt ->
  slot_prefs_file later = slot_prefs_file (final (main_slot_prefs env st)) ->
  result (main_slot_prefs env st) = Ok tt
  /\ slot_prefs_file (final (main_slot_prefs env st)) = Stored empty_prefs
  /\ count is_input (events (main_slot_prefs env st)) = 2%nat
  /\ main_slot_prefs later_env later = MkRun (Ok tt) later []
  /\ START_DATE (hook_config later_env (Some empty_prefs)) = ""
  /\ END_DATE (hook_config later_env (Some empty_prefs)) = ""
  /\ (forall tza json,
        hasSlots tza (hook_config later_env (Some empty_prefs)) json
        = match ScheduleDays json with
          | Some days => (0 <? length days)%nat
          | None => false
          end).
Proof.
  intros Hfile Hstart Hend Hinvalid Hwrite Hlater.
  assert (Hrun : main_slot_prefs env st
                 = MkRun (Ok tt)
                     {| clock := S (S (S (clock st)));
                        attempt_registry := attempt_registry st;
                        slot_prefs_file := Stored empty_prefs;
                        window := window st |}
                     [Print "Please enter desired slot date range for notifications.";
                      Print "Use YYYY-MM-DD format. Leave blank to notify for any available slot.";
                      Input "Start date (YYYY-MM-DD): ";
                      Input "End date   (YYYY-MM-DD): ";
                      Print "[WARN] Invalid date format entered; saving empty date preferences (no filtering).";
                      WritePrefs;
                      Print "[INFO] Saved slot preferences"]).
  { unfold main_slot_prefs, load_slot_prefs, save_slot_prefs. run_step.
    rewrite Hfile. cbv beta iota. cbn [clock]. rewrite Hstart. cbv beta iota.
    cbn [clock]. rewrite Hend. cbv beta iota. rewrite Hinvalid.
    cbn [negb]. cbv beta iota. cbn [clock]. rewrite Hwrite. reflexivity. }
  rewrite Hrun in *. cbn [result final events slot_prefs_file] in *.
  split; [reflexivity |]. split; [reflexivity |]. split; [reflexivity |].
  split; [| repeat split].
  apply (main_slot_prefs_stored later_env later empty_prefs Hlater empty_prefs_not_empty).
Qed.

(** A start date that is no date at all. *)
Lemma rejected_date_saves_empty_prefs_witness :
  slot_prefs_file
    (final (main_slot_prefs (env_typing "next week" "2025-03-31") (initial_state NoFile)))
  = Stored empty_prefs.
Proof.
  exact (proj1 (proj2 (rejected_date_saves_empty_prefs
                         (env_typing "next week" "2025-03-31") (initial_state NoFile)
                         "next week" "2025-03-31" quiet_env
                         (final (main_slot_prefs (env_typing "next week" "2025-03-31")
                                   (initial_state NoFile)))
                         eq_refl eq_refl eq_refl eq_refl eq_refl eq_refl))).
Defined.

(** With a start date the engine cannot read, the hook keeps no day. *)
Lemma matches_unreadable_start tza cfg days :
  Date_parse tza (START_DATE cfg +:+ "T00:00:00") = None ->
  matches tza cfg days = [].
Proof.
  intros Hstart. unfold matches. rewrite Hstart.
  induction days as [| d days IH]; [reflexivity |].
  cbn [List.filter]. rewrite IH.
  assert (Hge : forall a, date_ge a None = false) by (intros [a |]; reflexivity).
  unfold in_range. destruct d; try reflexivity; now rewrite Hge.
Qed.

(** C10, where the code departs from it.  [2025-3-1] is not of the shape
    [YYYY-MM-DD], yet [strptime] reads it, whatever further digits the
    interpreter knows: the answer passes [valid_date] and is stored as
    typed, not as an empty string.  A later run finds the file and asks
    nothing; the hook it configures has a start date the engine cannot
    read, and reports no slot for any response. *)
Theorem unpadded_date_is_saved_as_typed :
  let env := env_typing "2025-3-1" "2025-03-31" in
  let first_run := main_slot_prefs env (initial_state NoFile) in
  let stored : gmap string string :=
    {[ "start_date" := "2025-3-1"; "end_date" := "2025-03-31" ]} in
  YYYY_MM_DD_format "2025-3-1" = false
  /\ str_truthy "2025-3-1" = true
  /\ (forall decimal, valid_date decimal "2025-3-1" = true)
  /\ slot_prefs_file (final first_run) = Stored stored
  /\ count is_input (events first_run) = 2%nat
  /\ main_slot_prefs env (final first_run) = MkRun (Ok tt) (final first_run) []
  /\ (forall tza json, hasSlots tza (hook_config env (Some stored)) json = false).
Proof.
  cbv zeta.
  split; [reflexivity |]. split; [reflexivity |]. split; [intros; reflexivity |].
  split; [vm_compute; reflexivity |]. split; [vm_compute; reflexivity |].
  split.
  - apply (main_slot_prefs_stored _ _
             {[ "start_date" := "2025-3-1"; "end_date" := "2025-03-31" ]});
      [vm_compute; reflexivity | apply insert_non_empty].
  - intros tza json.
    assert (Hcfg : START_DATE (hook_config (env_typing "2025-3-1" "2025-03-31")
                     (Some {[ "start_date" := "2025-3-1"; "end_date" := "2025-03-31" ]}))
                   = "2025-3-1") by (vm_compute; reflexivity).
    assert (Hend : END_DATE (hook_config (env_typing "2025-3-1" "2025-03-31")
                     (Some {[ "start_date" := "2025-3-1"; "end_date" := "2025-03-31" ]}))
                   = "2025-03-31") by (vm_compute; reflexivity).
    unfold hasSlots. rewrite Hcfg, Hend. cbn [str_truthy andb].
    destruct (ScheduleDays json) as [days |]; [| reflexivity].
    rewrite matches_unreadable_start; [reflexivity |]. now rewrite Hcfg.
Qed.

(** What [strptime] accepts and rejects. *)
Example strptime_examples :
  let strptime := strptime_Ymd unicode_14_decimal in
  strptime "2025-03-10" = Some (Civil 2025 3 10)
  /\ strptime "2025-3-1" = Some (Civil 2025 3 1)
  /\ strptime "2025-03- 5" = Some (Civil 2025 3 5)
  /\ strptime "2025-02-30" = None
  /\ strptime "2025-13-01" = None
  /\ strptime "2025-03-32" = None
  /\ strptime "0000-01-01" = None
  /\ strptime "10/03/2025" = None
  /\ strptime "2025-03-10 " = None
  /\ strip "  2025-03-10  " = "2025-03-10".
Proof. vm_compute. repeat split; reflexivity. Qed.

(** Text beyond ASCII at the prompt: [strip] removes a no-break space as
    it removes a blank, and [strptime] reads a full-width digit as a
    digit, which [Date.parse] does not. *)
Example text_beyond_ascii_examples :
  let typed := fullwidth_digit 2 +:+ "025-03-01" in
  strip (no_break_space +:+ "2025-03-01" +:+ no_break_space) = "2025-03-01"
  /\ strip (no_break_space +:+ typed) = typed
  /\ strptime_Ymd unicode_14_decimal typed = Some (Civil 2025 3 1)
  /\ strptime_Ymd (fun _ => None) typed = None
  /\ Date_parse 0 (typed +:+ "T00:00:00") = None
  /\ Date_parse 0 "2025-03-01T00:00:00" = Some 1740787200000.
Proof. vm_compute. repeat split; reflexivity. Qed.

(* ===================================================================== *)
(** * Further properties: the hook and the requests it sees             *)
(* ===================================================================== *)

Lemma run_fetch_other_url tza f url body :
  includes TARGET_SUBSTR url = false -> run_fetch tza f url body = [].
Proof.
  intros H. induction f as [| cfg f IH]; [reflexivity |].
  cbn [run_fetch]. now rewrite IH, H.
Qed.

Lemma run_open_url f url x :
  hooked_url (run_open f url x)
  = match f with native_open => hooked_url x | _ => Some url end.
Proof.
  revert x. induction f as [| f IH]; intros x; [reflexivity |].
  cbn [run_open]. rewrite IH. now destruct f.
Qed.

Lemma run_send_url f x : hooked_url (run_send f x) = hooked_url x.
Proof.
  revert x. induction f as [| cfg f IH]; intros x; [reflexivity |].
  cbn [run_send]. now rewrite IH.
Qed.

Lemma concat_map_nil {A B} (f : A -> list B) l :
  (forall a, f a = []) -> concat (List.map f l) = [].
Proof. intros H. induction l as [| a l IH]; [reflexivity |]. cbn. now rewrite H, IH. Qed.

(** X1.  A response whose URL does not contain [TARGET_SUBSTR] is left
    alone: whatever hooks the page context holds, neither the [fetch] path
    nor the XHR path logs, notifies or schedules a reload. *)

Theorem hook_ignores_other_urls (tza : Z) (w : Window) (url : string) (body : option JSON) :
  includes TARGET_SUBSTR url = false ->
  run_fetch tza (w_fetch w) url body = []
  /\ run_xhr tza w url body = [].
Proof.
  intros H. split; [now apply run_fetch_other_url |].
  unfold run_xhr, xhr_request, fire_load. apply concat_map_nil. intros cfg.
  unfold on_load. rewrite run_send_url, run_open_url.
  destruct (w_open w).
  - cbn. unfold TARGET_SUBSTR. reflexivity.
  - now rewrite H.
Qed.

(** A request for the page itself, with slots in its body. *)
Lemma hook_ignores_other_urls_witness :
  let cfg := {| js_NOTIFY_URL := "N"; js_REFRESH_URL := "R";
                START_DATE := ""; END_DATE := "" |} in
  let body := Some (JObj [("ScheduleDays", JArr [JObj [("Date", JStr "2025-03-10")]])]) in
  run_fetch 0 (w_fetch (hook_js cfg fresh_window))
    "https://www.usvisascheduling.com/schedule/?reschedule=true" body = []
  /\ run_xhr 0 (hook_js cfg fresh_window)
       "https://www.usvisascheduling.com/schedule/?reschedule=true" body = [].
Proof.
  cbv zeta.
  exact (hook_ignores_other_urls 0
           (hook_js {| js_NOTIFY_URL := "N"; js_REFRESH_URL := "R";
                       START_DATE := ""; END_DATE := "" |} fresh_window)
           "https://www.usvisascheduling.com/schedule/?reschedule=true"
           (Some (JObj [("ScheduleDays", JArr [JObj [("Date", JStr "2025-03-10")]])]))
           eq_refl).
Defined.

Lemma refreshes_app a b : refreshes (a ++ b) = refreshes a ++ refreshes b.
Proof. unfold refreshes. apply flat_map_app. Qed.

Lemma refreshes_analyse tza cfg json :
  refreshes (analyseAvailability tza cfg json) = [(300000, js_REFRESH_URL cfg)].
Proof.
  unfold analyseAvailability.
  destruct (filtering cfg json), (hasSlots tza cfg json); reflexivity.
Qed.

Lemma notifications_repeat es n :
  notifications (concat (repeat es n)) = (n * notifications es)%nat.
Proof.
  induction n as [| n IH]; [reflexivity |].
  cbn [repeat concat]. rewrite notifications_app, IH. lia.
Qed.

Lemma refreshes_repeat es n :
  refreshes (concat (repeat es n)) = concat (repeat (refreshes es) n).
Proof.
  induction n as [| n IH]; [reflexivity |].
  cbn [repeat concat]. now rewrite refreshes_app, IH.
Qed.

(** In a context that holds one hook, a request object has one listener
    for every request made on it. *)
Lemma reuse_listeners cfg urls x :
  load_listeners (reuse (hook_js cfg fresh_window) urls x)
  = load_listeners x ++ repeat cfg (length urls).
Proof.
  unfold reuse. revert x. induction urls as [| url urls IH]; intros x.
  - cbn. now rewrite app_nil_r.
  - cbn [fold_left length]. rewrite IH.
    change (repeat cfg (S (length urls))) with ([cfg] ++ repeat cfg (length urls)).
    rewrite app_assoc. reflexivity.
Qed.

(** X2.  In a page that holds one hook, a [fetch] whose URL contains
    [TARGET_SUBSTR] sends one notification when the body of the response
    parses and [hasSlots] holds, and none otherwise; it schedules one
    reload of [REFRESH_URL], 300000 ms later, when the body parses and
    none when it does not.  A request with such a URL made on a request
    object does the same once for every request made on that object so
    far, this one included: a new object acts as [fetch] does, an object
    that has served [k] requests before sends [k + 1] times as many
    notifications and schedules [k + 1] times as many reloads. *)
Theorem matching_response_effects (tza : Z) (cfg : HookConfig) (url : string)
    (body : option JSON) (earlier : list string) :
  includes TARGET_SUBSTR url = true ->
  let w := hook_js cfg fresh_window in
  let sent := match body with
              | Some json => if hasSlots tza cfg json then 1%nat else 0%nat
              | None => 0%nat
              end in
  let reloads := match body with
                 | Some _ => [(300000, js_REFRESH_URL cfg)]
                 | None => []
                 end in
  let x := xhr_request w url (reuse w earlier new_XHR) in
  notifications (run_fetch tza (w_fetch w) url body) = sent
  /\ refreshes (run_fetch tza (w_fetch w) url body) = reloads
  /\ notifications (fire_load tza x body) = (S (length earlier) * sent)%nat
  /\ refreshes (fire_load tza x body) = concat (repeat reloads (S (length earlier))).
Proof.
  intros H. cbv zeta.
  assert (Hf : run_fetch tza (w_fetch (hook_js cfg fresh_window)) url body
               = one_fetch_hook tza cfg body).
  { cbn [hook_js fresh_window APPT_HOOK_INSTALLED w_fetch run_fetch app]. now rewrite H. }
  assert (Hone : notifications (one_xhr_hook tza cfg body)
                 = notifications (one_fetch_hook tza cfg body)
                 /\ refreshes (one_xhr_hook tza cfg body)
                    = refreshes (one_fetch_hook tza cfg body)).
  { unfold one_fetch_hook, one_xhr_hook. destruct body; split; reflexivity. }
  assert (Hfetch : notifications (one_fetch_hook tza cfg body)
                   = match body with
                     | Some json => if hasSlots tza cfg json then 1%nat else 0%nat
                     | None => 0%nat
                     end
                   /\ refreshes (one_fetch_hook tza cfg body)
                      = match body with
                        | Some _ => [(300000, js_REFRESH_URL cfg)]
                        | None => []
                        end).
  { unfold one_fetch_hook. destruct body as [json |]; [| split; reflexivity].
    change (ConsoleLog "[HOOK] Captured fetch" :: analyseAvailability tza cfg json)
      with ([ConsoleLog "[HOOK] Captured fetch"] ++ analyseAvailability tza cfg json).
    rewrite notifications_app, refreshes_app, notifications_analyse, refreshes_analyse.
    split; reflexivity. }
  assert (Hx : fire_load tza
                 (xhr_request (hook_js cfg fresh_window) url
                    (reuse (hook_js cfg fresh_window) earlier new_XHR)) body
               = concat (repeat (one_xhr_hook tza cfg body) (S (length earlier)))).
  { pose proof (reuse_listeners cfg earlier new_XHR) as HL.
    cbn [new_XHR load_listeners app] in HL.
    set (x := reuse (hook_js cfg fresh_window) earlier new_XHR) in *.
    unfold fire_load, xhr_request.
    cbn [hook_js fresh_window APPT_HOOK_INSTALLED w_open w_send run_open run_send
         hooked_url load_listeners].
    rewrite HL, <- repeat_cons.
    change (cfg :: repeat cfg (length earlier)) with (repeat cfg (S (length earlier))).
    generalize (repeat cfg (S (length earlier))) at 1. intros ls.
    assert (Hl : forall c,
               on_load tza {| hooked_url := Some url; load_listeners := ls |} body c
               = one_xhr_hook tza c body).
    { intros c. unfold on_load, one_xhr_hook. cbn [hooked_url]. now rewrite H. }
    generalize (S (length earlier)). intros n.
    induction n as [| n IH]; [reflexivity |].
    cbn [repeat List.map concat]. now rewrite IH, Hl. }
  rewrite Hf, Hx, notifications_repeat, refreshes_repeat.
  destruct Hone as [-> ->]. destruct Hfetch as [-> ->]. repeat split.
Qed.

(** One day on offer and no date range: one notification and one reload
    for [fetch], two of each for the second request on a request
    object. *)
Lemma matching_response_effects_witness :
  let cfg := {| js_NOTIFY_URL := "N"; js_REFRESH_URL := "R";
                START_DATE := ""; END_DATE := "" |} in
  let w := hook_js cfg fresh_window in
  let body := Some (JObj [("ScheduleDays", JArr [JObj [("Date", JStr "2025-03-10")]])]) in
  notifications (run_fetch 0 (w_fetch w) TARGET_SUBSTR body) = 1%nat
  /\ refreshes (run_fetch 0 (w_fetch w) TARGET_SUBSTR body) = [(300000, "R")]
  /\ notifications
       (fire_load 0 (xhr_request w TARGET_SUBSTR (reuse w [TARGET_SUBSTR] new_XHR)) body)
     = 2%nat.
Proof.
  cbv zeta.
  destruct (matching_response_effects 0
              {| js_NOTIFY_URL := "N"; js_REFRESH_URL := "R";
                 START_DATE := ""; END_DATE := "" |}
              TARGET_SUBSTR
              (Some (JObj [("ScheduleDays", JArr [JObj [("Date", JStr "2025-03-10")]])]))
              [TARGET_SUBSTR] eq_refl) as (H1 & H2 & H3 & _).
  split; [exact H1 | split; [exact H2 | exact H3]].
Defined.

Lemma in_range_undated tza s e d : undated d -> in_range tza s e d = false.
Proof.
  intros [-> | [H | H]]; [reflexivity | |];
    unfold in_range; destruct d; try reflexivity; rewrite H; reflexivity.
Qed.

(** X3.  An entry of [ScheduleDays] without a date never matches a date
    range: with both range dates set, [matches] and [hasSlots] are what
    they are without the entry.  With no range in force the entry counts
    as a slot: [hasSlots] is true. *)

Theorem undated_days_are_skipped (tza : Z) (cfg : HookConfig) (before after : list JSON)
    (d : JSON) :
  undated d ->
  matches tza cfg (before ++ d :: after) = matches tza cfg (before ++ after)
  /\ hasSlots tza cfg (JObj [("ScheduleDays", JArr (before ++ d :: after))])
     = if str_truthy (START_DATE cfg) && str_truthy (END_DATE cfg)
       then hasSlots tza cfg (JObj [("ScheduleDays", JArr (before ++ after))])
       else true.
Proof.
  intros Hd.
  assert (Hm : matches tza cfg (before ++ d :: after) = matches tza cfg (before ++ after)).
  { unfold matches. rewrite !List.filter_app. cbn [List.filter].
    now rewrite (in_range_undated _ _ _ _ Hd). }
  split; [exact Hm |].
  assert (HS : forall l, ScheduleDays (JObj [("ScheduleDays", JArr l)]) = Some l)
    by reflexivity.
  unfold hasSlots. rewrite !HS.
  destruct (str_truthy (START_DATE cfg) && str_truthy (END_DATE cfg)).
  - now rewrite Hm.
  - rewrite length_app. cbn [length]. apply Nat.ltb_lt. lia.
Qed.

(** A [null] entry beside a day outside the range. *)
Lemma undated_days_are_skipped_witness :
  let cfg := {| js_NOTIFY_URL := "N"; js_REFRESH_URL := "R";
                START_DATE := "2025-03-01"; END_DATE := "2025-03-31" |} in
  hasSlots 0 cfg (JObj [("ScheduleDays", JArr [JNull; JObj [("Date", JStr "2025-04-02")]])])
  = false.
Proof.
  cbv zeta.
  exact (eq_trans
           (proj2 (undated_days_are_skipped 0
                     {| js_NOTIFY_URL := "N"; js_REFRESH_URL := "R";
                        START_DATE := "2025-03-01"; END_DATE := "2025-03-31" |}
                     [] [JObj [("Date", JStr "2025-04-02")]] JNull
                     (or_introl eq_refl)))
           eq_refl).
Defined.

(* ===================================================================== *)
(** * Further properties: the date preferences                          *)
(* ===================================================================== *)

(** X4.  [save_slot_prefs] returns normally whenever writing the file
    fails with nothing worse than an [Exception], and after a write that
    succeeded [load_slot_prefs] gives back the preferences saved. *)
Theorem save_then_load (env : Env) (prefs : gmap string string) (st : State) :
  (forall e, write_prefs env (clock st) = Raise e -> is_Exception e = true) ->
  result (save_slot_prefs env prefs st) = Ok tt
  /\ (write_prefs env (clock st) = Ok tt ->
      result (load_slot_prefs (final (save_slot_prefs env prefs st))) = Ok (Some prefs)).
Proof.
  intros Hexn. unfold save_slot_prefs, load_slot_prefs. run_step.
  destruct (write_prefs env (clock st)) as [[] | e] eqn:Hw; cbv beta iota.
  - cbn [result final slot_prefs_file]. split; reflexivity.
  - rewrite (Hexn e eq_refl). cbn [result final slot_prefs_file].
    split; [reflexivity | discriminate].
Qed.

(** A range saved on a first run and loaded again. *)
Lemma save_then_load_witness :
  result (load_slot_prefs
            (final (save_slot_prefs quiet_env
                      {[ "start_date" := "2025-03-01"; "end_date" := "2025-03-31" ]}
                      (initial_state NoFile))))
  = Ok (Some {[ "start_date" := "2025-03-01"; "end_date" := "2025-03-31" ]}).
Proof.
  assert (Hexn : forall e, write_prefs quiet_env (clock (initial_state NoFile)) = Raise e ->
                           is_Exception e = true)
    by (intros e H; discriminate H).
  exact (proj2 (save_then_load quiet_env
                  {[ "start_date" := "2025-03-01"; "end_date" := "2025-03-31" ]}
                  (initial_state NoFile) Hexn) eq_refl).
Defined.

Lemma strptime_month_two a b m :
  num2 a b = Some m -> 1 <= m <= 12 -> strptime_month (Some a) (Some b) = Some m.
Proof.
  intros H Hm. apply num2_inv in H as (x & y & Ea & Eb & -> & Hx & Hy).
  unfold strptime_month. rewrite Ea, Eb.
  assert (Hc : x = 0 \/ x = 1) by lia.
  destruct Hc as [-> | ->].
  - replace (1 <=? y) with true by (symmetry; apply Z.leb_le; lia). reflexivity.
  - replace (y <=? 2) with true by (symmetry; apply Z.leb_le; lia). reflexivity.
Qed.

Lemma py_digit_ascii decimal c rest x :
  digit_val c = Some x -> py_digit decimal (c :: rest) = Some (x, rest).
Proof. intros H. unfold py_digit. now rewrite H. Qed.

Lemma strptime_day_two decimal a b d :
  num2 a b = Some d -> 1 <= d <= 31 -> strptime_day decimal [a; b] = Some d.
Proof.
  intros H Hd. apply num2_inv in H as (x & y & Ea & Eb & -> & Hx & Hy).
  unfold strptime_day. rewrite Ea, (py_digit_ascii decimal b [] y Eb), Eb.
  assert (Hc : x = 0 \/ x = 1 \/ x = 2 \/ x = 3) by lia.
  destruct Hc as [-> | [-> | [-> | ->]]].
  - replace (1 <=? y) with true by (symmetry; apply Z.leb_le; lia). reflexivity.
  - reflexivity.
  - reflexivity.
  - replace (y <=? 1) with true by (symmetry; apply Z.leb_le; lia). reflexivity.
Qed.

Lemma strptime_year_four decimal y1 y2 y3 y4 rest y :
  num4 y1 y2 y3 y4 = Some y ->
  strptime_year decimal (y1 :: y2 :: y3 :: y4 :: rest) = Some (y, rest).
Proof.
  unfold num4. destruct (num2 y1 y2) as [hi |] eqn:Ehi; [| discriminate].
  destruct (num2 y3 y4) as [lo |] eqn:Elo; [| discriminate].
  intros H. inversion H; subst y.
  apply num2_inv in Ehi as (a & b & Ea & Eb & -> & _).
  apply num2_inv in Elo as (c & d & Ec & Ed & -> & _).
  unfold strptime_year.
  rewrite (py_digit_ascii _ _ _ _ Ea), (py_digit_ascii _ _ _ _ Eb),
    (py_digit_ascii _ _ _ _ Ec), (py_digit_ascii _ _ _ _ Ed).
  f_equal. f_equal. lia.
Qed.

Lemma strptime_reads_dates decimal s c :
  civil_of_string s = Some c -> 1 <= c_year c -> strptime_Ymd decimal s = Some c.
Proof.
  intros Hc Hy.
  pose proof (civil_of_string_valid _ _ Hc) as Hv.
  pose proof (valid_civil_day_le_31 _ Hv) as [Bm Bd].
  apply civil_of_string_inv in Hc
    as (y1 & y2 & y3 & y4 & m1 & m2 & d1 & d2 & Hs & Hyear & Hm & Hd & _).
  unfold strptime_Ymd. rewrite Hs, (strptime_year_four decimal _ _ _ _ _ _ Hyear).
  cbn [Ascii.eqb Bool.eqb andb].
  destruct (num2_inv _ _ _ Hm) as (x & y & _ & Em2 & _).
  rewrite (digit_not_dash _ _ Em2). cbn [Ascii.eqb Bool.eqb andb].
  rewrite (strptime_month_two _ _ _ Hm Bm), (strptime_day_two decimal _ _ _ Hd Bd).
  replace (1 <=? c_year c) with true by (symmetry; apply Z.leb_le; lia).
  destruct c as [cy cm cd]. cbn [c_year c_month c_day] in *. rewrite Hv. reflexivity.
Qed.

(** X5.  Every string of the shape [YYYY-MM-DD] that names a day of the
    calendar, from the year 1 on, passes [valid_date], and [strptime]
    reads it as that day. *)
Theorem real_dates_pass_validation (decimal : Z -> option Z) (s : string) (c : civil) :
  civil_of_string s = Some c -> 1 <= c_year c ->
  strptime_Ymd decimal s = Some c /\ valid_date decimal s = true.
Proof.
  intros Hc Hy. pose proof (strptime_reads_dates decimal s c Hc Hy) as H.
  split; [exact H |]. unfold valid_date. rewrite H. now destruct (negb _).
Qed.

(** The last day of February in a leap year. *)
Lemma real_dates_pass_validation_witness :
  strptime_Ymd unicode_14_decimal "2024-02-29" = Some (Civil 2024 2 29)
  /\ valid_date unicode_14_decimal "2024-02-29" = true.
Proof.
  assert (Hyear : 1 <= c_year (Civil 2024 2 29)) by (vm_compute; discriminate).
  exact (real_dates_pass_validation unicode_14_decimal "2024-02-29" (Civil 2024 2 29)
           eq_refl Hyear).
Defined.

(** X7.  The start of [main] asks for a date range exactly when no
    non-empty preference object can be loaded: with such an object on
    disk it asks nothing, prints nothing and writes nothing; with no
    file, an unreadable file or an empty object it asks. *)

Theorem prompt_unless_preferences_stored (env : Env) (st : State) :
  let r := main_slot_prefs env st in
  (count is_input (events r) = 0%nat
   <-> exists prefs, slot_prefs_file st = Stored prefs /\ prefs <> ∅)
  /\ (count is_input (events r) = 0%nat -> events r = [] /\ final r = st).
Proof.
  fold_property. unfold main_slot_prefs, load_slot_prefs, save_slot_prefs. run_step.
  destruct (slot_prefs_file st) as [| | prefs] eqn:Hfile; cbv beta iota.
  3: destruct (bool_decide (prefs = ∅)) eqn:Hempty.
  all: by_cases_on_run.
  all: rewrite ?count_app, ?count_cons, ?count_nil; cbn [is_input app].
  all: (split; [split; [intros H; try lia | intros (p & Hp & Hne)] | intros H; try lia]).
  all: try discriminate.
  all: try (inversion Hp; subst p; apply bool_decide_eq_true_1 in Hempty; contradiction).
  - exists prefs. split; [reflexivity |]. now apply bool_decide_eq_false_1 in Hempty.
  - reflexivity.
  - split; reflexivity.
Qed.

(** X8.  On a first run, two answers that pass [valid_date] once
    stripped are stored stripped of surrounding white space, of Unicode as
    of ASCII, when the file can be written, and
    an injection made later into a context without the hook, with that
    file on disk, installs a hook built with these two dates. *)

Theorem accepted_dates_configure_hook (env : Env) (st later : State)
    (start_raw end_raw : string) :
  slot_prefs_file st = NoFile ->
  console_input env (clock st) = Ok start_raw ->
  console_input env (S (clock st)) = Ok end_raw ->
  valid_date (unicode_decimal env) (strip start_raw)
  && valid_date (unicode_decimal env) (strip end_raw) = true ->
  write_prefs env (S (S (clock st))) = Ok tt ->
  slot_prefs_file later = slot_prefs_file (final (main_slot_prefs env st)) ->
  page_evaluate_hook env (clock later) = Ok tt ->
  APPT_HOOK_INSTALLED (window later) = false ->
  slot_prefs_file (final (main_slot_prefs env st))
  = Stored {[ "start_date" := strip start_raw; "end_date" := strip end_raw ]}
  /\ events (inject_fetch_hook env later)
     = [InjectHook {| js_NOTIFY_URL := NOTIFY_URL env;
                      js_REFRESH_URL := APPOINTMENT_URL;
                      START_DATE := strip start_raw;
                      END_DATE := strip end_raw |}]
  /\ w_fetch (window (final (inject_fetch_hook env later)))
     = hooked_fetch {| js_NOTIFY_URL := NOTIFY_URL env;
                       js_REFRESH_URL := APPOINTMENT_URL;
                       START_DATE := strip start_raw;
                       END_DATE := strip end_raw |}
         (w_fetch (window later)).
Proof.
  intros Hfile Hstart Hend Hvalid Hwrite Hlater Heval Hflag.
  assert (Hsaved : slot_prefs_file (final (main_slot_prefs env st))
                   = Stored {[ "start_date" := strip start_raw;
                               "end_date" := strip end_raw ]}).
  { unfold main_slot_prefs, load_slot_prefs, save_slot_prefs. run_step.
    rewrite Hfile. cbv beta iota. cbn [clock]. rewrite Hstart. cbv beta iota.
    cbn [clock]. rewrite Hend. cbv beta iota. rewrite Hvalid.
    cbn [negb]. cbv beta iota. cbn [clock]. rewrite Hwrite. reflexivity. }
  rewrite Hsaved in Hlater. split; [exact Hsaved |].
  assert (Hcfg : hook_config env
                   (Some {[ "start_date" := strip start_raw; "end_date" := strip end_raw ]})
                 = {| js_NOTIFY_URL := NOTIFY_URL env;
                      js_REFRESH_URL := APPOINTMENT_URL;
                      START_DATE := strip start_raw;
                      END_DATE := strip end_raw |}).
  { unfold hook_config.
    rewrite lookup_insert_eq, lookup_insert_ne by discriminate.
    now rewrite lookup_singleton_eq. }
  unfold inject_fetch_hook, load_slot_prefs. run_step. rewrite Hlater. cbv beta iota.
  rewrite Heval. cbv beta iota. cbn [final events window]. rewrite Hcfg.
  split; [reflexivity |]. unfold hook_js. rewrite Hflag. reflexivity.
Qed.

(** March 2025, typed after a no-break space and before a blank. *)
Lemma accepted_dates_configure_hook_witness :
  let env := env_typing (no_break_space +:+ "2025-03-01") "2025-03-31 " in
  let later := final (main_slot_prefs env (initial_state NoFile)) in
  slot_prefs_file later
  = Stored {[ "start_date" := "2025-03-01"; "end_date" := "2025-03-31" ]}
  /\ events (inject_fetch_hook env later)
     = [InjectHook {| js_NOTIFY_URL := NOTIFY_URL env;
                      js_REFRESH_URL := APPOINTMENT_URL;
                      START_DATE := "2025-03-01";
                      END_DATE := "2025-03-31" |}].
Proof.
  cbv zeta.
  destruct (accepted_dates_configure_hook
              (env_typing (no_break_space +:+ "2025-03-01") "2025-03-31 ")
              (initial_state NoFile)
              (final (main_slot_prefs
                        (env_typing (no_break_space +:+ "2025-03-01") "2025-03-31 ")
                        (initial_state NoFile)))
              (no_break_space +:+ "2025-03-01") "2025-03-31 "
              eq_refl eq_refl eq_refl eq_refl eq_refl eq_refl eq_refl eq_refl)
    as (H1 & H2 & _).
  split; [exact H1 | exact H2].
Defined.

(* ===================================================================== *)
(** * Further properties: the polling loops                             *)
(* ===================================================================== *)

Lemma sleep_total_app a b : sleep_total (a ++ b) = sleep_total a + sleep_total b.
Proof.
  induction a as [| ev a IH]; [reflexivity |].
  cbn [app sleep_total]. destruct ev; rewrite ?IH; lia.
Qed.

Lemma wait_loop env selector delay rounds start st :
  let r := for_range rounds start
             (fun _ =>
                el <- ask (PageSelect selector) (fun t => page_select env t selector) ;;
                match el with
                | Some e => ret (Some e)
                | None => sleep delay ;;; ret None
                end) st in
  (forall el, result r = Ok (Some el) ->
     exists k, (k < rounds)%nat
       /\ page_select env (clock st + k) selector = Ok (Some el)
       /\ (forall j, (j < k)%nat -> page_select env (clock st + j) selector = Ok None)
       /\ sleep_total (events r) = Z.of_nat k * delay
       /\ count (is_select selector) (events r) = S k)
  /\ (result r = Ok None ->
      (forall j, (j < rounds)%nat -> page_select env (clock st + j) selector = Ok None)
      /\ sleep_total (events r) = Z.of_nat rounds * delay
      /\ count (is_select selector) (events r) = rounds)
  /\ (forall e, result r = Raise e ->
      exists k, (k < rounds)%nat /\ page_select env (clock st + k) selector = Raise e).
Proof.
  set (body := fun _ : nat =>
                  el <- ask (PageSelect selector) (fun t => page_select env t selector) ;;
                  match el with
                  | Some e => ret (Some e)
                  | None => sleep delay ;;; ret None
                  end).
  revert start st. induction rounds as [| n IH]; intros start st.
  - cbv zeta. cbn [for_range]. unfold ret. cbn [result events].
    split; [intros; discriminate |]. split; [| intros; discriminate].
    intros _. split; [intros j Hj; lia | split; reflexivity].
  - fold_property. cbn [for_range]. unfold bind at 1. unfold body at 1. run_step.
    destruct (page_select env (clock st) selector) as [[el |] | e] eqn:Hsel;
      cbv beta iota; cbn [result final events].
    + subst Property. cbv beta. cbn [result events app].
      split; [| split; intros; discriminate].
      intros el' H. inversion H; subst el'. exists 0%nat.
      rewrite Nat.add_0_r. split; [lia |]. split; [exact Hsel |].
      split; [intros j Hj; lia |]. split; [reflexivity |].
      unfold count. cbn. now rewrite String.eqb_refl.
    + specialize (IH (S start)
                    {| clock := S (clock st);
                       attempt_registry := attempt_registry st;
                       slot_prefs_file := slot_prefs_file st;
                       window := window st |}).
      cbv zeta in IH. cbn [clock] in IH.
      match goal with
      | |- context [match ?x with MkRun _ _ _ => _ end] =>
          destruct x as [res st2 evs2]
      end.
      subst Property. cbv beta.
      cbn [result events] in *. destruct IH as (IHsome & IHnone & IHraise).
      assert (Hshift : forall j, (S (clock st) + j = clock st + S j)%nat) by (intros; lia).
      split; [| split].
      * intros el Hres. destruct (IHsome el Hres) as (k & Hk & Hat & Hbefore & Hsl & Hcnt).
        exists (S k). split; [lia |]. rewrite <- Hshift. split; [exact Hat |].
        split.
        { intros [| j] Hj; [now rewrite Nat.add_0_r | rewrite <- Hshift; apply Hbefore; lia]. }
        split.
        { cbn [app sleep_total]. rewrite Hsl. lia. }
        { cbn [app]. rewrite !count_cons, Hcnt. cbn [is_select]. now rewrite String.eqb_refl. }
      * intros Hres. destruct (IHnone Hres) as (Hall & Hsl & Hcnt). split.
        { intros [| j] Hj; [now rewrite Nat.add_0_r | rewrite <- Hshift; apply Hall; lia]. }
        split.
        { cbn [app sleep_total]. rewrite Hsl. lia. }
        { cbn [app]. rewrite !count_cons, Hcnt. cbn [is_select]. now rewrite String.eqb_refl. }
      * intros e Hres. destruct (IHraise e Hres) as (k & Hk & Hat).
        exists (S k). split; [lia |]. now rewrite <- Hshift.
    + subst Property. cbv beta. cbn [result events].
      split; [intros; discriminate |]. split; [intros; discriminate |].
      intros e' H. inversion H; subst e'. exists 0%nat. rewrite Nat.add_0_r.
      split; [lia | exact Hsel].
Qed.

(** X9.  [_wait_for_element] asks for the element at most
    [max_attempts] times and sleeps [delay] after every miss.  It returns
    the element of the first query that finds one, after one sleep per
    earlier miss; it returns [None] when all [max_attempts] queries miss,
    after [max_attempts] sleeps; and an exception that leaves it is the
    one a query raised. *)

Theorem wait_for_element_polls (env : Env) (selector : string)
    (max_attempts : nat) (delay : Z) (st : State) :
  let r := _wait_for_element env selector max_attempts delay st in
  (forall el, result r = Ok (Some el) ->
     exists k, (k < max_attempts)%nat
       /\ page_select env (clock st + k) selector = Ok (Some el)
       /\ (forall j, (j < k)%nat -> page_select env (clock st + j) selector = Ok None)
       /\ sleep_total (events r) = Z.of_nat k * delay
       /\ count (is_select selector) (events r) = S k)
  /\ (result r = Ok None ->
      (forall j, (j < max_attempts)%nat ->
         page_select env (clock st + j) selector = Ok None)
      /\ sleep_total (events r) = Z.of_nat max_attempts * delay
      /\ count (is_select selector) (events r) = max_attempts)
  /\ (forall e, result r = Raise e ->
      exists k, (k < max_attempts)%nat
                /\ page_select env (clock st + k) selector = Raise e).
Proof. exact (wait_loop env selector delay max_attempts 0 st). Qed.

Lemma advance_0 st : advance 0 st = st.
Proof. now destruct st. Qed.

Lemma advance_S n st : advance n (advance 1 st) = advance (S n) st.
Proof. unfold advance. cbn [clock attempt_registry slot_prefs_file window]. f_equal. lia. Qed.

Lemma is_waiting_room_one_call env st :
  final (is_waiting_room env st) = advance 1 st
  /\ events (is_waiting_room env st) = [PageEvaluate body_style_script].
Proof.
  unfold is_waiting_room. run_step.
  destruct (page_evaluate env (clock st) body_style_script) as [style | e];
    cbv beta iota.
  - destruct (truthy style && _); split; reflexivity.
  - destruct (is_Exception e); split; reflexivity.
Qed.

(** X10.  When the page is a waiting room at the first [k] inspections
    and not at the next one, the waiting loop of [main] is left after
    exactly [k + 1] inspections and [5 * k] seconds of sleep, and it has
    made no other call to the outside. *)

Theorem waiting_room_loop_leaves (env : Env) (k fuel : nat) (msg : string) (st : State) :
  (k < fuel)%nat ->
  (forall j, (j < k)%nat -> result (is_waiting_room env (advance j st)) = Ok true) ->
  result (is_waiting_room env (advance k st)) = Ok false ->
  let r := wait_out_waiting_room env fuel msg st in
  result r = Ok true
  /\ final r = advance (S k) st
  /\ sleep_total (events r) = 5 * Z.of_nat k
  /\ count is_inspection (events r) = S k.
Proof.
  revert fuel st. induction k as [| k IH]; intros fuel st Hfuel Hbefore Hat;
    (destruct fuel as [| fuel]; [lia |]); fold_property;
    cbn [wait_out_waiting_room]; unfold bind at 1;
    destruct (is_waiting_room_one_call env st) as [Hfin Hev].
  - rewrite advance_0 in Hat.
    destruct (is_waiting_room env st) as [res st1 evs1]. cbn [result final events] in *.
    subst res st1 evs1 Property. unfold ret. cbn [result final events]. repeat split.
  - pose proof (Hbefore 0%nat ltac:(lia)) as Hfirst. rewrite advance_0 in Hfirst.
    destruct (is_waiting_room env st) as [res st1 evs1]. cbn [result final events] in *.
    subst res st1 evs1. run_step.
    destruct (IH fuel (advance 1 st) ltac:(lia)) as (Hres & Hfinal & Hsl & Hcnt).
    { intros j Hj. rewrite advance_S. apply Hbefore. lia. }
    { now rewrite advance_S. }
    destruct (wait_out_waiting_room env fuel msg (advance 1 st)) as [res st2 evs2].
    cbn [result final events] in *. subst res st2 Property. cbv beta.
    cbn [result final events].
    split; [reflexivity |]. split; [apply advance_S |]. split.
    + cbn [app sleep_total]. rewrite Hsl. lia.
    + cbn [app]. rewrite !count_cons, Hcnt. reflexivity.
Qed.

(** A waiting room that lets go at the third inspection. *)
Lemma waiting_room_loop_leaves_witness :
  let r := wait_out_waiting_room (env_waiting_room 2) 10 "waiting" (initial_state NoFile) in
  result r = Ok true
  /\ sleep_total (events r) = 10
  /\ count is_inspection (events r) = 3%nat.
Proof.
  cbv zeta.
  assert (Hfuel : (2 < 10)%nat) by lia.
  assert (Hbefore : forall j, (j < 2)%nat ->
            result (is_waiting_room (env_waiting_room 2) (advance j (initial_state NoFile)))
            = Ok true)
    by (intros [| [| j]] Hj; [reflexivity | reflexivity | lia]).
  destruct (waiting_room_loop_leaves (env_waiting_room 2) 2 10 "waiting"
              (initial_state NoFile) Hfuel Hbefore eq_refl) as (H1 & _ & H3 & H4).
  split; [exact H1 | split; [exact H3 | exact H4]].
Defined.


(** X11.  As long as evaluating the hook script fails with nothing worse
    than an [Exception], [rounds] turns of the supervisor end normally
    after exactly [rounds] injections, one call to the outside each, and
    [rounds] sleeps of [interval] seconds; they leave the preference file
    alone, and a context that already holds the hook stays as it is. *)



(* ===================================================================== *)
(** * Further properties: the captcha                                   *)
(* ===================================================================== *)

Lemma solve_loop_first_success env data_url text k rounds start st :
  (k < rounds)%nat -> (start + k < MAX_RETRIES)%nat ->
  (forall j, (j < k)%nat ->
     exists e, openai_create env (clock st + j) data_url = Raise e
               /\ is_Exception e = true) ->
  openai_create env (clock st + k) data_url = Ok text ->
  let r := for_range rounds start (solve_round env data_url) st in
  result r = Ok (Some (Some text))
  /\ pacing is_request (events r) = backoff_schedule data_url (S k) (S start)
  /\ clock (final r) = (clock st + S k)%nat.
Proof.
  revert rounds start st. induction k as [| k IH];
    intros rounds start st Hk Hstart Hfail Hok;
    (destruct rounds as [| rounds]; [lia |]); fold_property;
    cbn [for_range]; unfold bind at 1; unfold solve_round at 1; run_step.
  - rewrite Nat.add_0_r in Hok. rewrite Hok. cbv beta iota.
    subst Property. cbv beta. cbn [result final events clock].
    repeat split. lia.
  - destruct (Hfail 0%nat ltac:(lia)) as (e & Hraise & He).
    rewrite Nat.add_0_r in Hraise. rewrite Hraise. cbv beta iota. rewrite He.
    replace (start <? MAX_RETRIES - 1)%nat with true
      by (symmetry; apply Nat.ltb_lt; unfold MAX_RETRIES in *; lia).
    cbv beta iota. cbn [result final events clock].
    match goal with
    | |- context [for_range rounds (S start) _ ?s] =>
        destruct (IH rounds (S start) s) as (Hres & Hpace & Hclock);
          [lia | lia | | |]
    end.
    { intros j Hj. cbn [clock].
      replace (S (clock st) + j)%nat with (clock st + S j)%nat by lia.
      apply Hfail. lia. }
    { cbn [clock]. replace (S (clock st) + k)%nat with (clock st + S (S k) - 1)%nat by lia.
      replace (clock st + S (S k) - 1)%nat with (clock st + S k)%nat by lia. exact Hok. }
    match goal with
    | |- context [for_range rounds (S start) ?b ?s] =>
        destruct (for_range rounds (S start) b s) as [res st2 evs2]
    end.
    cbn [result final events clock] in *. subst res Property. cbv beta.
    cbn [result final events].
    split; [reflexivity |]. split; [| lia].
    rewrite !pacing_app, Hpace.
    cbn [pacing List.filter is_request is_sleep orb app backoff_schedule].
    replace (Z.of_nat start + 1) with (Z.of_nat (S start)) by lia. reflexivity.
Qed.

(** X12.  With an API key set, when the first [k] requests to the
    vision service fail with an [Exception] and the next one succeeds,
    [k] below [MAX_RETRIES], the solver returns the text of that request
    after exactly [k + 1] requests, having slept [RETRY_DELAY_SECONDS * i]
    after the [i]-th failure. *)

Theorem solver_returns_first_success (env : Env) (data_url text : string)
    (k : nat) (st : State) :
  truthy (OPENAI_API_KEY env) = true ->
  (k < MAX_RETRIES)%nat ->
  (forall j, (j < k)%nat ->
     exists e, openai_create env (clock st + j) data_url = Raise e
               /\ is_Exception e = true) ->
  openai_create env (clock st + k) data_url = Ok text ->
  let r := _solve_captcha_with_openai env data_url st in
  result r = Ok (Some text)
  /\ pacing is_request (events r) = backoff_schedule data_url (S k) 1
  /\ count is_request (events r) = S k.
Proof.
  intros Hkey Hk Hfail Hok. fold_property.
  unfold _solve_captcha_with_openai. rewrite Hkey. cbn [negb]. run_step.
  destruct (solve_loop_first_success env data_url text k MAX_RETRIES 0 st
              Hk Hk Hfail Hok) as (Hres & Hpace & _).
  destruct (for_range MAX_RETRIES 0 (solve_round env data_url) st) as [res st1 evs1].
  cbn [result events] in *. subst res Property. cbv beta iota.
  cbn [result events app]. rewrite app_nil_r.
  assert (Hp : pacing is_request (SolveCall data_url :: evs1)
               = backoff_schedule data_url (S k) 1) by exact Hpace.
  split; [reflexivity |]. split; [exact Hp |].
  rewrite <- (count_pacing is_request (SolveCall data_url :: evs1)), Hp.
  apply count_backoff_schedule.
Qed.

(** Two failures, then an answer: delays of 2 and 4 seconds. *)
Lemma solver_returns_first_success_witness :
  let r := _solve_captcha_with_openai (env_vision_after 2 "ABCDE") "data:image/png;base64,QUJD"
             (initial_state NoFile) in
  result r = Ok (Some "ABCDE")
  /\ pacing is_request (events r)
     = [OpenAIRequest "data:image/png;base64,QUJD"; Sleep 2;
        OpenAIRequest "data:image/png;base64,QUJD"; Sleep 4;
        OpenAIRequest "data:image/png;base64,QUJD"].
Proof.
  cbv zeta.
  assert (Hk : (2 < MAX_RETRIES)%nat) by (vm_compute; lia).
  assert (Hfail : forall j, (j < 2)%nat ->
            exists e, openai_create (env_vision_after 2 "ABCDE")
                        (clock (initial_state NoFile) + j) "data:image/png;base64,QUJD"
                      = Raise e
                      /\ is_Exception e = true)
    by (intros [| [| j]] Hj;
        [exists (OtherException "RateLimitError"); split; reflexivity
        | exists (OtherException "RateLimitError"); split; reflexivity
        | lia]).
  destruct (solver_returns_first_success (env_vision_after 2 "ABCDE")
              "data:image/png;base64,QUJD" "ABCDE" 2 (initial_state NoFile)
              eq_refl Hk Hfail eq_refl) as (H1 & H2 & _).
  split; [exact H1 | exact H2].
Defined.

Lemma prefix_append p s : String.prefix p (p +:+ s) = true.
Proof.
  induction p as [| c p IH]; simpl; [now destruct s |].
  first [ rewrite Ascii.eqb_refl; exact IH
        | destruct (Ascii.ascii_dec c c) as [_ | Hne]; [exact IH | congruence] ].
Qed.

Lemma extract_round_data_url env attempt st u :
  result (extract_round env attempt st) = Ok (Some u) ->
  startswith "data:image/png;base64," u = true.
Proof.
  revert u. unfold extract_round, extract_try.
  match goal with
  | |- forall u, result ?r = _ -> _ =>
      set (Property := fun x : Run (option string) =>
             forall u, result x = Ok (Some u) ->
                       startswith "data:image/png;base64," u = true);
      change (Property r)
  end.
  split_on_answers; subst Property; cbv beta; cbn [result]; intros u H;
    try discriminate.
  all: inversion H; apply prefix_append.
Qed.

(** X13.  A value [_extract_captcha_data_url] returns is a PNG data
    URL: it starts with [data:image/png;base64,], and so it is never
    empty. *)

Theorem extracted_image_is_png_data_url (env : Env) (st : State) (data_url : string) :
  result (_extract_captcha_data_url env st) = Ok (Some data_url) ->
  startswith "data:image/png;base64," data_url = true
  /\ truthy (Some data_url) = true.
Proof.
  intros H.
  assert (Hloop : forall rounds start s u,
             result (for_range rounds start (extract_round env) s) = Ok (Some u) ->
             startswith "data:image/png;base64," u = true).
  { induction rounds as [| rounds IH]; intros start s u; cbn [for_range].
    - discriminate.
    - unfold bind.
      pose proof (extract_round_data_url env start s) as Hround.
      destruct (extract_round env start s) as [[[v |] | e] s1 evs1];
        cbn [result] in *.
      + unfold ret. cbn [result]. intros Hv. inversion Hv; subst. now apply Hround.
      + specialize (IH (S start) s1 u).
        destruct (for_range rounds (S start) (extract_round env) s1) as [r s2 evs2].
        exact IH.
      + discriminate. }
  assert (Hpng : startswith "data:image/png;base64," data_url = true).
  { unfold _extract_captcha_data_url, bind in H.
    specialize (Hloop MAX_RETRIES 0%nat st).
    destruct (for_range MAX_RETRIES 0 (extract_round env) st) as [[[v |] | e] s1 evs1];
      cbn [result] in *.
    - unfold ret in H. cbn [result] in H. inversion H; subst. now apply Hloop.
    - unfold print, emit, ret in H. cbn [result] in H. discriminate.
    - discriminate. }
  split; [exact Hpng |]. destruct data_url; [discriminate | reflexivity].
Qed.

(** A captcha image whose screenshot reads back as [QUJD]. *)
Lemma extracted_image_is_png_data_url_witness :
  startswith "data:image/png;base64," "data:image/png;base64,QUJD" = true
  /\ truthy (Some "data:image/png;base64,QUJD") = true.
Proof.
  assert (H : result (_extract_captcha_data_url (env_captcha "QUJD" "ABCDE")
                        (initial_state NoFile))
              = Ok (Some "data:image/png;base64,QUJD"))
    by (vm_compute; reflexivity).
  exact (extracted_image_is_png_data_url (env_captcha "QUJD" "ABCDE")
           (initial_state NoFile) "data:image/png;base64,QUJD" H).
Defined.

Lemma solve_starts_with_call env data_url st :
  exists rest, events (_solve_captcha_with_openai env data_url st)
               = SolveCall data_url :: rest.
Proof.
  unfold _solve_captcha_with_openai. unfold bind at 1. unfold emit at 1.
  match goal with
  | |- context [match ?m st with MkRun _ _ _ => _ end] => destruct (m st) as [r s evs]
  end.
  exists evs. reflexivity.
Qed.

Lemma truthy_default v : truthy v = true -> default "" v <> "".
Proof. destruct v as [[| c s] |]; cbn; congruence. Qed.

(** An event that stands in a run written out as appended lists. *)
Ltac find_event :=
  first [ left; reflexivity
        | apply in_or_app; left; find_event
        | apply in_or_app; right; find_event
        | right; find_event ].

(** X14.  [attempt_captcha_solve] returns [True] only after it has
    called the solver for an image, recorded that attempt in the
    registry, and typed a non-empty text into an element. *)

Theorem captcha_success_means_typed (env : Env) (st : State) :
  result (attempt_captcha_solve env st) = Ok true ->
  exists data_url text el,
    text <> ""
    /\ In (SolveCall data_url) (events (attempt_captcha_solve env st))
    /\ In (SendKeys el text) (events (attempt_captcha_solve env st))
    /\ (1 <= recorded_attempts (final (attempt_captcha_solve env st)) data_url)%nat.
Proof.
  set (Property := fun r : Run bool =>
         result r = Ok true ->
         exists data_url text el,
           text <> ""
           /\ In (SolveCall data_url) (events r)
           /\ In (SendKeys el text) (events r)
           /\ (1 <= recorded_attempts (final r) data_url)%nat).
  change (Property (attempt_captcha_solve env st)).
  unfold attempt_captcha_solve. unfold bind at 1.
  destruct (_extract_captcha_data_url env st) as [[data_url | e] st1 evs1].
  2: { subst Property. cbn. discriminate. }
  split_on_answers.
  all: try match goal with
       | |- context [_solve_captcha_with_openai ?env ?d ?s] =>
           let H1 := fresh "Hsreg" in
           let H2 := fresh "Hscnt" in
           let Hh := fresh "Hhead" in
           let tl := fresh "tl" in
           destruct (solve_one_call env d d s) as [H1 H2];
           destruct (solve_starts_with_call env d s) as [tl Hh];
           let r := fresh "sres" in let s' := fresh "sst" in let ev := fresh "sevs" in
           destruct (_solve_captcha_with_openai env d s) as [r s' ev];
           cbn [final events attempt_registry] in H1, H2, Hh; subst ev
       end.
  all: split_on_answers.
  all: subst Property; cbv beta; cbn [result final events attempt_registry];
       intros Hres; try discriminate.
  all: match goal with
       | H : element_send_keys _ _ ?el (default "" ?t) = Ok _ |- _ =>
           exists (default "" data_url), (default "" t), el;
           (split; [apply truthy_default; now destruct (truthy t) |])
       end.
  all: (split; [find_event |]).
  all: (split; [find_event |]).
  all: unfold recorded_attempts; cbn [attempt_registry]; rewrite Hsreg;
       cbn [from_option id]; rewrite lookup_insert_eq; cbn [from_option id]; lia.
Qed.

(** The captcha read as [ABCDE] and typed into the response field. *)
Lemma captcha_success_means_typed_witness :
  exists data_url text el,
    text <> ""
    /\ In (SolveCall data_url)
         (events (attempt_captcha_solve (env_captcha "QUJD" "ABCDE") (initial_state NoFile)))
    /\ In (SendKeys el text)
         (events (attempt_captcha_solve (env_captcha "QUJD" "ABCDE") (initial_state NoFile)))
    /\ (1 <= recorded_attempts
               (final (attempt_captcha_solve (env_captcha "QUJD" "ABCDE")
                         (initial_state NoFile))) data_url)%nat.
Proof.
  assert (H : result (attempt_captcha_solve (env_captcha "QUJD" "ABCDE")
                        (initial_state NoFile)) = Ok true)
    by (vm_compute; reflexivity).
  exact (captcha_success_means_typed (env_captcha "QUJD" "ABCDE") (initial_state NoFile) H).
Defined.

(* ===================================================================== *)
(** * Further properties: the login flow                                *)
(* ===================================================================== *)

Lemma typed_app a b : typed (a ++ b) = typed a ++ typed b.
Proof. apply flat_map_app. Qed.

Lemma In_typed el text evs : In (el, text) (typed evs) <-> In (SendKeys el text) evs.
Proof.
  unfold typed. rewrite in_flat_map. split.
  - intros (ev & Hin & Hev). destruct ev; cbn [In] in Hev; try tauto.
    destruct Hev as [Hev | []]. inversion Hev; subst. exact Hin.
  - intros Hin. exists (SendKeys el text). split; [exact Hin | left; reflexivity].
Qed.

Lemma clear_value_typed env el st : typed (events (clear_value env el st)) = [].
Proof. unfold clear_value. split_on_answers; reflexivity. Qed.

Lemma fill_answers_typed env kba_inputs st :
  let r := fill_answers env kba_inputs st in
  exists rest,
    configured_answers env kba_inputs = typed (events r) ++ rest
    /\ (result r = Ok tt -> rest = []).
Proof.
  revert st. induction kba_inputs as [| [selector el] inputs IH]; intros st.
  - exists []. split; reflexivity.
  - cbv zeta. cbn [fill_answers configured_answers flat_map fst snd].
    fold (configured_answers env inputs).
    destruct (SECURITY_ANSWERS env !! selector) as [answer |].
    1: destruct (str_truthy answer).
    all: match goal with
         | |- context [events ?r] =>
             pattern r; lazymatch goal with |- ?P r => set (Property := P) end
         end.
    2, 3: unfold bind at 1, print at 1, emit at 1; cbv beta iota;
          destruct (IH st) as (rest & Heq & Hok);
          destruct (fill_answers env inputs st) as [res st1 evs1];
          subst Property; cbn [result events typed flat_map app] in *;
          exists rest; split; [exact Heq | exact Hok].
    unfold bind at 1. unfold bind at 1.
    pose proof (clear_value_typed env el st) as Hclear.
    destruct (clear_value env el st) as [[[] | e] st1 evs1]; cbn [events] in Hclear.
    + unfold ask at 1. cbv beta iota.
      destruct (element_send_keys env (clock st1) el answer) as [[] | e].
      * match goal with
        | |- context [fill_answers env inputs ?s] =>
            destruct (IH s) as (rest & Heq & Hok);
            destruct (fill_answers env inputs s) as [res st2 evs2]
        end.
        subst Property. cbn [result events] in *. exists rest.
        rewrite !typed_app, Hclear. cbn [typed flat_map app].
        rewrite Heq. split; [reflexivity | exact Hok].
      * subst Property. cbn [result events]. exists (configured_answers env inputs).
        rewrite typed_app, Hclear. cbn [typed flat_map app].
        split; [reflexivity | discriminate].
    + subst Property. cbn [result events]. rewrite Hclear.
      exists ((el, answer) :: configured_answers env inputs).
      split; [reflexivity | discriminate].
Qed.

(** X15.  Whatever [fill_answers] types into an element is the
    non-empty answer configured for the selector of one of the inputs
    shown; and when it returns normally, every input shown whose selector
    has a non-empty answer configured has had that answer typed into
    it. *)

Theorem security_answers_typed_as_configured (env : Env)
    (kba_inputs : list (string * Element)) (st : State) :
  let r := fill_answers env kba_inputs st in
  (forall el text,
      In (SendKeys el text) (events r) ->
      text <> ""
      /\ exists selector,
           In (selector, el) kba_inputs /\ SECURITY_ANSWERS env !! selector = Some text)
  /\ (result r = Ok tt ->
      forall selector el answer,
        In (selector, el) kba_inputs ->
        SECURITY_ANSWERS env !! selector = Some answer ->
        answer <> "" ->
        In (SendKeys el answer) (events r)).
Proof.
  cbv zeta. destruct (fill_answers_typed env kba_inputs st) as (rest & Heq & Hok).
  split.
  - intros el text Hin. apply In_typed in Hin.
    assert (Hc : In (el, text) (configured_answers env kba_inputs))
      by (rewrite Heq; apply in_or_app; left; exact Hin).
    unfold configured_answers in Hc. apply in_flat_map in Hc as ([selector el'] & Hinput & Hc).
    cbn [fst snd] in Hc.
    destruct (SECURITY_ANSWERS env !! selector) as [answer |] eqn:Hanswer; [| destruct Hc].
    destruct (str_truthy answer) eqn:Htruthy; [| destruct Hc].
    destruct Hc as [Hc | []]. inversion Hc; subst el' answer.
    split; [intros ->; discriminate |]. exists selector. split; assumption.
  - intros Hres selector el answer Hinput Hanswer Hne.
    apply In_typed. rewrite (Hok Hres), app_nil_r in Heq. rewrite <- Heq.
    unfold configured_answers. apply in_flat_map. exists (selector, el).
    split; [exact Hinput |]. cbn [fst snd]. rewrite Hanswer.
    destruct answer; [congruence |]. left. reflexivity.
Qed.

(** Sleeping time of a loop whose rounds sleep at most [d] seconds and do
    not sleep when they return. *)
Lemma for_range_sleeps {A} (d : Z) (body : nat -> M (option A)) :
  0 <= d ->
  (forall i st, sleeps_within d 0 (body i st)) ->
  forall rounds start st,
    sleeps_within (Z.of_nat rounds * d) ((Z.of_nat rounds - 1) * d)
      (for_range rounds start body st).
Proof.
  intros Hd Hbody rounds. unfold sleeps_within in *.
  induction rounds as [| n IH]; intros start st.
  - cbn [for_range ret result events sleep_total]. split; [lia | intros; discriminate].
  - cbn [for_range]. unfold bind.
    destruct (Hbody start st) as [Hle Hsome].
    destruct (body start st) as [[[a |] | e] st1 evs1]; cbn [result events] in *.
    + specialize (Hsome a eq_refl). cbn [ret result events].
      rewrite sleep_total_app. cbn [sleep_total]. split; [nia | intros; nia].
    + destruct (IH (S start) st1) as [IHle IHsome].
      destruct (for_range n (S start) body st1) as [res2 st2 evs2].
      cbn [result events] in *. rewrite sleep_total_app.
      split; [nia |]. intros a Ha. specialize (IHsome a Ha). nia.
    + split; [nia | intros; discriminate].
Qed.

Ltac sleeps_by_cases :=
  split_on_answers; unfold sleeps_within; cbn [result events app sleep_total];
  rewrite ?sleep_total_app; cbn [sleep_total];
  (split; [| intros ? ?]); try discriminate; try lia.

Lemma wait_sleeps env selector rounds delay st :
  0 <= delay ->
  sleeps_within (Z.of_nat rounds * delay) ((Z.of_nat rounds - 1) * delay)
    (_wait_for_element env selector rounds delay st).
Proof.
  intros Hd. unfold _wait_for_element.
  apply (for_range_sleeps delay); [exact Hd |].
  intros _ s. sleeps_by_cases.
Qed.

Lemma extract_sleeps env st :
  sleeps_within 10 8 (_extract_captcha_data_url env st).
Proof.
  pose proof (for_range_sleeps 2 (extract_round env) ltac:(lia)) as Hloop.
  assert (Hbody : forall i s, sleeps_within 2 0 (extract_round env i s)).
  { intros i s. unfold extract_round, extract_try, RETRY_DELAY_SECONDS. sleeps_by_cases. }
  specialize (Hloop Hbody MAX_RETRIES 0%nat st). clear Hbody.
  unfold sleeps_within in Hloop. change (Z.of_nat MAX_RETRIES) with 5 in Hloop.
  unfold _extract_captcha_data_url. unfold bind at 1.
  destruct (for_range MAX_RETRIES 0 (extract_round env) st) as [[[u |] | e] st1 evs1];
    cbn [result events] in *; destruct Hloop as [Hle Hsome];
    run_step; unfold sleeps_within; cbn [result events];
    rewrite ?sleep_total_app; cbn [sleep_total].
  - specialize (Hsome u eq_refl). split; [lia | intros; lia].
  - split; [lia | intros; discriminate].
  - split; [lia | intros; discriminate].
Qed.

Lemma sleep_total_pacing p evs : sleep_total (pacing p evs) = sleep_total evs.
Proof.
  unfold pacing. induction evs as [| ev evs IH]; [reflexivity |].
  cbn [List.filter].
  destruct (p ev || is_sleep ev) eqn:E; destruct ev; cbn [sleep_total];
    rewrite ?IH; try reflexivity.
  cbn [is_sleep] in E. rewrite orb_true_r in E. discriminate.
Qed.

Lemma backoff_sleeps u n :
  (n <= MAX_RETRIES)%nat -> sleep_total (backoff_schedule u n 1) <= 20.
Proof.
  intros Hn. unfold MAX_RETRIES in Hn.
  do 6 (destruct n as [| n]; [vm_compute; discriminate |]). lia.
Qed.

Lemma solve_sleeps env data_url st :
  sleep_total (events (_solve_captcha_with_openai env data_url st)) <= 20.
Proof.
  unfold _solve_captcha_with_openai.
  destruct (truthy (OPENAI_API_KEY env)); cbn [negb]; [| run_step; cbn; lia].
  destruct (solve_loop_pacing env data_url MAX_RETRIES 0 st eq_refl)
    as (n & Hn & _ & Hp & _).
  apply (f_equal sleep_total) in Hp. rewrite sleep_total_pacing in Hp.
  pose proof (backoff_sleeps data_url n Hn) as Hb.
  run_step.
  destruct (for_range MAX_RETRIES 0 (solve_round env data_url) st) as [[[a |] | e] st1 evs1];
    cbn [events] in *; rewrite ?sleep_total_app; cbn [sleep_total]; lia.
Qed.

Lemma clear_value_sleeps env el st :
  sleep_total (events (clear_value env el st)) = 0.
Proof. unfold clear_value. split_on_answers; reflexivity. Qed.

Lemma attempt_sleeps env st :
  sleep_total (events (attempt_captcha_solve env st)) <= 28.
Proof.
  set (Property := fun r : Run bool => sleep_total (events r) <= 28).
  change (Property (attempt_captcha_solve env st)).
  unfold attempt_captcha_solve. unfold bind at 1.
  destruct (extract_sleeps env st) as [Hle Hsome].
  destruct (_extract_captcha_data_url env st) as [[data_url | e] st1 evs1];
    cbn [result events] in *.
  2: { subst Property. cbn. lia. }
  destruct data_url as [u |]; cbn [truthy].
  2: { subst Property. cbn. rewrite sleep_total_app. cbn. lia. }
  specialize (Hsome u eq_refl).
  split_on_answers.
  all: try match goal with
       | |- context [_solve_captcha_with_openai ?env ?d ?s] =>
           let H := fresh "Hsolve" in
           pose proof (solve_sleeps env d s) as H;
           let r := fresh "sres" in let s' := fresh "sst" in let ev := fresh "sevs" in
           destruct (_solve_captcha_with_openai env d s) as [r s' ev];
           cbn [events] in H
       end.
  all: split_on_answers.
  all: subst Property; cbv beta; cbn [events]; rewrite ?sleep_total_app;
       cbn [sleep_total]; lia.
Qed.

Lemma collect_kba_sleeps env selectors st :
  sleep_total (events (collect_kba env selectors st)) = 0.
Proof.
  revert st. induction selectors as [| selector rest IH]; intros st; [reflexivity |].
  cbn [collect_kba]. unfold bind at 1. unfold ask at 1. cbv beta iota.
  destruct (page_select env (clock st) selector) as [el | e]; [| reflexivity].
  unfold bind at 1.
  match goal with
  | |- context [collect_kba env rest ?s] =>
      specialize (IH s); destruct (collect_kba env rest s) as [[found | e] st1 evs1]
  end; cbn [events] in *.
  - destruct el; run_step; rewrite !sleep_total_app, IH; reflexivity.
  - cbn [app sleep_total]. exact IH.
Qed.

Lemma fill_answers_sleeps env kba_inputs st :
  sleep_total (events (fill_answers env kba_inputs st)) = 0.
Proof.
  revert st. induction kba_inputs as [| [selector el] rest IH]; intros st; [reflexivity |].
  cbn [fill_answers]. unfold bind at 1.
  match goal with
  | |- context [match ?m st with MkRun _ _ _ => _ end] =>
      assert (Hstep : sleep_total (events (m st)) = 0);
      [| destruct (m st) as [[[] | e] st1 evs1]; cbn [events] in * ]
  end.
  - destruct (SECURITY_ANSWERS env !! selector) as [answer |]; [| reflexivity].
    destruct (str_truthy answer); [| reflexivity].
    unfold bind at 1. pose proof (clear_value_sleeps env el st) as Hc.
    destruct (clear_value env el st) as [[[] | e] st1 evs1]; cbn [events] in *;
      [| exact Hc].
    run_step. rewrite sleep_total_app, Hc. reflexivity.
  - specialize (IH st1). destruct (fill_answers env rest st1) as [r st2 evs2].
    cbn [events] in *. rewrite sleep_total_app. lia.
  - exact Hstep.
Qed.

Lemma kba_loop_sleeps env rounds start st :
  sleeps_within (Z.of_nat rounds * 1) ((Z.of_nat rounds - 1) * 1)
    (for_range rounds start
       (fun _ =>
          kba_inputs <- collect_kba env
            ["#kba1_response"; "#kba2_response"; "#kba3_response"] ;;
          if (2 <=? length kba_inputs)%nat then ret (Some kba_inputs)
          else sleep 1 ;;; ret None) st).
Proof.
  apply (for_range_sleeps 1); [lia |]. intros _ s.
  unfold bind at 1.
  pose proof (collect_kba_sleeps env ["#kba1_response"; "#kba2_response"; "#kba3_response"] s)
    as Hc.
  destruct (collect_kba env _ s) as [[found | e] st1 evs1]; cbn [events] in Hc.
  - sleeps_by_cases.
  - sleeps_by_cases.
Qed.

Lemma verify_loop_sleeps env rounds start st :
  sleeps_within (Z.of_nat rounds * 1) ((Z.of_nat rounds - 1) * 1)
    (for_range rounds start
       (fun _ =>
          current_url <-
            try_except
              (ask (PageEvaluate "location.href")
                 (fun t => page_evaluate env t "location.href"))
              is_AttributeError
              (ask ReadUrl (page_url env)) ;;
          if truthy current_url
             && includes "usvisascheduling.com" (default "" current_url)
             && negb (includes "b2clogin.com" (default "" current_url))
          then
            print "[INFO] Automated login appears successful." ;;;
            ret (Some true)
          else sleep 1 ;;; ret None) st).
Proof.
  apply (for_range_sleeps 1); [lia |]. intros _ s. sleeps_by_cases.
Qed.

(** Case analysis on one answer of the outside. *)
Ltac split_on_answer :=
  match goal with
  | |- context [match ?x with Ok _ => _ | Raise _ => _ end] =>
      lazymatch x with
      | context [match _ with _ => _ end] => fail
      | _ => destruct x eqn:?
      end
  | |- context [match ?x with Some _ => _ | None => _ end] =>
      lazymatch x with
      | context [match _ with _ => _ end] => fail
      | _ => destruct x eqn:?
      end
  | |- context [if ?c then _ else _] =>
      lazymatch c with
      | context [match _ with _ => _ end] => fail
      | _ => destruct c eqn:?
      end
  end.

(** The two polling loops of [perform_login], named. *)
Ltac name_login_loops :=
  set (kba_loop := for_range 30 0 (fun _ => bind (collect_kba _ _) _));
  set (verify_loop := for_range 30 0 (fun _ => bind (try_except _ _ _) _)).

Ltac login_sleep_facts :=
  match goal with
  | |- context [match ?m with MkRun _ _ _ => _ end] =>
      let H := fresh "Hsleep" in
      lazymatch m with
      | _wait_for_element ?env ?sel ?n ?d ?s =>
          pose proof (wait_sleeps env sel n d s ltac:(lia)) as H
      | clear_value ?env ?el ?s => pose proof (clear_value_sleeps env el s) as H
      | attempt_captcha_solve ?env ?s => pose proof (attempt_sleeps env s) as H
      | fill_answers ?env ?l ?s => pose proof (fill_answers_sleeps env l s) as H
      | ?loop ?s =>
          match goal with
          | Hloop : forall s', sleeps_within _ _ (loop s') |- _ => pose proof (Hloop s) as H
          end
      end;
      let res := fresh "res" in
      let st' := fresh "st" in
      let evs := fresh "evs" in
      destruct m as [res st' evs];
      unfold sleeps_within in H; cbn [result events] in H
  end.

(** X16.  However the page, the console and the vision service answer,
    one call of [perform_login] asks for at most 123 seconds of sleep in
    all: 9 for each of the three elements of the first screen, 28 for the
    captcha, 29 for the security questions, 9 for the second button and
    30 for the check of the address. *)

Theorem login_sleeps_at_most_123 (env : Env) (st : State) :
  sleep_total (events (perform_login env st)) <= 123.
Proof.
  set (Property := fun r : Run bool => sleep_total (events r) <= 123).
  change (Property (perform_login env st)).
  unfold perform_login.
  destruct (negb (truthy (USERNAME env)) || negb (truthy (PASSWORD env)));
    [subst Property; cbn; lia |].
  name_login_loops.
  assert (Hkba : forall s, sleeps_within (30 * 1) ((30 - 1) * 1) (kba_loop s))
    by (intros s; apply (kba_loop_sleeps env 30)).
  assert (Hverify : forall s, sleeps_within (30 * 1) ((30 - 1) * 1) (verify_loop s))
    by (intros s; apply (verify_loop_sleeps env 30)).
  clearbody kba_loop verify_loop.
  repeat (run_step; first [login_sleep_facts | split_on_answer]).
  all: subst Property; cbv beta; cbn [events]; rewrite ?sleep_total_app;
       cbn [sleep_total].
  all: repeat match goal with
         | H : _ /\ _ |- _ => destruct H
         | H : forall a, Ok (Some ?x) = Ok (Some a) -> _ |- _ => specialize (H x eq_refl)
         | H : forall a, _ = Ok (Some a) -> _ |- _ => clear H
         end.
  all: lia.
Qed.

(** A loop that returns a value got it from one of its rounds. *)
Lemma for_range_returns {A} (body : nat -> M (option A)) rounds start st a :
  result (for_range rounds start body st) = Ok (Some a) ->
  exists i s, result (body i s) = Ok (Some a).
Proof.
  revert start st. induction rounds as [| n IH]; intros start st; cbn [for_range].
  - discriminate.
  - unfold bind.
    destruct (body start st) as [[[a' |] | e] st1 evs1] eqn:Hbody; cbn [ret result].
    + intros H. inversion H; subst a'. exists start, st. now rewrite Hbody.
    + specialize (IH (S start) st1).
      destruct (for_range n (S start) body st1) as [res2 st2 evs2]. exact IH.
    + discriminate.
Qed.

Lemma verify_loop_returns env rounds start st b :
  result
    (for_range rounds start
       (fun _ =>
          current_url <-
            try_except
              (ask (PageEvaluate "location.href")
                 (fun t => page_evaluate env t "location.href"))
              is_AttributeError
              (ask ReadUrl (page_url env)) ;;
          if truthy current_url
             && includes "usvisascheduling.com" (default "" current_url)
             && negb (includes "b2clogin.com" (default "" current_url))
          then
            print "[INFO] Automated login appears successful." ;;;
            ret (Some true)
          else sleep 1 ;;; ret None) st) = Ok (Some b) ->
  b = true
  /\ exists t url,
       address_read env t url
       /\ includes "usvisascheduling.com" url = true
       /\ includes "b2clogin.com" url = false.
Proof.
  intros H. apply for_range_returns in H as (_ & s & H).
  revert H. split_on_answers; cbn [result]; intros H; try discriminate.
  all: inversion H; subst b; split; [reflexivity |].
  all: match goal with
       | Hc : _ && _ && negb _ = true |- _ =>
           apply andb_prop in Hc as [Hc Hout]; apply andb_prop in Hc as [Htruthy Hin];
           apply negb_true_iff in Hout
       end.
  all: match goal with
       | Ht : truthy ?v = true |- _ => destruct v as [url |]; [| discriminate]
       end.
  all: exists (clock s), url; cbn [from_option id] in *;
       (split; [| split; assumption]).
  - left. assumption.
  - right. eexists. split; [eassumption |]. split; assumption.
Qed.

Lemma prepend_events (a b pre suffix : list Event) :
  b = pre ++ suffix -> a ++ b = (a ++ pre) ++ suffix.
Proof. intros ->. apply app_assoc. Qed.

Ltac find_suffix :=
  first [ exact (eq_refl : _ = [] ++ _)
        | eapply prepend_events; find_suffix ].

Ltac login_open_run :=
  match goal with
  | |- context [match ?m with MkRun _ _ _ => _ end] =>
      lazymatch m with
      | context [match _ with _ => _ end] => fail
      | ?loop ?s =>
          try match goal with
              | Hloop : forall s' b, result (loop s') = Ok (Some b) -> _ |- _ =>
                  let H := fresh "Hdone" in pose proof (Hloop s) as H
              end;
          let res := fresh "res" in
          let st' := fresh "st" in
          let evs := fresh "evs" in
          destruct m as [res st' evs]
      end
  end.

(** X17.  [perform_login] returns [True] only when a user name and a
    password are configured, it has typed the user name and, right after
    it, the password, has clicked a button later and a button again after
    that, and has read an address of the page that contains
    [usvisascheduling.com] and does not contain [b2clogin.com]. *)

Theorem login_success_steps (env : Env) (st : State) :
  result (perform_login env st) = Ok true ->
  truthy (USERNAME env) = true
  /\ truthy (PASSWORD env) = true
  /\ (exists before user_el pass_el captcha btn rest btn2,
         events (perform_login env st)
         = before
             ++ SendKeys user_el (default "" (USERNAME env))
             :: SendKeys pass_el (default "" (PASSWORD env))
             :: captcha ++ Click btn :: rest
         /\ In (Click btn2) rest)
  /\ (exists t url,
         address_read env t url
         /\ includes "usvisascheduling.com" url = true
         /\ includes "b2clogin.com" url = false).
Proof.
  set (Property := fun r : Run bool =>
         result r = Ok true ->
         truthy (USERNAME env) = true
         /\ truthy (PASSWORD env) = true
         /\ (exists before user_el pass_el captcha btn rest btn2,
                events r
                = before
                    ++ SendKeys user_el (default "" (USERNAME env))
                    :: SendKeys pass_el (default "" (PASSWORD env))
                    :: captcha ++ Click btn :: rest
                /\ In (Click btn2) rest)
         /\ (exists t url,
                address_read env t url
                /\ includes "usvisascheduling.com" url = true
                /\ includes "b2clogin.com" url = false)).
  change (Property (perform_login env st)).
  unfold perform_login.
  destruct (truthy (USERNAME env)) eqn:Huser; cbn [negb orb];
    [| subst Property; cbn; discriminate].
  destruct (truthy (PASSWORD env)) eqn:Hpass; cbn [negb orb];
    [| subst Property; cbn; discriminate].
  name_login_loops.
  assert (Hverify : forall s b, result (verify_loop s) = Ok (Some b) ->
            b = true
            /\ exists t url,
                 address_read env t url
                 /\ includes "usvisascheduling.com" url = true
                 /\ includes "b2clogin.com" url = false)
    by (intros s b; apply verify_loop_returns).
  clearbody kba_loop verify_loop.
  repeat (run_step; first [login_open_run | split_on_answer]).
  all: subst Property; cbv beta; cbn [result events]; intros Hres; try discriminate.
  all: (split; [reflexivity |]); (split; [reflexivity |]).
  all: cbn [result] in *.
  all: match goal with
       | H : forall b, Ok (Some ?x) = Ok (Some b) -> _ |- _ =>
           destruct (H x eq_refl) as [_ Hurl]
       end.
  all: (split; [| exact Hurl]).
  all: do 7 eexists; split; [find_suffix |].
  all: rewrite !in_app_iff; cbn [In]; eauto 20.
Qed.

(** A login that goes through at once. *)
Lemma login_success_steps_witness :
  truthy (USERNAME env_login) = true
  /\ truthy (PASSWORD env_login) = true
  /\ (exists t url,
         address_read env_login t url
         /\ includes "usvisascheduling.com" url = true
         /\ includes "b2clogin.com" url = false).
Proof.
  assert (H : result (perform_login env_login (initial_state NoFile)) = Ok true)
    by (vm_compute; reflexivity).
  destruct (login_success_steps env_login (initial_state NoFile) H) as (H1 & H2 & _ & H4).
  split; [exact H1 | split; [exact H2 | exact H4]].
Defined.

(* ===================================================================== *)
(** * Further properties: the supervisor and the final navigation       *)
(* ===================================================================== *)

Section Never.
Variable p : Event -> bool.









End Never.












(** X18.  [main] starts the hook supervisor at most once, and only on
    its way into the idle loop: a run that does not reach the idle loop
    has started none.  A run that reaches it has printed the message that
    it navigated to the appointment page, and either the final navigation
    and the wait for the page both succeeded and the supervisor was
    started once, or one of the two failed with an [Exception], a warning
    was printed and no supervisor was started. *)

